(** * Notification dispatch subsystem of tidy-prioritize

    A shallow embedding of the e-mail notification code:
    - [templates/index.ts] (the TypeScript text that follows the SQL in
      [src/supabase/migrations/20251021000000_create_email_logs.sql]):
      [renderTemplate] and the five templates;
    - the edge function [send-email-notification/index.ts]
      ([src/unnamed/part_002]): [checkRateLimit], [logEmail], [sendEmail]
      and the request handler passed to [serve];
    - the client utilities ([src/unnamed/part_003]): [isValidEmail],
      [calculateRemainingEmails], [getRateLimitMessage],
      [sanitizeEmailData], [groupLogsByStatus], [filterLogsByDateRange];
    - the client facade ([src/unnamed/part_005], second part): [send],
      [getStats] and the typed senders of [EmailNotificationClient];
    - two callers of the facade among the examples
      ([src/unnamed/part_005], first part): [sendCustomEmail] and
      [sendWithRateLimitCheck];
    - the hook [useEmailNotifications] ([src/unnamed/part_006]):
      [handleSend] and the senders built on it.

    Conventions.  Strings are byte strings (UTF-8); instants are
    milliseconds since the epoch, in [Z]; the [email_logs] table is the
    list of its rows in insertion order. *)

From Stdlib Require Import ZArith Lia Ascii String List Bool.
From stdpp Require Import base strings gmap list pretty.

Open Scope string_scope.
Open Scope Z_scope.

(** ** Strings *)

(** The double quote and the line feed, as one-character strings. *)
Definition dq : string := String "034"%char EmptyString.
Definition nl : string := String "010"%char EmptyString.

(** U+2713 CHECK MARK, as its three UTF-8 bytes. *)
Definition check_mark : string :=
  String "226"%char (String "156"%char (String "147"%char EmptyString)).

(** A template literal that spans several source lines, given line by
    line: the lines are joined by line feeds. *)
Definition unlines (ls : list string) : string := String.concat nl ls.

(** [starts_with p s]: [s.startsWith(p)]. *)
Fixpoint starts_with (p s : string) : bool :=
  match p, s with
  | EmptyString, _ => true
  | String _ _, EmptyString => false
  | String a p', String b s' => Ascii.eqb a b && starts_with p' s'
  end.

(** [occurs p s]: [p] is a substring of [s] ([s.includes(p)]). *)
Fixpoint occurs (p s : string) : bool :=
  starts_with p s ||
  match s with
  | EmptyString => false
  | String _ s' => occurs p s'
  end.

(** [has_char c s]: the character [c] is in [s]. *)
Fixpoint has_char (c : ascii) (s : string) : bool :=
  match s with
  | EmptyString => false
  | String x s' => Ascii.eqb x c || has_char c s'
  end.

(** The first character of [s], if any, is not in [p]. *)
Definition starts_apart (p s : string) : bool :=
  match s with
  | EmptyString => true
  | String c _ => negb (has_char c p)
  end.

(** The last character of [s], if any, is not in [p]. *)
Fixpoint ends_apart (p s : string) : bool :=
  match s with
  | EmptyString => true
  | String c EmptyString => negb (has_char c p)
  | String _ s' => ends_apart p s'
  end.

(** [replaceAll c r s] is [s.replace(/c/g, r)] for a one-character
    pattern [c]. *)
Fixpoint replaceAll (c : ascii) (r : string) (s : string) : string :=
  match s with
  | EmptyString => EmptyString
  | String x s' =>
      if Ascii.eqb x c then r +:+ replaceAll c r s'
      else String x (replaceAll c r s')
  end.

(** ** JavaScript values of a data bag

    The scalar values a JSON data bag carries: null, booleans, numbers
    (the integers, which print in decimal) and strings.  A key that is
    missing reads as [undefined]. *)
Inductive JsValue : Type :=
  | JUndefined
  | JNull
  | JBool (b : bool)
  | JNum (n : Z)
  | JStr (s : string).

(** ToBoolean, as used by [v ? a : b] and [v || d]. *)
Definition truthy (v : JsValue) : bool :=
  match v with
  | JUndefined | JNull => false
  | JBool b => b
  | JNum n => negb (n =? 0)
  | JStr s => negb (String.eqb s "")
  end.

(** ToString, as applied by a template substitution. *)
Definition ToString (v : JsValue) : string :=
  match v with
  | JUndefined => "undefined"
  | JNull => "null"
  | JBool true => "true"
  | JBool false => "false"
  | JNum n => pretty n
  | JStr s => s
  end.

(** What a [throw] carries, as far as [error instanceof Error] and
    [error.message] can tell. *)
Inductive Thrown : Type :=
  | ErrorObj (message : string)
  | NonError.

(** The outcome of a call: a value, an exception, or a call whose
    behaviour is outside this model (see [renderTemplate]). *)
Inductive Outcome (A : Type) : Type :=
  | Return (a : A)
  | Throw (e : Thrown)
  | Unmodelled.
Arguments Return {A} a.
Arguments Throw {A} e.
Arguments Unmodelled {A}.

(** * Template renderer (templates/index.ts) *)

Abbreviation TemplateData := (gmap string JsValue).

Record RenderedTemplate : Type := { html : string; text : string }.

(** [const { k } = data]. *)
Definition prop (data : TemplateData) (k : string) : JsValue :=
  default JUndefined (data !! k).

(** Task Reminder Template (templates/index.ts, literal bodies at lines 70-102 and 103-113). *)
Definition taskReminderTemplate (data : TemplateData) : RenderedTemplate :=
  let taskName := prop data "taskName" in
  let dueDate := prop data "dueDate" in
  let description := prop data "description" in
  let url := prop data "url" in
  {| html := unlines [
      "";
      "<!DOCTYPE html>";
      "<html>";
      "<head>";
      "  <style>";
      "    body { font-family: Arial, sans-serif; line-height: 1.6; color: #333; }";
      "    .container { max-width: 600px; margin: 0 auto; padding: 20px; }";
      "    .header { background-color: #4F46E5; color: white; padding: 20px; text-align: center; }";
      "    .content { background-color: #f9fafb; padding: 20px; margin-top: 20px; border-radius: 8px; }";
      "    .task-name { font-size: 20px; font-weight: bold; margin-bottom: 10px; }";
      "    .due-date { color: #dc2626; font-weight: bold; }";
      "    .button { display: inline-block; background-color: #4F46E5; color: white; padding: 12px 24px; text-decoration: none; border-radius: 6px; margin-top: 20px; }";
      "    .footer { margin-top: 30px; text-align: center; color: #6b7280; font-size: 12px; }";
      "  </style>";
      "</head>";
      "<body>";
      "  <div class=" +:+ dq +:+ "container" +:+ dq +:+ ">";
      "    <div class=" +:+ dq +:+ "header" +:+ dq +:+ ">";
      "      <h1>Task Reminder</h1>";
      "    </div>";
      "    <div class=" +:+ dq +:+ "content" +:+ dq +:+ ">";
      "      <div class=" +:+ dq +:+ "task-name" +:+ dq +:+ ">" +:+ ToString taskName +:+ "</div>";
      "      " +:+ (if truthy description then "<p>" +:+ ToString description +:+ "</p>" else "");
      "      " +:+ (if truthy dueDate then "<p>Due Date: <span class=" +:+ dq +:+ "due-date" +:+ dq +:+ ">" +:+ ToString dueDate +:+ "</span></p>" else "");
      "      " +:+ (if truthy url then "<a href=" +:+ dq +:+ ToString url +:+ dq +:+ " class=" +:+ dq +:+ "button" +:+ dq +:+ ">View Task</a>" else "");
      "    </div>";
      "    <div class=" +:+ dq +:+ "footer" +:+ dq +:+ ">";
      "      <p>This is an automated reminder from Tidy Prioritize</p>";
      "    </div>";
      "  </div>";
      "</body>";
      "</html>";
      "    "
    ];
     text := unlines [
      "";
      "Task Reminder";
      "";
      ToString taskName;
      (if truthy description then nl +:+ ToString description +:+ nl else "");
      (if truthy dueDate then "Due Date: " +:+ ToString dueDate +:+ nl else "");
      (if truthy url then nl +:+ "View Task: " +:+ ToString url else "");
      "";
      "---";
      "This is an automated reminder from Tidy Prioritize";
      "    "
    ] |}.

(** Task Assigned Template (templates/index.ts, literal bodies at lines 124-156 and 157-169). *)
Definition taskAssignedTemplate (data : TemplateData) : RenderedTemplate :=
  let taskName := prop data "taskName" in
  let assignedBy := prop data "assignedBy" in
  let description := prop data "description" in
  let dueDate := prop data "dueDate" in
  let url := prop data "url" in
  {| html := unlines [
      "";
      "<!DOCTYPE html>";
      "<html>";
      "<head>";
      "  <style>";
      "    body { font-family: Arial, sans-serif; line-height: 1.6; color: #333; }";
      "    .container { max-width: 600px; margin: 0 auto; padding: 20px; }";
      "    .header { background-color: #10b981; color: white; padding: 20px; text-align: center; }";
      "    .content { background-color: #f9fafb; padding: 20px; margin-top: 20px; border-radius: 8px; }";
      "    .task-name { font-size: 20px; font-weight: bold; margin-bottom: 10px; }";
      "    .button { display: inline-block; background-color: #10b981; color: white; padding: 12px 24px; text-decoration: none; border-radius: 6px; margin-top: 20px; }";
      "    .footer { margin-top: 30px; text-align: center; color: #6b7280; font-size: 12px; }";
      "  </style>";
      "</head>";
      "<body>";
      "  <div class=" +:+ dq +:+ "container" +:+ dq +:+ ">";
      "    <div class=" +:+ dq +:+ "header" +:+ dq +:+ ">";
      "      <h1>New Task Assigned</h1>";
      "    </div>";
      "    <div class=" +:+ dq +:+ "content" +:+ dq +:+ ">";
      "      <p>" +:+ ToString assignedBy +:+ " has assigned you a new task:</p>";
      "      <div class=" +:+ dq +:+ "task-name" +:+ dq +:+ ">" +:+ ToString taskName +:+ "</div>";
      "      " +:+ (if truthy description then "<p>" +:+ ToString description +:+ "</p>" else "");
      "      " +:+ (if truthy dueDate then "<p>Due Date: " +:+ ToString dueDate +:+ "</p>" else "");
      "      " +:+ (if truthy url then "<a href=" +:+ dq +:+ ToString url +:+ dq +:+ " class=" +:+ dq +:+ "button" +:+ dq +:+ ">View Task</a>" else "");
      "    </div>";
      "    <div class=" +:+ dq +:+ "footer" +:+ dq +:+ ">";
      "      <p>Tidy Prioritize - Keep your tasks organized</p>";
      "    </div>";
      "  </div>";
      "</body>";
      "</html>";
      "    "
    ];
     text := unlines [
      "";
      "New Task Assigned";
      "";
      ToString assignedBy +:+ " has assigned you a new task:";
      "";
      ToString taskName;
      (if truthy description then nl +:+ ToString description +:+ nl else "");
      (if truthy dueDate then "Due Date: " +:+ ToString dueDate +:+ nl else "");
      (if truthy url then nl +:+ "View Task: " +:+ ToString url else "");
      "";
      "---";
      "Tidy Prioritize - Keep your tasks organized";
      "    "
    ] |}.

(** Task Completed Template (templates/index.ts, literal bodies at lines 180-209 and 210-220). *)
Definition taskCompletedTemplate (data : TemplateData) : RenderedTemplate :=
  let taskName := prop data "taskName" in
  let completedBy := prop data "completedBy" in
  let completedAt := prop data "completedAt" in
  {| html := unlines [
      "";
      "<!DOCTYPE html>";
      "<html>";
      "<head>";
      "  <style>";
      "    body { font-family: Arial, sans-serif; line-height: 1.6; color: #333; }";
      "    .container { max-width: 600px; margin: 0 auto; padding: 20px; }";
      "    .header { background-color: #059669; color: white; padding: 20px; text-align: center; }";
      "    .content { background-color: #f9fafb; padding: 20px; margin-top: 20px; border-radius: 8px; }";
      "    .task-name { font-size: 20px; font-weight: bold; margin-bottom: 10px; color: #059669; }";
      "    .footer { margin-top: 30px; text-align: center; color: #6b7280; font-size: 12px; }";
      "  </style>";
      "</head>";
      "<body>";
      "  <div class=" +:+ dq +:+ "container" +:+ dq +:+ ">";
      "    <div class=" +:+ dq +:+ "header" +:+ dq +:+ ">";
      "      <h1>" +:+ check_mark +:+ " Task Completed</h1>";
      "    </div>";
      "    <div class=" +:+ dq +:+ "content" +:+ dq +:+ ">";
      "      <div class=" +:+ dq +:+ "task-name" +:+ dq +:+ ">" +:+ ToString taskName +:+ "</div>";
      "      <p>Completed by: " +:+ ToString completedBy +:+ "</p>";
      "      " +:+ (if truthy completedAt then "<p>Completed at: " +:+ ToString completedAt +:+ "</p>" else "");
      "    </div>";
      "    <div class=" +:+ dq +:+ "footer" +:+ dq +:+ ">";
      "      <p>Tidy Prioritize - Keep your tasks organized</p>";
      "    </div>";
      "  </div>";
      "</body>";
      "</html>";
      "    "
    ];
     text := unlines [
      "";
      check_mark +:+ " Task Completed";
      "";
      ToString taskName;
      "";
      "Completed by: " +:+ ToString completedBy;
      (if truthy completedAt then "Completed at: " +:+ ToString completedAt else "");
      "";
      "---";
      "Tidy Prioritize - Keep your tasks organized";
      "    "
    ] |}.

(** Welcome Template (templates/index.ts, literal bodies at lines 231-261 and 262-275). *)
Definition welcomeTemplate (data : TemplateData) : RenderedTemplate :=
  let userName := prop data "userName" in
  let loginUrl := prop data "loginUrl" in
  {| html := unlines [
      "";
      "<!DOCTYPE html>";
      "<html>";
      "<head>";
      "  <style>";
      "    body { font-family: Arial, sans-serif; line-height: 1.6; color: #333; }";
      "    .container { max-width: 600px; margin: 0 auto; padding: 20px; }";
      "    .header { background-color: #4F46E5; color: white; padding: 30px; text-align: center; }";
      "    .content { padding: 30px 20px; }";
      "    .button { display: inline-block; background-color: #4F46E5; color: white; padding: 12px 24px; text-decoration: none; border-radius: 6px; margin-top: 20px; }";
      "    .footer { margin-top: 30px; text-align: center; color: #6b7280; font-size: 12px; }";
      "  </style>";
      "</head>";
      "<body>";
      "  <div class=" +:+ dq +:+ "container" +:+ dq +:+ ">";
      "    <div class=" +:+ dq +:+ "header" +:+ dq +:+ ">";
      "      <h1>Welcome to Tidy Prioritize!</h1>";
      "    </div>";
      "    <div class=" +:+ dq +:+ "content" +:+ dq +:+ ">";
      "      <p>Hi " +:+ (if truthy userName then ToString userName else "there") +:+ ",</p>";
      "      <p>Welcome to Tidy Prioritize! We're excited to help you organize and prioritize your tasks effectively.</p>";
      "      <p>Get started by creating your first task and let our AI help you prioritize what matters most.</p>";
      "      " +:+ (if truthy loginUrl then "<a href=" +:+ dq +:+ ToString loginUrl +:+ dq +:+ " class=" +:+ dq +:+ "button" +:+ dq +:+ ">Get Started</a>" else "");
      "    </div>";
      "    <div class=" +:+ dq +:+ "footer" +:+ dq +:+ ">";
      "      <p>Tidy Prioritize - Keep your tasks organized</p>";
      "    </div>";
      "  </div>";
      "</body>";
      "</html>";
      "    "
    ];
     text := unlines [
      "";
      "Welcome to Tidy Prioritize!";
      "";
      "Hi " +:+ (if truthy userName then ToString userName else "there") +:+ ",";
      "";
      "Welcome to Tidy Prioritize! We're excited to help you organize and prioritize your tasks effectively.";
      "";
      "Get started by creating your first task and let our AI help you prioritize what matters most.";
      "";
      (if truthy loginUrl then "Get Started: " +:+ ToString loginUrl +:+ nl else "");
      "";
      "---";
      "Tidy Prioritize - Keep your tasks organized";
      "    "
    ] |}.

(** Password Reset Template (templates/index.ts, literal bodies at lines 286-318 and 319-330). *)
Definition passwordResetTemplate (data : TemplateData) : RenderedTemplate :=
  let resetUrl := prop data "resetUrl" in
  let expiresIn := prop data "expiresIn" in
  {| html := unlines [
      "";
      "<!DOCTYPE html>";
      "<html>";
      "<head>";
      "  <style>";
      "    body { font-family: Arial, sans-serif; line-height: 1.6; color: #333; }";
      "    .container { max-width: 600px; margin: 0 auto; padding: 20px; }";
      "    .header { background-color: #dc2626; color: white; padding: 20px; text-align: center; }";
      "    .content { padding: 20px; }";
      "    .button { display: inline-block; background-color: #dc2626; color: white; padding: 12px 24px; text-decoration: none; border-radius: 6px; margin-top: 20px; }";
      "    .warning { background-color: #fef2f2; border-left: 4px solid #dc2626; padding: 12px; margin: 20px 0; }";
      "    .footer { margin-top: 30px; text-align: center; color: #6b7280; font-size: 12px; }";
      "  </style>";
      "</head>";
      "<body>";
      "  <div class=" +:+ dq +:+ "container" +:+ dq +:+ ">";
      "    <div class=" +:+ dq +:+ "header" +:+ dq +:+ ">";
      "      <h1>Password Reset Request</h1>";
      "    </div>";
      "    <div class=" +:+ dq +:+ "content" +:+ dq +:+ ">";
      "      <p>You requested to reset your password. Click the button below to proceed:</p>";
      "      " +:+ (if truthy resetUrl then "<a href=" +:+ dq +:+ ToString resetUrl +:+ dq +:+ " class=" +:+ dq +:+ "button" +:+ dq +:+ ">Reset Password</a>" else "");
      "      <div class=" +:+ dq +:+ "warning" +:+ dq +:+ ">";
      "        <strong>Security Notice:</strong> This link will expire in " +:+ (if truthy expiresIn then ToString expiresIn else "1 hour") +:+ ". If you didn't request this reset, please ignore this email.";
      "      </div>";
      "    </div>";
      "    <div class=" +:+ dq +:+ "footer" +:+ dq +:+ ">";
      "      <p>Tidy Prioritize - Keep your tasks organized</p>";
      "    </div>";
      "  </div>";
      "</body>";
      "</html>";
      "    "
    ];
     text := unlines [
      "";
      "Password Reset Request";
      "";
      "You requested to reset your password. Click the link below to proceed:";
      "";
      (if truthy resetUrl then ToString resetUrl else "No reset URL provided");
      "";
      "SECURITY NOTICE: This link will expire in " +:+ (if truthy expiresIn then ToString expiresIn else "1 hour") +:+ ". If you didn't request this reset, please ignore this email.";
      "";
      "---";
      "Tidy Prioritize - Keep your tasks organized";
      "    "
    ] |}.
(** The name-keyed map of [renderTemplate]. *)
Definition templates : gmap string (TemplateData → RenderedTemplate) :=
  {[ "task-reminder" := taskReminderTemplate;
     "task-assigned" := taskAssignedTemplate;
     "task-completed" := taskCompletedTemplate;
     "welcome" := welcomeTemplate;
     "password-reset" := passwordResetTemplate ]}.

(** The five registered identifiers. *)
Definition registered : list string :=
  [ "task-reminder"; "task-assigned"; "task-completed"; "welcome";
    "password-reset" ].

(** [templates] is an object literal, so [templates[templateName]] also
    finds the members of [Object.prototype].  For these names the guard
    [!template] does not fire and what the call does is the engine's
    business: such a call is [Unmodelled]. *)
Definition object_prototype_keys : list string :=
  [ "constructor"; "toString"; "toLocaleString"; "valueOf";
    "hasOwnProperty"; "isPrototypeOf"; "propertyIsEnumerable";
    "__proto__"; "__defineGetter__"; "__defineSetter__";
    "__lookupGetter__"; "__lookupSetter__" ].

Definition is_registered (name : string) : bool :=
  existsb (String.eqb name) registered.

Definition is_prototype_key (name : string) : bool :=
  existsb (String.eqb name) object_prototype_keys.

(** Renders an email template with the provided data. *)
Definition renderTemplate (templateName : string) (data : TemplateData)
  : Outcome RenderedTemplate :=
  match templates !! templateName with
  | Some template => Return (template data)
  | None =>
      if is_prototype_key templateName then Unmodelled
      else Throw (ErrorObj ("Template '" +:+ templateName +:+ "' not found"))
  end.

(** * Client utilities (utils.ts) *)

(** ** A regular-expression matcher, for [isValidEmail] *)

Inductive Regex : Type :=
  | REmpty                          (* matches nothing *)
  | REps                            (* the empty string *)
  | RClass (cls : ascii → bool)     (* one character of a class *)
  | RCat (r1 r2 : Regex)
  | RAlt (r1 r2 : Regex)
  | RStar (r : Regex).

(** [r+] *)
Definition RPlus (r : Regex) : Regex := RCat r (RStar r).

Fixpoint nullable (r : Regex) : bool :=
  match r with
  | REmpty => false
  | REps => true
  | RClass _ => false
  | RCat r1 r2 => nullable r1 && nullable r2
  | RAlt r1 r2 => nullable r1 || nullable r2
  | RStar _ => true
  end.

(** What is left of [r] after reading [c]. *)
Fixpoint deriv (c : ascii) (r : Regex) : Regex :=
  match r with
  | REmpty | REps => REmpty
  | RClass cls => if cls c then REps else REmpty
  | RCat r1 r2 =>
      if nullable r1 then RAlt (RCat (deriv c r1) r2) (deriv c r2)
      else RCat (deriv c r1) r2
  | RAlt r1 r2 => RAlt (deriv c r1) (deriv c r2)
  | RStar r' => RCat (deriv c r') (RStar r')
  end.

(** [/^r$/.test(s)] *)
Fixpoint regex_test (r : Regex) (s : string) : bool :=
  match s with
  | EmptyString => nullable r
  | String c s' => regex_test (deriv c r) s'
  end.

(** The white space of [\s] below U+0080: tab, line feed, vertical tab,
    form feed, carriage return and space. *)
Definition is_space (c : ascii) : bool :=
  let n := nat_of_ascii c in
  ((9 <=? n) && (n <=? 13))%nat || (n =? 32)%nat.

(** A character below U+0080 that is neither white space nor [@]. *)
Definition not_space_at (c : ascii) : bool :=
  negb (is_space c) && negb (Ascii.eqb c "@"%char).

(** Classes of bytes, by value. *)
Definition byte_in (lo hi : nat) (c : ascii) : bool :=
  ((lo <=? nat_of_ascii c) && (nat_of_ascii c <=? hi))%nat.

Definition byte_is (n : nat) (c : ascii) : bool :=
  (nat_of_ascii c =? n)%nat.

Definition is_ascii (c : ascii) : bool := byte_in 0 127 c.

(** A continuation byte of UTF-8, and one outside a class. *)
Definition continuation : Regex := RClass (byte_in 128 191).

Definition continuation_but (excluded : ascii → bool) : Regex :=
  RClass (λ c, byte_in 128 191 c && negb (excluded c)).

(** [[^\s@]] on a string in UTF-8.  The expression reads UTF-16 code
    units; beyond U+007F, [\s] has U+00A0, U+1680, U+2000 to U+200A,
    U+2028, U+2029, U+202F, U+205F, U+3000 and U+FEFF, which are C2 A0,
    E1 9A 80, E2 80 80 to E2 80 8A, E2 80 A8, E2 80 A9, E2 80 AF,
    E2 81 9F, E3 80 80 and EF BB BF in UTF-8.  A character of one, two
    or three bytes is one code unit; one of four bytes is two
    surrogates, neither of them white space, and the class is only used
    under [+]. *)
Definition addressChar : Regex :=
  (* U+0000 to U+007F *)
  RAlt (RClass (λ c, is_ascii c && not_space_at c))
  (* U+0080 to U+07FF, but U+00A0 *)
  (RAlt (RCat (RClass (byte_is 194)) (continuation_but (byte_is 160)))
  (RAlt (RCat (RClass (byte_in 195 223)) continuation)
  (* U+1000 to U+1FFF, but U+1680 *)
  (RAlt (RCat (RClass (byte_is 225))
           (RAlt (RCat (RClass (byte_is 154)) (continuation_but (byte_is 128)))
                 (RCat (continuation_but (byte_is 154)) continuation)))
  (* U+2000 to U+2FFF, but U+2000 to U+200A, U+2028, U+2029, U+202F and
     U+205F *)
  (RAlt (RCat (RClass (byte_is 226))
           (RAlt (RCat (RClass (byte_is 128))
                    (continuation_but
                       (λ c, byte_in 128 138 c || byte_in 168 169 c
                             || byte_is 175 c)))
           (RAlt (RCat (RClass (byte_is 129)) (continuation_but (byte_is 159)))
                 (RCat (continuation_but (byte_in 128 129)) continuation))))
  (* U+3000 to U+3FFF, but U+3000 *)
  (RAlt (RCat (RClass (byte_is 227))
           (RAlt (RCat (RClass (byte_is 128)) (continuation_but (byte_is 128)))
                 (RCat (continuation_but (byte_is 128)) continuation)))
  (* U+F000 to U+FFFF, but U+FEFF *)
  (RAlt (RCat (RClass (byte_is 239))
           (RAlt (RCat (RClass (byte_is 187)) (continuation_but (byte_is 191)))
                 (RCat (continuation_but (byte_is 187)) continuation)))
  (* U+0800 to U+0FFF and U+4000 to U+EFFF *)
  (RAlt (RCat (RClass (λ c, byte_is 224 c || byte_in 228 238 c))
           (RCat continuation continuation))
  (* U+10000 to U+10FFFF *)
        (RCat (RClass (byte_in 240 244))
           (RCat continuation (RCat continuation continuation)))))))))).

(** [/^[^\s@]+@[^\s@]+\.[^\s@]+$/] *)
Definition emailRegex : Regex :=
  RCat (RPlus addressChar)
    (RCat (RClass (Ascii.eqb "@"%char))
       (RCat (RPlus addressChar)
          (RCat (RClass (Ascii.eqb "."%char))
             (RPlus addressChar)))).

(** Check if an email address is valid *)
Definition isValidEmail (email : string) : bool :=
  regex_test emailRegex email.

(** The limits: [RateLimitInfo] on the client, [RateLimitConfig] in the
    edge function, with the same two fields. *)
Record RateLimitInfo : Type :=
  { maxEmailsPerHour : Z; maxEmailsPerDay : Z }.

Record EmailStats : Type :=
  { sentToday : Z; sentThisHour : Z; failedToday : Z; totalSent : Z }.

Record RemainingEmails : Type :=
  { remainingThisHour : Z; remainingToday : Z; canSend : bool }.

(** Calculate remaining emails for rate limits *)
Definition calculateRemainingEmails (stats : EmailStats)
    (limits : RateLimitInfo) : RemainingEmails :=
  let remainingThisHour := maxEmailsPerHour limits - sentThisHour stats in
  let remainingToday := maxEmailsPerDay limits - sentToday stats in
  {| remainingThisHour := Z.max 0 remainingThisHour;
     remainingToday := Z.max 0 remainingToday;
     canSend := (0 <? remainingThisHour) && (0 <? remainingToday) |}.

(** The chain of [replace] calls of [sanitizeEmailData], on one string. *)
Definition encodeEntities (value : string) : string :=
  replaceAll "'"%char "&#x27;"
    (replaceAll "034"%char "&quot;"
       (replaceAll ">"%char "&gt;"
          (replaceAll "<"%char "&lt;"
             (replaceAll "&"%char "&amp;" value)))).

(** Sanitize email data to prevent injection.  [sanitized] starts as
    [{}], so [sanitized[key] = ...] for the key [__proto__] goes to the
    setter of [Object.prototype] and makes no property, whatever the
    value: that key of the bag is dropped. *)
Definition sanitizeEmailData (data : TemplateData) : TemplateData :=
  delete "__proto__"
    ((λ value,
        match value with
        | JStr s => JStr (encodeEntities s)
        | _ => value
        end) <$> data).

(** * The [email_logs] table (20251021000000_create_email_logs.sql) *)

(** [status TEXT NOT NULL CHECK (status IN ('sent', 'failed'))] *)
Inductive Status : Type := sent | failed.

Definition Status_eqb (a b : Status) : bool :=
  match a, b with
  | sent, sent | failed, failed => true
  | _, _ => false
  end.

(** A stored row.  [id] stands for the generated UUID: the position of
    the row in the table. *)
Record EmailLog : Type :=
  { id : nat;
    user_id : string;
    recipient : string;
    subject : string;
    template : option string;
    status : Status;
    error_message : option string;
    created_at : Z }.

(** The object handed to [insert]: [id] and [created_at] are left to
    their column defaults. *)
Record NewEmailLog : Type :=
  { new_user_id : string;
    new_recipient : option string;
    new_subject : option string;
    new_template : option string;
    new_status : Status;
    new_error_message : option string }.

(** The filters the code puts on a [select]. *)
Inductive Filter : Type :=
  | eq_user_id (userId : string)
  | eq_status (s : Status)
  | gte_created_at (since : Z).

Definition satisfies (r : EmailLog) (f : Filter) : bool :=
  match f with
  | eq_user_id userId => String.eqb (user_id r) userId
  | eq_status s => Status_eqb (status r) s
  | gte_created_at since => since <=? created_at r
  end.

(** Policy "Users can view their own email logs":
    [USING (auth.uid() = user_id)].  [uid] is [auth.uid()], [None] for a
    client that no user stands behind. *)
Definition rls_visible (uid : option string) (rows : list EmailLog)
  : list EmailLog :=
  filter (λ r, uid = Some (user_id r)) rows.

(** The rows a [select] with these filters returns to [uid]. *)
Definition select_rows (uid : option string) (filters : list Filter)
    (rows : list EmailLog) : list EmailLog :=
  filter (λ r, forallb (satisfies r) filters = true) (rls_visible uid rows).

(** * The edge function (send-email-notification/index.ts) *)

Record EmailRequest : Type :=
  { req_to : option string;
    req_subject : option string;
    req_template : option string;
    req_data : option TemplateData;
    req_html : option string;
    req_text : option string }.

(** The body posted to the provider. *)
Record EmailPayload : Type :=
  { bearer : string;
    from : string;
    to : option string;
    payload_subject : option string;
    payload_html : option string;
    payload_text : option string }.

(** What [fetch] comes back with: a rejected promise, or a response with
    its status, its body text and, if the body does not parse, the
    message of the error [response.json()] throws. *)
Inductive FetchResult : Type :=
  | NetworkFailure (message : string)
  | HttpResponse (status_code : Z) (body_text : string)
      (json_error : option string).

Inductive Event : Type :=
  | CountQuery (uid : option string) (filters : list Filter)
  | InsertRow (uid : option string) (r : NewEmailLog)
  | Fetch (p : EmailPayload)
  | ConsoleError (label : string)
  | ConsoleLog (label : string).

(** The [error] of a query result of supabase-js: an object
    [{ message, details, hint, code }] that the library makes from the
    answer of the store, or from the failure to reach it.  It is not an
    [Error]. *)
Record QueryError : Type := { query_message : string }.

(** Everything the handler reads but does not change. *)
Record Env : Type :=
  { (* [rateLimitConfig]; the repository ships [shipped_limits] *)
    rateLimitConfig : RateLimitInfo;
    (* [Deno.env.get('RESEND_API_KEY')], [Deno.env.get('EMAIL_FROM')] *)
    RESEND_API_KEY : option string;
    EMAIL_FROM : option string;
    (* [supabase.auth.getUser()] for a client made with this header *)
    getUser : string → option string;
    (* [new Date().getTime()] *)
    clock : Z;
    (* [new Date(y, m, d)] for the local date of an instant: the start
       of its local calendar day, as the time zone of the host has it *)
    startOfLocalDay : Z → Z;
    (* [NOW()], the default of [created_at] *)
    db_clock : Z;
    (* the error a [select] with these filters comes back with *)
    select_error : list Filter → option QueryError;
    (* the error an [insert] comes back with *)
    insert_error : option string;
    (* the provider *)
    provider : EmailPayload → FetchResult }.

(** [maxEmailsPerHour: 10, maxEmailsPerDay: 50] *)
Definition shipped_limits : RateLimitInfo :=
  {| maxEmailsPerHour := 10; maxEmailsPerDay := 50 |}.

(** What the handler changes: the table, and the trace of its calls to
    the outside. *)
Record State : Type :=
  { email_logs : list EmailLog;
    trace : list Event }.

(** ** The monad of the handler: environment, state, exceptions *)

Definition M (A : Type) : Type := Env → State → Outcome A * State.

#[global] Instance M_ret : MRet M := λ A a _ st, (Return a, st).

#[global] Instance M_bind : MBind M := λ A B f m env st,
  match m env st with
  | (Return a, st') => f a env st'
  | (Throw e, st') => (Throw e, st')
  | (Unmodelled, st') => (Unmodelled, st')
  end.

Definition throw {A} (e : Thrown) : M A := λ _ st, (Throw e, st).

(** [try { m } catch (error) { handler error }] *)
Definition try_catch {A} (m : M A) (handler : Thrown → M A) : M A :=
  λ env st,
    match m env st with
    | (Throw e, st') => handler e env st'
    | r => r
    end.

Definition ask {A} (f : Env → A) : M A := λ env st, (Return (f env), st).

Definition emit (ev : Event) : M unit :=
  λ _ st, (Return tt,
           {| email_logs := email_logs st; trace := trace st ++ [ev] |}).

Definition gets {A} (f : State → A) : M A := λ _ st, (Return (f st), st).

(** Appends to the table the row [mk n], [n] being its position. *)
Definition append_row (mk : nat → EmailLog) : M unit :=
  λ _ st, (Return tt,
           {| email_logs := email_logs st ++ [mk (length (email_logs st))];
              trace := trace st |}).

(** A pure call that may throw. *)
Definition lift {A} (o : Outcome A) : M A := λ _ st, (o, st).

(** [error instanceof Error ? error.message : 'Unknown error'] *)
Definition message_of (e : Thrown) : string :=
  match e with
  | ErrorObj message => message
  | NonError => "Unknown error"
  end.

(** Truthiness of a string that may be missing. *)
Definition present (s : option string) : bool :=
  match s with
  | Some s => negb (String.eqb s "")
  | None => false
  end.

(** [s || null] *)
Definition or_null (s : option string) : option string :=
  if present s then s else None.

(** ** The supabase client *)

(** A client made with an Authorization header; [auth.uid()] is the
    user the header resolves to. *)
Record SupabaseClient : Type := { authorization : string }.

Record CountResult : Type :=
  { count : option Z; error : option QueryError }.

(** What [throw e] throws for the [error] of a query result: a value
    that is not an [Error]. *)
Definition thrown_object (e : QueryError) : Thrown := NonError.

(** [supabase.from('email_logs').select('*', { count: 'exact', head: true })]
    with the given filters. *)
Definition select_count (supabase : SupabaseClient) (filters : list Filter)
  : M CountResult :=
  uid ← ask (λ env, getUser env (authorization supabase));
  emit (CountQuery uid filters);;
  err ← ask (λ env, select_error env filters);
  match err with
  | Some e => mret {| count := None; error := Some e |}
  | None =>
      rows ← gets email_logs;
      mret {| count := Some (Z.of_nat (length
                (select_rows uid filters rows)));
              error := None |}
  end.

(** [supabase.from('email_logs').insert(row)]: the row is stored when the
    store is up, the NOT NULL columns are given and the policy "Users can
    insert their own email logs" ([WITH CHECK (auth.uid() = user_id)])
    holds.  Returns the [error] of the result. *)
Definition insert_row (supabase : SupabaseClient) (row : NewEmailLog)
  : M (option string) :=
  uid ← ask (λ env, getUser env (authorization supabase));
  emit (InsertRow uid row);;
  err ← ask insert_error;
  match err, new_recipient row, new_subject row with
  | Some e, _, _ => mret (Some e)
  | None, Some recipient, Some subject =>
      if decide (uid = Some (new_user_id row)) then
        now ← ask db_clock;
        append_row (λ n,
          {| id := n;
             user_id := new_user_id row;
             recipient := recipient;
             subject := subject;
             template := new_template row;
             status := new_status row;
             error_message := new_error_message row;
             created_at := now |});;
        mret None
      else mret (Some "new row violates row-level security policy")
  | None, _, _ => mret (Some "null value violates not-null constraint")
  end.

(** ** Rate limiting *)

Inductive RateLimitCheck : Type :=
  | allowed                          (* [{ allowed: true }] *)
  | not_allowed (reason : string).   (* [{ allowed: false, reason }] *)

Definition hourly_reason (cfg : RateLimitInfo) : string :=
  "Hourly rate limit exceeded. Maximum " +:+ pretty (maxEmailsPerHour cfg)
  +:+ " emails per hour.".

Definition daily_reason (cfg : RateLimitInfo) : string :=
  "Daily rate limit exceeded. Maximum " +:+ pretty (maxEmailsPerDay cfg)
  +:+ " emails per day.".

Definition checkRateLimit (supabase : SupabaseClient) (userId : string)
  : M RateLimitCheck :=
  cfg ← ask rateLimitConfig;
  now ← ask clock;
  let oneHourAgo := now - 60 * 60 * 1000 in
  let oneDayAgo := now - 24 * 60 * 60 * 1000 in
  (* Check hourly limit *)
  hourly ← select_count supabase [eq_user_id userId; gte_created_at oneHourAgo];
  match error hourly with
  | Some hourlyError =>
      emit (ConsoleError "Error checking hourly rate limit:");;
      throw (thrown_object hourlyError)
  | None =>
      if maxEmailsPerHour cfg <=? default 0 (count hourly) then
        mret (not_allowed (hourly_reason cfg))
      else
        (* Check daily limit *)
        daily ← select_count supabase
                  [eq_user_id userId; gte_created_at oneDayAgo];
        match error daily with
        | Some dailyError =>
            emit (ConsoleError "Error checking daily rate limit:");;
            throw (thrown_object dailyError)
        | None =>
            if maxEmailsPerDay cfg <=? default 0 (count daily) then
              mret (not_allowed (daily_reason cfg))
            else mret allowed
        end
  end.

(** ** Audit log *)

Definition logEmail (supabase : SupabaseClient) (userId : string)
    (emailData : EmailRequest) (status : Status) (error : option string)
  : M unit :=
  logError ← insert_row supabase
    {| new_user_id := userId;
       new_recipient := req_to emailData;
       new_subject := req_subject emailData;
       new_template := or_null (req_template emailData);
       new_status := status;
       new_error_message := or_null error |};
  match logError with
  | Some _ => emit (ConsoleError "Error logging email:")
  | None => mret tt
  end.

(** ** Delivery *)

(** [response.ok] *)
Definition ok (status_code : Z) : bool :=
  (200 <=? status_code) && (status_code <=? 299).

Definition sendEmail (emailData : EmailRequest) : M unit :=
  key ← ask RESEND_API_KEY;
  if negb (present key) then
    throw (ErrorObj "RESEND_API_KEY is not configured")
  else
    (* If template is specified, render it *)
    content ←
      (if present (req_template emailData) then
         rendered ← lift (renderTemplate (default "" (req_template emailData))
                            (default ∅ (req_data emailData)));
         mret (Some (html rendered), Some (text rendered))
       else mret (req_html emailData, req_text emailData));
    let '(htmlContent, textContent) := content in
    if negb (present htmlContent) && negb (present textContent) then
      throw (ErrorObj "Either html, text, or template must be provided")
    else
      sender ← ask EMAIL_FROM;
      let payload :=
        {| bearer := default "" key;
           from := if present sender then default "" sender
                   else "noreply@tidy-prioritize.app";
           to := req_to emailData;
           payload_subject := req_subject emailData;
           payload_html := htmlContent;
           payload_text := textContent |} in
      emit (Fetch payload);;
      response ← ask (λ env, provider env payload);
      match response with
      | NetworkFailure message => throw (ErrorObj message)
      | HttpResponse status_code errorData json_error =>
          if negb (ok status_code) then
            throw (ErrorObj ("Email service error: " +:+ pretty status_code
                             +:+ " - " +:+ errorData))
          else
            match json_error with
            | Some message => throw (ErrorObj message)
            | None => emit (ConsoleLog "Email sent successfully:")
            end
      end.

(** ** The request handler *)

(** A request: its method, its Authorization header and its parsed
    body ([await req.json()]). *)
Record HttpRequest : Type :=
  { method : string;
    authorization_header : option string;
    json : EmailRequest }.

Inductive ResponseBody : Type :=
  | no_body
  | error_body (error : string)       (* [{ error }] *)
  | success_body (message : string).  (* [{ success: true, message }] *)

Record Response : Type := { status_of : Z; body : ResponseBody }.

Definition serve (req : HttpRequest) : M Response :=
  if String.eqb (method req) "OPTIONS" then
    mret {| status_of := 200; body := no_body |}
  else
    try_catch
      ((* Get user from authorization header *)
       if negb (present (authorization_header req)) then
         mret {| status_of := 401;
                 body := error_body "Missing authorization header" |}
       else
         let supabase :=
           {| authorization := default "" (authorization_header req) |} in
         user ← ask (λ env, getUser env (authorization supabase));
         match user with
         | None =>
             mret {| status_of := 401;
                     body := error_body "User not authenticated" |}
         | Some uid =>
             let emailData := json req in
             (* Validate request *)
             if negb (present (req_to emailData))
                || negb (present (req_subject emailData)) then
               mret {| status_of := 400;
                       body := error_body
                                 "Missing required fields: to, subject" |}
             else
               (* Check rate limit *)
               rateLimitCheck ← checkRateLimit supabase uid;
               match rateLimitCheck with
               | not_allowed reason =>
                   logEmail supabase uid emailData failed (Some reason);;
                   mret {| status_of := 429; body := error_body reason |}
               | allowed =>
                   (* Send email *)
                   try_catch
                     (sendEmail emailData;;
                      logEmail supabase uid emailData sent None;;
                      mret {| status_of := 200;
                              body := success_body
                                        "Email sent successfully" |})
                     (λ error,
                        let errorMessage := message_of error in
                        logEmail supabase uid emailData failed
                          (Some errorMessage);;
                        throw error)
               end
         end)
      (λ error,
         emit (ConsoleError "Error in send-email-notification:");;
         mret {| status_of := 500; body := error_body (message_of error) |}).

(** * The client facade (client.ts) *)

(** [EmailNotificationClient.RATE_LIMITS] *)
Definition RATE_LIMITS : RateLimitInfo :=
  {| maxEmailsPerHour := 10; maxEmailsPerDay := 50 |}.

(** The rendering of an object by [JSON.stringify], which leaves out the
    keys whose value is [undefined]: the data bag the handler receives. *)
Definition json_object (fields : list (string * option string))
  : TemplateData :=
  list_to_map (omap (λ kv, (λ v, (kv.1, JStr v)) <$> kv.2) fields).

(** The requests that the typed senders hand to [send].  A parameter
    marked [?] is an [option]. *)
Definition sendTaskReminder (to taskName : string)
    (dueDate description url : option string) : EmailRequest :=
  {| req_to := Some to;
     req_subject := Some ("Task Reminder: " +:+ taskName);
     req_template := Some "task-reminder";
     req_data := Some (json_object
       [ ("taskName", Some taskName); ("dueDate", dueDate);
         ("description", description); ("url", url) ]);
     req_html := None; req_text := None |}.

Definition sendTaskAssigned (to taskName assignedBy : string)
    (description dueDate url : option string) : EmailRequest :=
  {| req_to := Some to;
     req_subject := Some ("New Task Assigned: " +:+ taskName);
     req_template := Some "task-assigned";
     req_data := Some (json_object
       [ ("taskName", Some taskName); ("assignedBy", Some assignedBy);
         ("description", description); ("dueDate", dueDate); ("url", url) ]);
     req_html := None; req_text := None |}.

Definition sendTaskCompleted (to taskName completedBy : string)
    (completedAt : option string) : EmailRequest :=
  {| req_to := Some to;
     req_subject := Some ("Task Completed: " +:+ taskName);
     req_template := Some "task-completed";
     req_data := Some (json_object
       [ ("taskName", Some taskName); ("completedBy", Some completedBy);
         ("completedAt", completedAt) ]);
     req_html := None; req_text := None |}.

Definition sendWelcome (to : string) (userName loginUrl : option string)
  : EmailRequest :=
  {| req_to := Some to;
     req_subject := Some "Welcome to Tidy Prioritize!";
     req_template := Some "welcome";
     req_data := Some (json_object
       [ ("userName", userName); ("loginUrl", loginUrl) ]);
     req_html := None; req_text := None |}.

Definition sendPasswordReset (to resetUrl : string)
    (expiresIn : option string) : EmailRequest :=
  {| req_to := Some to;
     req_subject := Some "Password Reset Request";
     req_template := Some "password-reset";
     req_data := Some (json_object
       [ ("resetUrl", Some resetUrl);
         ("expiresIn", Some (if present expiresIn then default "" expiresIn
                             else "1 hour")) ]);
     req_html := None; req_text := None |}.

(** Get email statistics for the current user *)
Definition getStats (supabase : SupabaseClient) : M EmailStats :=
  now ← ask clock;
  (* [new Date(now.getFullYear(), now.getMonth(), now.getDate())] *)
  today ← ask (λ env, startOfLocalDay env now);
  let oneHourAgo := now - 60 * 60 * 1000 in
  sentTodayResult ←
    select_count supabase [eq_status sent; gte_created_at today];
  sentThisHourResult ←
    select_count supabase [eq_status sent; gte_created_at oneHourAgo];
  failedTodayResult ←
    select_count supabase [eq_status failed; gte_created_at today];
  totalSentResult ← select_count supabase [eq_status sent];
  mret {| sentToday := default 0 (count sentTodayResult);
          sentThisHour := default 0 (count sentThisHourResult);
          failedToday := default 0 (count failedTodayResult);
          totalSent := default 0 (count totalSentResult) |}.

(** * Observations used by the statements *)

(** [countSince identityId since]: the number of records of that
    identity with timestamp at or after [since]. *)
Definition countSince (rows : list EmailLog) (identityId : string)
    (since : Z) : Z :=
  Z.of_nat (length
    (filter (λ r, user_id r = identityId ∧ since ≤ created_at r) rows)).

(** The number of records of that identity timestamped from [lo] to
    [hi], both included. *)
Definition countWithin (rows : list EmailLog) (identityId : string)
    (lo hi : Z) : Z :=
  Z.of_nat (length
    (filter (λ r, user_id r = identityId ∧ lo ≤ created_at r ≤ hi) rows)).

Definition hour : Z := 60 * 60 * 1000.
Definition day : Z := 24 * 60 * 60 * 1000.

(** The store answers every [select]. *)
Definition selects_succeed (env : Env) : Prop :=
  ∀ filters, select_error env filters = None.

Definition is_fetch (ev : Event) : bool :=
  match ev with Fetch _ => true | _ => false end.

Definition is_insert (ev : Event) : bool :=
  match ev with InsertRow _ _ => true | _ => false end.

Definition is_count_query (ev : Event) : bool :=
  match ev with CountQuery _ _ => true | _ => false end.

(** The request is a POST-like call whose Authorization header resolves
    to the user [uid]. *)
Definition authenticated (env : Env) (req : HttpRequest) (uid : string)
  : Prop :=
  String.eqb (method req) "OPTIONS" = false
  ∧ present (authorization_header req) = true
  ∧ getUser env (default "" (authorization_header req)) = Some uid.

(** The client of the handler for this request. *)
Definition client_of (req : HttpRequest) : SupabaseClient :=
  {| authorization := default "" (authorization_header req) |}.

(** The same environment with another answer to [insert]. *)
Definition with_insert_error (env : Env) (e : option string) : Env :=
  {| rateLimitConfig := rateLimitConfig env;
     RESEND_API_KEY := RESEND_API_KEY env;
     EMAIL_FROM := EMAIL_FROM env;
     getUser := getUser env;
     clock := clock env;
     startOfLocalDay := startOfLocalDay env;
     db_clock := db_clock env;
     select_error := select_error env;
     insert_error := e;
     provider := provider env |}.

(** The keys each template reads from its data bag. *)
Definition template_fields (templateName : string) : list string :=
  if String.eqb templateName "task-reminder" then
    ["taskName"; "dueDate"; "description"; "url"]
  else if String.eqb templateName "task-assigned" then
    ["taskName"; "assignedBy"; "description"; "dueDate"; "url"]
  else if String.eqb templateName "task-completed" then
    ["taskName"; "completedBy"; "completedAt"]
  else if String.eqb templateName "welcome" then
    ["userName"; "loginUrl"]
  else if String.eqb templateName "password-reset" then
    ["resetUrl"; "expiresIn"]
  else [].

(** The optional ones among them: the parameters that the senders of
    [EmailNotificationClient] mark with [?] ([sendTaskReminder],
    [sendTaskAssigned], [sendTaskCompleted], [sendWelcome],
    [sendPasswordReset]). *)
Definition optional_fields (templateName : string) : list string :=
  if String.eqb templateName "task-reminder" then
    ["dueDate"; "description"; "url"]
  else if String.eqb templateName "task-assigned" then
    ["description"; "dueDate"; "url"]
  else if String.eqb templateName "task-completed" then
    ["completedAt"]
  else if String.eqb templateName "welcome" then
    ["userName"; "loginUrl"]
  else if String.eqb templateName "password-reset" then
    ["expiresIn"]
  else [].

(** No value of the bag prints as something that has "undefined" in it. *)
Definition values_defined (data : TemplateData) : Prop :=
  ∀ k v, data !! k = Some v → occurs "undefined" (ToString v) = false.

(** Of the keys the template reads, only optional ones are missing. *)
Definition only_optional_missing (templateName : string)
    (data : TemplateData) : Prop :=
  ∀ k, In k (template_fields templateName) → data !! k = None →
       In k (optional_fields templateName).

(** What [sendEmail] renders for a request with a template. *)
Definition rendered_for (emailData : EmailRequest) : Outcome RenderedTemplate :=
  renderTemplate (default "" (req_template emailData))
    (default ∅ (req_data emailData)).

(** An argument of a sender, when given, has no "undefined" in it. *)
Definition given_defined (arg : option string) : Prop :=
  ∀ v, arg = Some v → occurs "undefined" v = false.

(** The characters that [sanitizeEmailData] encodes, the ampersand
    apart. *)
Definition markup_chars : list ascii :=
  [ "<"%char; ">"%char; "034"%char; "'"%char ].

(** The object [logEmail] hands to [insert]. *)
Definition log_entry (userId : string) (emailData : EmailRequest)
    (status : Status) (error : option string) : NewEmailLog :=
  {| new_user_id := userId;
     new_recipient := req_to emailData;
     new_subject := req_subject emailData;
     new_template := or_null (req_template emailData);
     new_status := status;
     new_error_message := or_null error |}.

(** The row the table stores for it, at position [n] and instant [now]. *)
Definition stored (n : nat) (now : Z) (row : NewEmailLog) : EmailLog :=
  {| id := n;
     user_id := new_user_id row;
     recipient := default "" (new_recipient row);
     subject := default "" (new_subject row);
     template := new_template row;
     status := new_status row;
     error_message := new_error_message row;
     created_at := now |}.

(** The state after [logEmail] has run for the user the client stands
    for, on a request that names its recipient and subject. *)
Definition after_log (env : Env) (st : State) (row : NewEmailLog) : State :=
  match insert_error env with
  | None =>
      {| email_logs := email_logs st
           ++ [stored (length (email_logs st)) (db_clock env) row];
         trace := trace st ++ [InsertRow (Some (new_user_id row)) row] |}
  | Some _ =>
      {| email_logs := email_logs st;
         trace := (trace st ++ [InsertRow (Some (new_user_id row)) row])
                    ++ [ConsoleError "Error logging email:"] |}
  end.

(** Events that neither call the provider nor write to the table. *)
Definition quiet (ev : Event) : bool := negb (is_fetch ev) && negb (is_insert ev).

(** From [st] to [st'] the handler has not called the provider and has
    asked for exactly one insert, that of [row] for the user [uid]. *)
Definition one_insert_no_delivery (st st' : State) (uid : string)
    (row : NewEmailLog) : Prop :=
  ∃ evs : list Event,
    trace st' = (trace st ++ evs)%list
    ∧ existsb is_fetch evs = false
    ∧ List.filter is_insert evs = [InsertRow (Some uid) row].

(** "Dispatch returns a ValidationError and no audit record is written":
    the response has status 400 and the table is as it was. *)
Definition rejected_unrecorded (env : Env) (st : State) (req : HttpRequest)
  : Prop :=
  (∃ message, fst (serve req env st) =
              Return {| status_of := 400; body := error_body message |})
  ∧ email_logs (snd (serve req env st)) = email_logs st.

(** The count the hourly query of [checkRateLimit] comes back with. *)
Definition hourlyCount (rows : list EmailLog) (uid : string) (now : Z) : Z :=
  Z.of_nat (length
    (select_rows (Some uid)
       [eq_user_id uid; gte_created_at (now - 60 * 60 * 1000)] rows)).

(** "A record timestamped exactly at [now - 1h] is excluded from the
    hourly window": adding such a record leaves the hourly count as it
    was. *)
Definition excluded_at_boundary (rows : list EmailLog) (uid : string)
    (now : Z) (r : EmailLog) : Prop :=
  user_id r = uid → created_at r = now - hour →
  hourlyCount (rows ++ [r]) uid now = hourlyCount rows uid now.

(** ** Sample data *)

(** 2025-11-01T12:00:00Z *)
Definition noon : Z := 1761998400000.

(** The start of the calendar day of an instant, for a host whose local
    time is UTC. *)
Definition utc_midnight (now : Z) : Z := now - now mod (24 * 60 * 60 * 1000).

(** A deployment in which everything works: the shipped limits, a
    provider key, a store that answers, a provider that accepts, and one
    known bearer token, that of the user alice. *)
Definition sample_env : Env :=
  {| rateLimitConfig := shipped_limits;
     RESEND_API_KEY := Some "re_test_key";
     EMAIL_FROM := None;
     getUser := λ header,
       if String.eqb header "Bearer alice-token" then Some "alice" else None;
     clock := noon;
     startOfLocalDay := utc_midnight;
     db_clock := noon + 7;
     select_error := λ _, None;
     insert_error := None;
     provider := λ _, HttpResponse 200 "{}" None |}.

Definition alice_client : SupabaseClient :=
  {| authorization := "Bearer alice-token" |}.

Definition empty_state : State := {| email_logs := []; trace := [] |}.

(** A table of records of alice, given by status and timestamp; a
    record's [id] is its position. *)
Definition alice_rows (l : list (Status * Z)) : list EmailLog :=
  imap (λ i '(s, at_),
          {| id := i; user_id := "alice"; recipient := "bob@example.com";
             subject := "Hello"; template := None; status := s;
             error_message := None; created_at := at_ |}) l.

Definition state_of (rows : list EmailLog) : State :=
  {| email_logs := rows; trace := [] |}.

(** A request of alice. *)
Definition alice_request (emailData : EmailRequest) : HttpRequest :=
  {| method := "POST";
     authorization_header := Some "Bearer alice-token";
     json := emailData |}.

(** Scenario C: a template that is not registered. *)
Definition bogus_template : EmailRequest :=
  {| req_to := Some "bob@example.com"; req_subject := Some "Hello";
     req_template := Some "bogus"; req_data := None;
     req_html := None; req_text := None |}.

(** Scenario D: neither a template nor content. *)
Definition no_content : EmailRequest :=
  {| req_to := Some "bob@example.com"; req_subject := Some "Hello";
     req_template := None; req_data := None;
     req_html := None; req_text := None |}.

(** A recipient that is not an address. *)
Definition malformed_recipient : EmailRequest :=
  {| req_to := Some "not-an-email"; req_subject := Some "Hello";
     req_template := None; req_data := None;
     req_html := Some "<p>Hi</p>"; req_text := Some "Hi" |}.

(** A reminder with a task name and nothing else. *)
Definition name_only : TemplateData := {[ "taskName" := JStr "Buy milk" ]}.

(** A reminder whose task name is markup. *)
Definition markup_name : TemplateData :=
  {[ "taskName" := JStr "<script>alert(1)</script>" ]}.

(** * More of the client utilities (utils.ts) *)

(** Get rate limit message *)
Definition getRateLimitMessage (stats : EmailStats) (limits : RateLimitInfo)
  : option string :=
  let remaining := calculateRemainingEmails stats limits in
  if remainingThisHour remaining =? 0 then
    Some "Hourly email limit reached. Please try again later."
  else if remainingToday remaining =? 0 then
    Some "Daily email limit reached. Please try again tomorrow."
  else None.

Record GroupedLogs : Type :=
  { sent_logs : list EmailLog; failed_logs : list EmailLog }.

(** Group email logs by status: a [reduce] that pushes each log onto
    one of two arrays. *)
Definition groupLogsByStatus (logs : list EmailLog) : GroupedLogs :=
  fold_left
    (λ acc log,
       if Status_eqb (status log) sent then
         {| sent_logs := sent_logs acc ++ [log];
            failed_logs := failed_logs acc |}
       else
         {| sent_logs := sent_logs acc;
            failed_logs := failed_logs acc ++ [log] |})
    logs {| sent_logs := []; failed_logs := [] |}.

(** Get email logs from a specific date range.  [created_at] is the
    instant that [new Date(log.created_at)] denotes. *)
Definition filterLogsByDateRange (logs : list EmailLog)
    (startDate endDate : Z) : list EmailLog :=
  List.filter
    (λ log, let logDate := created_at log in
            (startDate <=? logDate) && (logDate <=? endDate))
    logs.

(** ** What a regular expression matches *)

Inductive matches : Regex → string → Prop :=
  | matches_eps : matches REps ""
  | matches_class (cls : ascii → bool) (c : ascii) :
      cls c = true → matches (RClass cls) (String c "")
  | matches_cat (r1 r2 : Regex) (s1 s2 : string) :
      matches r1 s1 → matches r2 s2 → matches (RCat r1 r2) (s1 +:+ s2)
  | matches_alt_l (r1 r2 : Regex) (s : string) :
      matches r1 s → matches (RAlt r1 r2) s
  | matches_alt_r (r1 r2 : Regex) (s : string) :
      matches r2 s → matches (RAlt r1 r2) s
  | matches_star_nil (r : Regex) : matches (RStar r) ""
  | matches_star_app (r : Regex) (s1 s2 : string) :
      matches r s1 → matches (RStar r) s2 → matches (RStar r) (s1 +:+ s2).

(** Every character of [s] is in the class. *)
Fixpoint all_chars (cls : ascii → bool) (s : string) : bool :=
  match s with
  | EmptyString => true
  | String c s' => cls c && all_chars cls s'
  end.


(** The string of the bytes of these values. *)
Definition bytes (l : list nat) : string :=
  fold_right (λ n s, String (ascii_of_nat n) s) EmptyString l.





(** ** Entity encoding, character by character *)

(** The entity [sanitizeEmailData] puts for a character. *)
Definition entity_of (c : ascii) : string :=
  if Ascii.eqb c "&"%char then "&amp;"
  else if Ascii.eqb c "<"%char then "&lt;"
  else if Ascii.eqb c ">"%char then "&gt;"
  else if Ascii.eqb c "034"%char then "&quot;"
  else if Ascii.eqb c "'"%char then "&#x27;"
  else String c "".

Fixpoint encode_each (s : string) : string :=
  match s with
  | EmptyString => EmptyString
  | String c s' => entity_of c +:+ encode_each s'
  end.

(** * More of the client facade (client.ts) *)

Record EmailResponse : Type :=
  { success : bool; response_message : string }.

(** What [supabase.functions.invoke] comes back with: a rejected
    promise, or [{ data, error }], [error] having a [message] or none. *)
Inductive InvokeResult : Type :=
  | invoke_rejects (e : Thrown)
  | invoke_resolves (data : option EmailResponse)
      (error : option (option string)).

(** The message [send] puts in place of one that mentions the rate
    limit. *)
Definition rate_limit_message (limits : RateLimitInfo) : string :=
  "Rate limit exceeded. You can send up to "
  +:+ pretty (maxEmailsPerHour limits) +:+ " emails per hour and "
  +:+ pretty (maxEmailsPerDay limits) +:+ " emails per day.".

(** Send an email notification.  [invoke] stands for
    [supabase.functions.invoke(FUNCTION_NAME, { body })]. *)
Definition send (invoke : EmailRequest → InvokeResult)
    (emailRequest : EmailRequest) : Outcome EmailResponse :=
  let attempt : Outcome EmailResponse :=
    match invoke emailRequest with
    | invoke_rejects e => Throw e
    | invoke_resolves _ (Some error_message) =>
        Throw (ErrorObj (if present error_message
                         then default "" error_message
                         else "Failed to send email"))
    | invoke_resolves None None =>
        Throw (ErrorObj "No response from email service")
    | invoke_resolves (Some data) None => Return data
    end in
  match attempt with
  | Throw (ErrorObj message) =>
      (* Check for rate limit error *)
      if occurs "rate limit" message then
        Throw (ErrorObj (rate_limit_message RATE_LIMITS))
      else Throw (ErrorObj message)
  | Throw NonError =>
      Throw (ErrorObj "Unknown error occurred while sending email")
  | outcome => outcome
  end.

(** * More observations *)

(** The records that can count for [uid] at [now]: its own, of the last
    24 hours. *)
Definition in_window (uid : string) (now : Z) (r : EmailLog) : Prop :=
  user_id r = uid ∧ now - day ≤ created_at r.

(** The html and text [sendEmail] settles on, when it gets that far. *)
Definition content_of (emailData : EmailRequest)
  : option string * option string :=
  if present (req_template emailData) then
    match rendered_for emailData with
    | Return rendered => (Some (html rendered), Some (text rendered))
    | _ => (None, None)
    end
  else (req_html emailData, req_text emailData).

(** The body [sendEmail] posts for a request. *)
Definition payload_of (env : Env) (emailData : EmailRequest) : EmailPayload :=
  {| bearer := default "" (RESEND_API_KEY env);
     from := if present (EMAIL_FROM env) then default "" (EMAIL_FROM env)
             else "noreply@tidy-prioritize.app";
     to := req_to emailData;
     payload_subject := req_subject emailData;
     payload_html := fst (content_of emailData);
     payload_text := snd (content_of emailData) |}.

(** The request has something to send: a registered template, or no
    template and some html or text. *)
Definition has_content (emailData : EmailRequest) : Prop :=
  (present (req_template emailData) = true
   ∧ is_registered (default "" (req_template emailData)) = true)
  ∨ (present (req_template emailData) = false
     ∧ (present (req_html emailData) = true
        ∨ present (req_text emailData) = true)).

(** The state with one more [console.error] in its trace. *)
Definition with_console_error (label : string) (st : State) : State :=
  {| email_logs := email_logs st;
     trace := trace st ++ [ConsoleError label] |}.

(** The message of the error [sendEmail] throws on what the provider
    comes back with, if it throws. *)
Definition failure_message (result : FetchResult) : option string :=
  match result with
  | NetworkFailure message => Some message
  | HttpResponse status_code errorData json_error =>
      if negb (ok status_code) then
        Some ("Email service error: " +:+ pretty status_code
              +:+ " - " +:+ errorData)
      else json_error
  end.

(** The events of a list that call the provider. *)
Definition fetches (evs : list Event) : list Event := List.filter is_fetch evs.

(** The events of a list that ask for an insert. *)
Definition inserts (evs : list Event) : list Event := List.filter is_insert evs.

(** The same environment with another answer of the provider. *)
Definition with_provider (env : Env) (p : EmailPayload → FetchResult) : Env :=
  {| rateLimitConfig := rateLimitConfig env;
     RESEND_API_KEY := RESEND_API_KEY env;
     EMAIL_FROM := EMAIL_FROM env;
     getUser := getUser env;
     clock := clock env;
     startOfLocalDay := startOfLocalDay env;
     db_clock := db_clock env;
     select_error := select_error env;
     insert_error := insert_error env;
     provider := p |}.

(** From [st] to [st'] the table has grown by [rows], at its end, and
    the trace by [evs]. *)
Definition extends (st st' : State) (rows : list EmailLog)
    (evs : list Event) : Prop :=
  email_logs st' = (email_logs st ++ rows)%list
  ∧ trace st' = (trace st ++ evs)%list.

(** A record of the user the request's Authorization header resolves
    to, with the recipient and subject of the request, timestamped by
    the store. *)
Definition own_record (env : Env) (req : HttpRequest) (row : EmailLog)
  : Prop :=
  getUser env (default "" (authorization_header req)) = Some (user_id row)
  ∧ Some (recipient row) = req_to (json req)
  ∧ Some (subject row) = req_subject (json req)
  ∧ created_at row = db_clock env.

(** A deployment without a provider key. *)
Definition sample_env_without_key : Env :=
  {| rateLimitConfig := shipped_limits;
     RESEND_API_KEY := None;
     EMAIL_FROM := None;
     getUser := getUser sample_env;
     clock := noon;
     startOfLocalDay := utc_midnight;
     db_clock := noon + 7;
     select_error := λ _, None;
     insert_error := None;
     provider := λ _, HttpResponse 200 "{}" None |}.

(** A deployment whose store answers no [select]. *)
Definition sample_env_store_down : Env :=
  {| rateLimitConfig := shipped_limits;
     RESEND_API_KEY := Some "re_test_key";
     EMAIL_FROM := None;
     getUser := getUser sample_env;
     clock := noon;
     startOfLocalDay := utc_midnight;
     db_clock := noon + 7;
     select_error := λ _, Some {| query_message := "connection refused" |};
     insert_error := None;
     provider := λ _, HttpResponse 200 "{}" None |}.

(** 2025-11-02T04:00:00Z, midnight in New York on the day on which the
    clocks go back there: that day has 25 hours. *)
Definition long_day_start : Z := 1762056000000.

(** The deployment of [sample_env] seen from a host in New York at 23:30
    of that day, 2025-11-03T04:30:00Z. *)
Definition sample_env_long_day : Env :=
  {| rateLimitConfig := shipped_limits;
     RESEND_API_KEY := Some "re_test_key";
     EMAIL_FROM := None;
     getUser := getUser sample_env;
     clock := long_day_start + 24 * 60 * 60 * 1000 + 30 * 60 * 1000;
     startOfLocalDay := λ _, long_day_start;
     db_clock := long_day_start + 24 * 60 * 60 * 1000 + 30 * 60 * 1000 + 7;
     select_error := λ _, None;
     insert_error := None;
     provider := λ _, HttpResponse 200 "{}" None |}.

#[global] Instance in_window_dec (uid : string) (now : Z) (r : EmailLog) :
  Decision (in_window uid now r).
Proof. unfold in_window. apply _. Defined.

(** The timestamps of the records of [uid] of the last 24 hours. *)
Definition window_of (rows : list EmailLog) (uid : string) (now : Z)
  : list Z :=
  created_at <$> filter (in_window uid now) rows.

(** A record of another user, and an old one. *)
Definition stranger_row : EmailLog :=
  {| id := 99; user_id := "mallory"; recipient := "bob@example.com";
     subject := "Hi"; template := None; status := sent;
     error_message := None; created_at := noon |}.

(** The requests that come from the typed senders of
    [EmailNotificationClient]. *)
Inductive from_sender : EmailRequest → Prop :=
  | from_sendTaskReminder (to taskName : string)
      (dueDate description url : option string) :
      from_sender (sendTaskReminder to taskName dueDate description url)
  | from_sendTaskAssigned (to taskName assignedBy : string)
      (description dueDate url : option string) :
      from_sender
        (sendTaskAssigned to taskName assignedBy description dueDate url)
  | from_sendTaskCompleted (to taskName completedBy : string)
      (completedAt : option string) :
      from_sender (sendTaskCompleted to taskName completedBy completedAt)
  | from_sendWelcome (to : string) (userName loginUrl : option string) :
      from_sender (sendWelcome to userName loginUrl)
  | from_sendPasswordReset (to resetUrl : string) (expiresIn : option string) :
      from_sender (sendPasswordReset to resetUrl expiresIn).

(** * A caller of the client facade: [sendCustomEmail] (examples) *)

(** [s.replace(/<[^>]*>/g, '')].  The expression matches at a [<] that
    has a [>] somewhere after it, up to the first such [>]; [inside]
    says that the scan is within a match.  A [<] with no [>] after it
    starts no match, and stays. *)
Fixpoint strip (inside : bool) (s : string) : string :=
  match s with
  | EmptyString => EmptyString
  | String c s' =>
      if inside then
        if Ascii.eqb c ">"%char then strip false s' else strip true s'
      else if Ascii.eqb c "<"%char && has_char ">"%char s' then strip true s'
      else String c (strip false s')
  end.

Definition stripTags (s : string) : string := strip false s.

(** The request [sendCustomEmail] hands to [send]: the html as it is,
    and the html without its tags as text. *)
Definition sendCustomEmail (to subject htmlContent : string) : EmailRequest :=
  {| req_to := Some to;
     req_subject := Some subject;
     req_template := None;
     req_data := None;
     req_html := Some htmlContent;
     req_text := Some (stripTags htmlContent) |}.

(** [/<[^>]*>/] *)
Definition tagRegex : Regex :=
  RCat (RClass (Ascii.eqb "<"%char))
    (RCat (RStar (RClass (λ c, negb (Ascii.eqb c ">"%char))))
       (RClass (Ascii.eqb ">"%char))).

(** No part of [s] is a tag. *)
Definition tag_free (s : string) : Prop :=
  ∀ pre m post, s = pre +:+ m +:+ post → ¬ matches tagRegex m.

(** No [<] of [s] has a [>] after it. *)
Fixpoint no_open_tag (s : string) : bool :=
  match s with
  | EmptyString => true
  | String c s' =>
      negb (Ascii.eqb c "<"%char && has_char ">"%char s') && no_open_tag s'
  end.

(** * A caller of the client facade: [sendWithRateLimitCheck] (examples) *)

(** What the example shows and does: a toast, a call of
    [EmailNotificationClient.sendTaskReminder], a [console.error]. *)
Inductive UiEvent : Type :=
  | ShowToast (title description : string) (destructive : bool)
  | CallSend (emailRequest : EmailRequest)
  | LogError (label : string).

(** Checking rate limits before sending.  [statsOutcome] is what
    [EmailNotificationClient.getStats()] comes back with, [invoke] the
    call of the edge function behind [send]. *)
Definition sendWithRateLimitCheck (statsOutcome : Outcome EmailStats)
    (invoke : EmailRequest → InvokeResult) (recipientEmail : string)
  : list UiEvent :=
  match statsOutcome with
  | Return stats =>
      let limits := RATE_LIMITS in
      (* Check if we can send *)
      if maxEmailsPerHour limits <=? sentThisHour stats then
        [ShowToast "Rate limit reached"
           "You have reached your hourly email limit. Please try again later."
           true]
      else if maxEmailsPerDay limits <=? sentToday stats then
        [ShowToast "Rate limit reached"
           "You have reached your daily email limit. Please try again tomorrow."
           true]
      else
        (* Send the email *)
        let emailRequest :=
          sendTaskReminder recipientEmail "Example task" None None None in
        match send invoke emailRequest with
        | Return _ =>
            (* Show remaining quota *)
            [CallSend emailRequest;
             ShowToast "Email sent"
               ("Remaining today: "
                +:+ pretty (maxEmailsPerDay limits - sentToday stats - 1))
               false]
        | _ => [CallSend emailRequest; LogError "Error:"]
        end
  | _ => [LogError "Error:"]
  end.

(** The calls of [send] among the events. *)
Definition calls_of (evs : list UiEvent) : list EmailRequest :=
  omap (λ ev, match ev with CallSend r => Some r | _ => None end) evs.

(** * A caller of the client facade: the hook [useEmailNotifications] *)

(** The options of the hook.  A callback runs and returns, or throws. *)
Record UseEmailNotificationsOptions : Type :=
  { onSuccess : option (EmailResponse → Outcome unit);
    onError : option (Thrown → Outcome unit);
    showToast : bool }.

(** What [handleSend] does to the state of the hook and to the screen:
    [setSending], [setError] (with the message of the error, or [null]),
    [toast], and the calls of the two callbacks. *)
Inductive HookEvent : Type :=
  | SetSending (sending : bool)
  | SetError (error : option string)
  | Toast (title description : string) (destructive : bool)
  | CallOnSuccess (response : EmailResponse)
  | CallOnError (message : string).

(** [handleSend(fn, ...args)], [attempt] being the outcome of
    [await fn(...args)].  The result is the list of events in order, and
    what the promise settles with: [Return None] is [null]. *)
Definition handleSend (options : UseEmailNotificationsOptions)
    (attempt : Outcome EmailResponse)
  : list HookEvent * Outcome (option EmailResponse) :=
  let finally (evs : list HookEvent) (out : Outcome (option EmailResponse)) :=
    (([SetSending true; SetError None] ++ evs) ++ [SetSending false], out)%list in
  let catch (evs : list HookEvent) (err : Thrown) :=
    let errorObj := ErrorObj (message_of err) in
    let evs := ((evs ++ [SetError (Some (message_of errorObj))])
                ++ (if showToast options
                    then [Toast "Failed to send email" (message_of errorObj) true]
                    else []))%list in
    match onError options with
    | Some callback =>
        match callback errorObj with
        | Return _ =>
            finally (evs ++ [CallOnError (message_of errorObj)])%list (Return None)
        | Throw e =>
            finally (evs ++ [CallOnError (message_of errorObj)])%list (Throw e)
        | Unmodelled => (evs, Unmodelled)
        end
    | None => finally evs (Return None)
    end in
  match attempt with
  | Return response =>
      let evs :=
        if showToast options then
          [Toast "Email sent"
             (if negb (String.eqb (response_message response) "")
              then response_message response
              else "Email notification sent successfully") false]
        else [] in
      match onSuccess options with
      | Some callback =>
          match callback response with
          | Return _ =>
              finally (evs ++ [CallOnSuccess response])%list
                (Return (Some response))
          | Throw e => catch (evs ++ [CallOnSuccess response])%list e
          | Unmodelled => (evs, Unmodelled)
          end
      | None => finally evs (Return (Some response))
      end
  | Throw err => catch [] err
  | Unmodelled => ([], Unmodelled)
  end.

(** [send] as a function of its receiver.  [EmailNotificationClient.send(r)]
    runs it with the class as [this]; a detached call [fn(r)], as in
    [handleSend(EmailNotificationClient.send, request)], runs it with
    [this] undefined (class code is strict), so that reading
    [this.FUNCTION_NAME] within [try], and [this.RATE_LIMITS] within
    [catch], throws a TypeError.  [typeError p] is the message the engine
    gives to the TypeError for reading the property [p] of [undefined]. *)
Definition send_on (bound : bool) (typeError : string → string)
    (invoke : EmailRequest → InvokeResult) (emailRequest : EmailRequest)
  : Outcome EmailResponse :=
  let attempt : Outcome EmailResponse :=
    if bound then
      match invoke emailRequest with
      | invoke_rejects e => Throw e
      | invoke_resolves _ (Some error_message) =>
          Throw (ErrorObj (if present error_message
                           then default "" error_message
                           else "Failed to send email"))
      | invoke_resolves None None =>
          Throw (ErrorObj "No response from email service")
      | invoke_resolves (Some data) None => Return data
      end
    else Throw (ErrorObj (typeError "FUNCTION_NAME")) in
  match attempt with
  | Throw (ErrorObj message) =>
      (* Check for rate limit error *)
      if occurs "rate limit" message then
        if bound then Throw (ErrorObj (rate_limit_message RATE_LIMITS))
        else Throw (ErrorObj (typeError "RATE_LIMITS"))
      else Throw (ErrorObj message)
  | Throw NonError =>
      Throw (ErrorObj "Unknown error occurred while sending email")
  | outcome => outcome
  end.

(** A typed sender called detached: [this.send] throws before anything
    else is done. *)
Definition sender_detached (typeError : string → string)
  : Outcome EmailResponse :=
  Throw (ErrorObj (typeError "send")).

(** The four senders the hook returns: [sendEmail], that is
    [handleSend(EmailNotificationClient.send, request)], and
    [sendTaskReminder], [sendTaskAssigned], [sendTaskCompleted], that
    are [handleSend(EmailNotificationClient.sendTask..., params)]. *)
Definition hook_sendEmail (typeError : string → string)
    (options : UseEmailNotificationsOptions)
    (invoke : EmailRequest → InvokeResult) (request : EmailRequest)
  : list HookEvent * Outcome (option EmailResponse) :=
  handleSend options (send_on false typeError invoke request).

Definition hook_sendTask (typeError : string → string)
    (options : UseEmailNotificationsOptions)
  : list HookEvent * Outcome (option EmailResponse) :=
  handleSend options (sender_detached typeError).

(** The toasts among the events. *)
Definition toasts_of (evs : list HookEvent) : list HookEvent :=
  List.filter (λ ev, match ev with Toast _ _ _ => true | _ => false end) evs.

(** ** More sample data *)

(** What [functions.invoke] of supabase-js resolves with when the edge
    function answers outside 2xx, with 429 as with 500: no data, and an
    error with this message, whatever the body of the answer.  And an
    edge function that accepts every call. *)
Definition invoke_non_2xx : EmailRequest → InvokeResult :=
  λ _, invoke_resolves None
         (Some (Some "Edge Function returned a non-2xx status code")).

Definition invoke_accepting : EmailRequest → InvokeResult :=
  λ _, invoke_resolves
         (Some {| success := true;
                  response_message := "Email sent successfully" |}) None.

(** The message V8 gives to the TypeError for reading a property of
    [undefined]. *)
Definition v8_typeError (property : string) : string :=
  "Cannot read properties of undefined (reading '" +:+ property +:+ "')".

(** Options of the hook: toasts, and an [onSuccess] that throws. *)
Definition throwing_onSuccess : UseEmailNotificationsOptions :=
  {| onSuccess := Some (λ _, Throw (ErrorObj "boom"));
     onError := None;
     showToast := true |}.

Definition default_options : UseEmailNotificationsOptions :=
  {| onSuccess := None; onError := None; showToast := true |}.

(** * Proofs *)

(** ** Rate limiter *)

Lemma select_rows_own (uid : string) (since : Z) (rows : list EmailLog) :
  Z.of_nat (length
    (select_rows (Some uid) [eq_user_id uid; gte_created_at since] rows))
  = countSince rows uid since.
Proof.
  unfold countSince, select_rows, rls_visible.
  rewrite list_filter_filter. f_equal. f_equal.
  apply list_filter_iff. intros r. cbn [forallb satisfies].
  rewrite andb_true_r, andb_true_iff, String.eqb_eq, Z.leb_le.
  split; [intros [[Hu Hs] _] | intros [Hu Hs]]; subst; auto.
Qed.

Lemma checkRateLimit_run (env : Env) (st : State) (supabase : SupabaseClient) (uid : string) :
  getUser env (authorization supabase) = Some uid →
  selects_succeed env →
  let cfg := rateLimitConfig env in
  let hourlyCount := countSince (email_logs st) uid (clock env - hour) in
  let dailyCount := countSince (email_logs st) uid (clock env - day) in
  let q since := CountQuery (Some uid) [eq_user_id uid; gte_created_at since] in
  checkRateLimit supabase uid env st =
    if maxEmailsPerHour cfg <=? hourlyCount then
      (Return (not_allowed (hourly_reason cfg)),
       {| email_logs := email_logs st;
          trace := trace st ++ [q (clock env - hour)] |})
    else
      (Return (if maxEmailsPerDay cfg <=? dailyCount
               then not_allowed (daily_reason cfg) else allowed),
       {| email_logs := email_logs st;
          trace := (trace st ++ [q (clock env - hour)]) ++ [q (clock env - day)] |}).
Proof.
  intros Huid Hsel cfg hourlyCount dailyCount q.
  unfold checkRateLimit, select_count.
  cbv [mbind M_bind mret M_ret ask emit gets throw].
  rewrite Huid, !Hsel. cbn [error count default email_logs trace].
  unfold Datatypes.id.
  change (60 * 60 * 1000) with hour. change (24 * 60 * 60 * 1000) with day.
  rewrite select_rows_own. fold cfg hourlyCount.
  destruct (maxEmailsPerHour cfg <=? hourlyCount); [reflexivity|].
  rewrite Huid, Hsel. cbn [error count email_logs trace from_option].
  rewrite select_rows_own. fold dailyCount.
  destruct (maxEmailsPerDay cfg <=? dailyCount); reflexivity.
Qed.

Lemma reasons_differ (cfg : RateLimitInfo) : hourly_reason cfg ≠ daily_reason cfg.
Proof. unfold hourly_reason, daily_reason. cbn. discriminate. Qed.

Lemma countWithin_le_countSince (rows : list EmailLog) (uid : string) (lo hi : Z) :
  countWithin rows uid lo hi ≤ countSince rows uid lo.
Proof.
  unfold countWithin, countSince. apply inj_le.
  induction rows as [|r rows IH]; [reflexivity|].
  rewrite !filter_cons.
  destruct (decide (user_id r = uid ∧ lo ≤ created_at r ≤ hi)) as [[? [? ?]]|];
    destruct (decide (user_id r = uid ∧ lo ≤ created_at r)) as [|Hn]; cbn; try lia.
  exfalso. apply Hn. auto.
Qed.

(** C5.  With a store that answers, [checkRateLimit] decides by two
    counts of the identity's records, whatever their status: at least
    [maxEmailsPerHour] records from [now - 1h] on (in particular, that
    many within the hour that ends at [now]) give the hourly rejection,
    whatever the daily count; below that, at least [maxEmailsPerDay]
    records from [now - 24h] on give the daily rejection; otherwise the
    send is allowed.  The two reasons differ. *)
Theorem checkRateLimit_decision (env : Env) (st : State)
    (supabase : SupabaseClient) (uid : string) :
  getUser env (authorization supabase) = Some uid →
  selects_succeed env →
  let cfg := rateLimitConfig env in
  let now := clock env in
  let rows := email_logs st in
  let result := fst (checkRateLimit supabase uid env st) in
  (maxEmailsPerHour cfg ≤ countWithin rows uid (now - hour) now →
     result = Return (not_allowed (hourly_reason cfg)))
  ∧ (maxEmailsPerHour cfg ≤ countSince rows uid (now - hour) →
     result = Return (not_allowed (hourly_reason cfg)))
  ∧ (countSince rows uid (now - hour) < maxEmailsPerHour cfg →
     maxEmailsPerDay cfg ≤ countSince rows uid (now - day) →
     result = Return (not_allowed (daily_reason cfg)))
  ∧ (countSince rows uid (now - hour) < maxEmailsPerHour cfg →
     countSince rows uid (now - day) < maxEmailsPerDay cfg →
     result = Return allowed)
  ∧ hourly_reason cfg ≠ daily_reason cfg.
Proof.
  intros Huid Hsel cfg now rows result.
  assert (Hhour : maxEmailsPerHour cfg ≤ countSince rows uid (now - hour) →
                  result = Return (not_allowed (hourly_reason cfg))).
  { intros Hle. unfold result. rewrite (checkRateLimit_run _ _ _ _ Huid Hsel).
    fold cfg now rows.
    destruct (Z.leb_spec (maxEmailsPerHour cfg) (countSince rows uid (now - hour)));
      [reflexivity | lia]. }
  split; [|split; [exact Hhour|split; [|split]]].
  - intros Hle. apply Hhour.
    pose proof (countWithin_le_countSince rows uid (now - hour) now). lia.
  - intros Hlt Hle. unfold result. rewrite (checkRateLimit_run _ _ _ _ Huid Hsel).
    fold cfg now rows.
    destruct (Z.leb_spec (maxEmailsPerHour cfg) (countSince rows uid (now - hour)));
      [lia|].
    destruct (Z.leb_spec (maxEmailsPerDay cfg) (countSince rows uid (now - day)));
      [reflexivity | lia].
  - intros Hlt Hlt'. unfold result. rewrite (checkRateLimit_run _ _ _ _ Huid Hsel).
    fold cfg now rows.
    destruct (Z.leb_spec (maxEmailsPerHour cfg) (countSince rows uid (now - hour)));
      [lia|].
    destruct (Z.leb_spec (maxEmailsPerDay cfg) (countSince rows uid (now - day)));
      [lia | reflexivity].
  - apply reasons_differ.
Qed.

Lemma checkRateLimit_decision_witness :
  getUser sample_env (authorization alice_client) = Some "alice"
  ∧ selects_succeed sample_env
  ∧ 10 ≤ countWithin (alice_rows (replicate 10 (sent, noon - 1000))) "alice" (noon - hour) noon
  ∧ fst (checkRateLimit alice_client "alice" sample_env
           (state_of (alice_rows (replicate 10 (sent, noon - 1000)))))
    = Return (not_allowed "Hourly rate limit exceeded. Maximum 10 emails per hour.").
Proof.
  split; [reflexivity|]. split; [intros ?; reflexivity|].
  split; [vm_compute; discriminate|].
  apply (checkRateLimit_decision sample_env
           (state_of (alice_rows (replicate 10 (sent, noon - 1000))))
           alice_client "alice").
  - reflexivity.
  - intros ?; reflexivity.
  - vm_compute; discriminate.
Defined.

Lemma hourlyCount_countSince (rows : list EmailLog) (uid : string) (now : Z) :
  hourlyCount rows uid now = countSince rows uid (now - hour).
Proof. unfold hourlyCount. apply select_rows_own. Qed.

Lemma countSince_snoc (rows : list EmailLog) (uid : string) (since : Z)
    (r : EmailLog) :
  countSince (rows ++ [r]) uid since =
  countSince rows uid since
  + (if decide (user_id r = uid ∧ since ≤ created_at r) then 1 else 0).
Proof.
  unfold countSince. rewrite filter_app, length_app, Nat2Z.inj_add.
  f_equal. rewrite filter_cons, filter_nil.
  destruct (decide (user_id r = uid ∧ since ≤ created_at r)); reflexivity.
Qed.

(** C6, as the code has it.  The hourly window is closed at its lower
    end: a record of the identity counts in the hourly query exactly when
    its timestamp is at or after [now - 1h], so a record timestamped
    exactly [now - 1h] is counted. *)
Theorem hourly_window_closed (rows : list EmailLog) (uid : string) (now : Z)
    (r : EmailLog) :
  user_id r = uid →
  (created_at r = now - hour →
     hourlyCount (rows ++ [r]) uid now = hourlyCount rows uid now + 1)
  ∧ (now - hour ≤ created_at r →
     hourlyCount (rows ++ [r]) uid now = hourlyCount rows uid now + 1)
  ∧ (created_at r < now - hour →
     hourlyCount (rows ++ [r]) uid now = hourlyCount rows uid now).
Proof.
  intros Hu. rewrite !hourlyCount_countSince, countSince_snoc.
  destruct (decide (user_id r = uid ∧ now - hour ≤ created_at r)) as [[_ ?]|Hn].
  - repeat split; intros; lia.
  - assert (created_at r < now - hour) by (destruct (Z.lt_ge_cases (created_at r) (now - hour)); [assumption | exfalso; apply Hn; split; [assumption | lia]]).
    repeat split; intros; lia.
Qed.

Lemma hourly_window_closed_witness :
  hourlyCount ([] ++ alice_rows [(sent, noon - hour)]) "alice" noon
  = hourlyCount [] "alice" noon + 1.
Proof.
  apply (hourly_window_closed [] "alice" noon
           {| id := 0; user_id := "alice"; recipient := "bob@example.com";
              subject := "Hello"; template := None; status := sent;
              error_message := None; created_at := noon - hour |}).
  - reflexivity.
  - reflexivity.
Defined.

(** C6, as the claim has it, fails: with the shipped limits, ten records
    timestamped exactly [now - 1h] are all counted, and the eleventh
    request is rejected for the hour. *)
Lemma boundary_record_counted :
  ¬ excluded_at_boundary [] "alice" noon
      {| id := 0; user_id := "alice"; recipient := "bob@example.com";
         subject := "Hello"; template := None; status := sent;
         error_message := None; created_at := noon - hour |}
  ∧ fst (checkRateLimit alice_client "alice" sample_env
           (state_of (alice_rows (replicate 10 (sent, noon - hour)))))
    = Return (not_allowed "Hourly rate limit exceeded. Maximum 10 emails per hour.").
Proof.
  split.
  - intros H. specialize (H eq_refl eq_refl). vm_compute in H. discriminate.
  - vm_compute. reflexivity.
Qed.

(** ** Audit log *)

Lemma logEmail_run (env : Env) (st : State) (supabase : SupabaseClient)
    (uid : string) (emailData : EmailRequest) (status : Status)
    (error : option string) :
  getUser env (authorization supabase) = Some uid →
  present (req_to emailData) = true →
  present (req_subject emailData) = true →
  logEmail supabase uid emailData status error env st =
  (Return tt, after_log env st (log_entry uid emailData status error)).
Proof.
  intros Huid Hto Hsubj.
  destruct emailData as [to subj tmpl data h t]; cbn in Hto, Hsubj.
  destruct to as [to|]; [|discriminate]. destruct subj as [subj|]; [|discriminate].
  unfold logEmail, insert_row, after_log, log_entry.
  cbv [mbind M_bind mret M_ret ask emit gets throw append_row].
  rewrite Huid. cbn.
  destruct (insert_error env); [reflexivity|].
  rewrite decide_True by reflexivity. reflexivity.
Qed.

Lemma logEmail_returns (env : Env) (st : State) (supabase : SupabaseClient)
    (uid : string) (emailData : EmailRequest) (status : Status)
    (error : option string) :
  fst (logEmail supabase uid emailData status error env st) = Return tt.
Proof.
  unfold logEmail, insert_row.
  cbv [mbind M_bind mret M_ret ask emit gets throw append_row].
  cbn.
  destruct (insert_error env); [reflexivity|].
  destruct (req_to emailData); [|reflexivity].
  destruct (req_subject emailData); [|reflexivity].
  destruct (decide _); reflexivity.
Qed.

Lemma checkRateLimit_effects (env : Env) (st st1 : State)
    (supabase : SupabaseClient) (uid : string) (out : Outcome RateLimitCheck) :
  checkRateLimit supabase uid env st = (out, st1) →
  email_logs st1 = email_logs st
  ∧ (∃ evs : list Event, trace st1 = (trace st ++ evs)%list ∧ forallb quiet evs = true)
  ∧ (∀ reason, out = Return (not_allowed reason) →
       reason = hourly_reason (rateLimitConfig env)
       ∨ reason = daily_reason (rateLimitConfig env)).
Proof.
  unfold checkRateLimit, select_count.
  cbv [mbind M_bind mret M_ret ask emit gets throw]. cbn [error count email_logs trace].
  destruct (select_error env _) as [e|].
  - cbn. intros [= <- <-]. cbn. split; [reflexivity|]. split.
    + eexists. rewrite <- app_assoc. split; [reflexivity|reflexivity].
    + intros ? [=].
  - cbn. destruct (_ <=? _).
    + intros [= <- <-]. cbn. split; [reflexivity|]. split.
      * eexists. split; reflexivity.
      * intros ? [= <-]. left. reflexivity.
    + destruct (select_error env _) as [e|].
      * cbn. intros [= <- <-]. cbn. split; [reflexivity|]. split.
        -- eexists. rewrite <- !app_assoc. split; reflexivity.
        -- intros ? [=].
      * cbn. destruct (_ <=? _); intros [= <- <-]; cbn; (split; [reflexivity|]); split.
        -- eexists. rewrite <- !app_assoc. split; reflexivity.
        -- intros ? [= <-]. right. reflexivity.
        -- eexists. rewrite <- !app_assoc. split; reflexivity.
        -- intros ? [=].
Qed.

(** ** The paths of the handler *)

Ltac run_handler :=
  cbv [mbind M_bind mret M_ret ask emit gets throw try_catch lift].

Lemma serve_missing_fields (env : Env) (st : State) (req : HttpRequest)
    (uid : string) :
  authenticated env req uid →
  present (req_to (json req)) = false
  ∨ present (req_subject (json req)) = false →
  serve req env st =
  (Return {| status_of := 400;
             body := error_body "Missing required fields: to, subject" |}, st).
Proof.
  intros (Hm & Hh & Hu) Hmiss. unfold serve. rewrite Hm. run_handler.
  rewrite Hh. cbn [negb authorization]. rewrite Hu.
  destruct Hmiss as [-> | ->]; cbn [negb orb]; [reflexivity|].
  destruct (present (req_to (json req))); reflexivity.
Qed.

Lemma serve_rejected (env : Env) (st st1 : State) (req : HttpRequest)
    (uid reason : string) :
  authenticated env req uid →
  present (req_to (json req)) = true →
  present (req_subject (json req)) = true →
  checkRateLimit (client_of req) uid env st = (Return (not_allowed reason), st1) →
  serve req env st =
  (Return {| status_of := 429; body := error_body reason |},
   after_log env st1 (log_entry uid (json req) failed (Some reason))).
Proof.
  intros (Hm & Hh & Hu) Hto Hsubj Hrl. unfold serve. rewrite Hm. run_handler.
  rewrite Hh. cbn [negb]. cbn [authorization]. rewrite Hu, Hto, Hsubj. cbn [negb orb].
  fold (client_of req). rewrite Hrl.
  rewrite logEmail_run by assumption. reflexivity.
Qed.

Lemma serve_sent (env : Env) (st st1 st2 : State) (req : HttpRequest)
    (uid : string) :
  authenticated env req uid →
  present (req_to (json req)) = true →
  present (req_subject (json req)) = true →
  checkRateLimit (client_of req) uid env st = (Return allowed, st1) →
  sendEmail (json req) env st1 = (Return tt, st2) →
  serve req env st =
  (Return {| status_of := 200; body := success_body "Email sent successfully" |},
   after_log env st2 (log_entry uid (json req) sent None)).
Proof.
  intros (Hm & Hh & Hu) Hto Hsubj Hrl Hsend. unfold serve. rewrite Hm. run_handler.
  rewrite Hh. cbn [negb]. cbn [authorization]. rewrite Hu, Hto, Hsubj. cbn [negb orb].
  fold (client_of req). rewrite Hrl, Hsend.
  rewrite logEmail_run by assumption. reflexivity.
Qed.

Lemma serve_send_failed (env : Env) (st st1 st2 : State) (req : HttpRequest)
    (uid : string) (e : Thrown) :
  authenticated env req uid →
  present (req_to (json req)) = true →
  present (req_subject (json req)) = true →
  checkRateLimit (client_of req) uid env st = (Return allowed, st1) →
  sendEmail (json req) env st1 = (Throw e, st2) →
  let st3 :=
    after_log env st2 (log_entry uid (json req) failed (Some (message_of e))) in
  serve req env st =
  (Return {| status_of := 500; body := error_body (message_of e) |},
   {| email_logs := email_logs st3;
      trace := trace st3 ++ [ConsoleError "Error in send-email-notification:"] |}).
Proof.
  intros (Hm & Hh & Hu) Hto Hsubj Hrl Hsend. unfold serve. rewrite Hm. run_handler.
  rewrite Hh. cbn [negb]. cbn [authorization]. rewrite Hu, Hto, Hsubj. cbn [negb orb].
  fold (client_of req). rewrite Hrl, Hsend.
  rewrite logEmail_run by assumption. reflexivity.
Qed.

(** ** Delivery *)

Lemma templates_unregistered (t : string) :
  is_registered t = false → templates !! t = None.
Proof.
  unfold is_registered, registered, templates. cbn [existsb].
  rewrite !orb_false_iff, !String.eqb_neq.
  intros (H1 & H2 & H3 & H4 & H5 & _).
  repeat (rewrite lookup_insert_ne; [|congruence]).
  apply lookup_singleton_ne. congruence.
Qed.

Lemma sendEmail_unknown_template (env : Env) (st : State)
    (emailData : EmailRequest) (t : string) :
  present (RESEND_API_KEY env) = true →
  req_template emailData = Some t → t ≠ "" →
  is_registered t = false → is_prototype_key t = false →
  sendEmail emailData env st =
  (Throw (ErrorObj ("Template '" +:+ t +:+ "' not found")), st).
Proof.
  intros Hkey Ht Hne Hreg Hproto. unfold sendEmail. run_handler.
  rewrite Hkey, Ht. cbn [negb present default from_option Datatypes.id].
  destruct (String.eqb_spec t ""); [contradiction|]. cbn [negb].
  unfold renderTemplate. rewrite templates_unregistered, Hproto by assumption.
  reflexivity.
Qed.

Lemma sendEmail_no_content (env : Env) (st : State) (emailData : EmailRequest) :
  present (RESEND_API_KEY env) = true →
  present (req_template emailData) = false →
  present (req_html emailData) = false →
  present (req_text emailData) = false →
  sendEmail emailData env st =
  (Throw (ErrorObj "Either html, text, or template must be provided"), st).
Proof.
  intros Hkey Ht Hh Htx. unfold sendEmail. run_handler.
  rewrite Hkey, Ht, Hh, Htx. reflexivity.
Qed.

Lemma quiet_events (l : list Event) :
  forallb quiet l = true →
  existsb is_fetch l = false ∧ List.filter is_insert l = [].
Proof.
  induction l as [|ev l IH]; [auto|]. cbn. intros [Hev Hl]%andb_true_iff.
  destruct (IH Hl) as [-> ->]. unfold quiet in Hev.
  destruct (is_fetch ev), (is_insert ev); try discriminate. auto.
Qed.

Lemma after_log_one_insert (env : Env) (st0 st st' : State)
    (row : NewEmailLog) (evs0 tail : list Event) :
  trace st = (trace st0 ++ evs0)%list → forallb quiet evs0 = true →
  trace st' = (trace (after_log env st row) ++ tail)%list →
  forallb quiet tail = true →
  one_insert_no_delivery st0 st' (new_user_id row) row.
Proof.
  intros Htr Hq Htr' Htail. unfold one_insert_no_delivery.
  destruct (quiet_events _ Hq) as [Hq1 Hq2].
  destruct (quiet_events _ Htail) as [Ht1 Ht2].
  rewrite Htr'. unfold after_log.
  destruct (insert_error env); cbn [trace email_logs]; rewrite Htr.
  - exists (evs0 ++ [InsertRow (Some (new_user_id row)) row]
            ++ [ConsoleError "Error logging email:"] ++ tail)%list.
    rewrite <- !app_assoc. split; [reflexivity|].
    rewrite existsb_app, List.filter_app, Hq1, Hq2. cbn. rewrite Ht1, Ht2. auto.
  - exists (evs0 ++ [InsertRow (Some (new_user_id row)) row] ++ tail)%list.
    rewrite <- !app_assoc. split; [reflexivity|].
    rewrite existsb_app, List.filter_app, Hq1, Hq2. cbn. rewrite Ht1, Ht2. auto.
Qed.

Lemma after_log_stored (env : Env) (st : State) (row : NewEmailLog) :
  insert_error env = None →
  email_logs (after_log env st row) =
  (email_logs st ++ [stored (length (email_logs st)) (db_clock env) row])%list.
Proof. intros H. unfold after_log. rewrite H. reflexivity. Qed.

Lemma present_reason (cfg : RateLimitInfo) (reason : string) :
  reason = hourly_reason cfg ∨ reason = daily_reason cfg →
  or_null (Some reason) = Some reason.
Proof. intros [-> | ->]; reflexivity. Qed.

(** ** Dispatch *)

(** C4.  A request that the rate limiter rejects gets the response 429
    carrying the limiter's reason, which is the hourly or the daily one
    (and these differ); the handler does not call the provider and asks
    for exactly one insert, that of a [failed] record whose
    [error_message] is the reason; when the store takes the insert, the
    table grows by exactly that record. *)
Theorem rejected_request_is_logged (env : Env) (st st1 : State)
    (req : HttpRequest) (uid reason : string) :
  authenticated env req uid →
  present (req_to (json req)) = true →
  present (req_subject (json req)) = true →
  checkRateLimit (client_of req) uid env st
    = (Return (not_allowed reason), st1) →
  let row := log_entry uid (json req) failed (Some reason) in
  ∃ st',
    serve req env st
      = (Return {| status_of := 429; body := error_body reason |}, st')
    ∧ (reason = hourly_reason (rateLimitConfig env)
       ∨ reason = daily_reason (rateLimitConfig env))
    ∧ hourly_reason (rateLimitConfig env) ≠ daily_reason (rateLimitConfig env)
    ∧ new_status row = failed
    ∧ new_error_message row = Some reason
    ∧ one_insert_no_delivery st st' uid row
    ∧ (insert_error env = None →
       email_logs st' =
       (email_logs st ++ [stored (length (email_logs st)) (db_clock env) row])%list).
Proof.
  intros Hauth Hto Hsubj Hrl row.
  destruct (checkRateLimit_effects _ _ _ _ _ _ Hrl) as (Hrows & (evs & Htr & Hq) & Hreason).
  specialize (Hreason reason eq_refl).
  eexists. split; [apply (serve_rejected _ _ _ _ _ _ Hauth Hto Hsubj Hrl)|].
  split; [exact Hreason|]. split; [apply reasons_differ|].
  split; [reflexivity|]. split; [apply (present_reason _ _ Hreason)|]. split.
  - apply (after_log_one_insert env st st1 _ row evs [] Htr Hq);
      [symmetry; apply app_nil_r | reflexivity].
  - intros Hins. rewrite after_log_stored by assumption. rewrite Hrows. reflexivity.
Qed.

(** Scenario B: ten sent records in the last hour, shipped limits. *)
Lemma rejected_request_is_logged_witness :
  ∃ st',
    serve (alice_request no_content) sample_env
      (state_of (alice_rows (replicate 10 (sent, noon - 1000))))
    = (Return {| status_of := 429;
                 body := error_body
                   "Hourly rate limit exceeded. Maximum 10 emails per hour." |},
       st')
    ∧ length (email_logs st') = 11%nat.
Proof.
  destruct (rejected_request_is_logged sample_env
              (state_of (alice_rows (replicate 10 (sent, noon - 1000))))
              (snd (checkRateLimit (client_of (alice_request no_content)) "alice"
                      sample_env
                      (state_of (alice_rows (replicate 10 (sent, noon - 1000))))))
              (alice_request no_content) "alice"
              "Hourly rate limit exceeded. Maximum 10 emails per hour.")
    as (st' & Hserve & _ & _ & _ & _ & _ & Hrows).
  - repeat split; reflexivity.
  - reflexivity.
  - reflexivity.
  - vm_compute. reflexivity.
  - exists st'. split; [exact Hserve|].
    rewrite (Hrows eq_refl), length_app. reflexivity.
Defined.

(** C2, as the code has it.  A request that names its recipient and
    subject, passes the rate limiter, and asks for a template that is
    neither registered nor a member of [Object.prototype], on a
    deployment with a provider key: the response is 500 with
    "Template '...' not found"; the provider is not called; exactly one
    insert is asked for, that of a [failed] record with that message; when
    the store takes it, the table grows by that record. *)
Theorem unknown_template_is_logged (env : Env) (st st1 : State)
    (req : HttpRequest) (uid t : string) :
  authenticated env req uid →
  present (req_to (json req)) = true →
  present (req_subject (json req)) = true →
  checkRateLimit (client_of req) uid env st = (Return allowed, st1) →
  present (RESEND_API_KEY env) = true →
  req_template (json req) = Some t → t ≠ "" →
  is_registered t = false → is_prototype_key t = false →
  let message := "Template '" +:+ t +:+ "' not found" in
  let row := log_entry uid (json req) failed (Some message) in
  ∃ st',
    serve req env st
      = (Return {| status_of := 500; body := error_body message |}, st')
    ∧ new_status row = failed
    ∧ new_error_message row = Some message
    ∧ one_insert_no_delivery st st' uid row
    ∧ (insert_error env = None →
       email_logs st' =
       (email_logs st ++ [stored (length (email_logs st)) (db_clock env) row])%list).
Proof.
  intros Hauth Hto Hsubj Hrl Hkey Ht Hne Hreg Hproto message row.
  destruct (checkRateLimit_effects _ _ _ _ _ _ Hrl) as (Hrows & (evs & Htr & Hq) & _).
  pose proof (sendEmail_unknown_template env st1 _ _ Hkey Ht Hne Hreg Hproto) as Hsend.
  pose proof (serve_send_failed _ _ _ _ _ _ _ Hauth Hto Hsubj Hrl Hsend) as Hserve.
  cbn zeta in Hserve. cbn [message_of] in Hserve. fold message row in Hserve.
  eexists. split; [exact Hserve|]. split; [reflexivity|]. split; [reflexivity|].
  split.
  - apply (after_log_one_insert env st st1 _ row evs
             [ConsoleError "Error in send-email-notification:"] Htr Hq);
      reflexivity.
  - intros Hins. cbn [email_logs]. rewrite after_log_stored by assumption.
    rewrite Hrows. reflexivity.
Qed.

Lemma unknown_template_is_logged_witness :
  ∃ st',
    serve (alice_request bogus_template) sample_env empty_state
    = (Return {| status_of := 500;
                 body := error_body "Template 'bogus' not found" |}, st')
    ∧ length (email_logs st') = 1%nat.
Proof.
  destruct (unknown_template_is_logged sample_env empty_state
              (snd (checkRateLimit (client_of (alice_request bogus_template))
                      "alice" sample_env empty_state))
              (alice_request bogus_template) "alice" "bogus")
    as (st' & Hserve & _ & _ & _ & Hrows).
  - repeat split; reflexivity.
  - reflexivity.
  - reflexivity.
  - vm_compute. reflexivity.
  - reflexivity.
  - reflexivity.
  - discriminate.
  - reflexivity.
  - reflexivity.
  - exists st'. split; [exact Hserve|]. rewrite (Hrows eq_refl). reflexivity.
Defined.

(** C2, as the claim has it, fails on scenario C: the response is not a
    400 and a record is written. *)
Lemma unknown_template_not_rejected_unrecorded :
  ¬ rejected_unrecorded sample_env empty_state (alice_request bogus_template).
Proof. intros [_ H]. vm_compute in H. discriminate. Qed.

(** C3, as the code has it.  A request that names its recipient and
    subject, passes the rate limiter, and has neither a template nor
    html nor text, on a deployment with a provider key: the response is
    500 with "Either html, text, or template must be provided"; the
    provider is not called; exactly one insert is asked for, that of a
    [failed] record with that message; when the store takes it, the table
    grows by that record. *)
Theorem empty_content_is_logged (env : Env) (st st1 : State)
    (req : HttpRequest) (uid : string) :
  authenticated env req uid →
  present (req_to (json req)) = true →
  present (req_subject (json req)) = true →
  checkRateLimit (client_of req) uid env st = (Return allowed, st1) →
  present (RESEND_API_KEY env) = true →
  present (req_template (json req)) = false →
  present (req_html (json req)) = false →
  present (req_text (json req)) = false →
  let message := "Either html, text, or template must be provided" in
  let row := log_entry uid (json req) failed (Some message) in
  ∃ st',
    serve req env st
      = (Return {| status_of := 500; body := error_body message |}, st')
    ∧ new_status row = failed
    ∧ new_error_message row = Some message
    ∧ one_insert_no_delivery st st' uid row
    ∧ (insert_error env = None →
       email_logs st' =
       (email_logs st ++ [stored (length (email_logs st)) (db_clock env) row])%list).
Proof.
  intros Hauth Hto Hsubj Hrl Hkey Ht Hh Htx message row.
  destruct (checkRateLimit_effects _ _ _ _ _ _ Hrl) as (Hrows & (evs & Htr & Hq) & _).
  pose proof (sendEmail_no_content env st1 _ Hkey Ht Hh Htx) as Hsend.
  pose proof (serve_send_failed _ _ _ _ _ _ _ Hauth Hto Hsubj Hrl Hsend) as Hserve.
  cbn zeta in Hserve. cbn [message_of] in Hserve. fold message row in Hserve.
  eexists. split; [exact Hserve|]. split; [reflexivity|]. split; [reflexivity|].
  split.
  - apply (after_log_one_insert env st st1 _ row evs
             [ConsoleError "Error in send-email-notification:"] Htr Hq);
      reflexivity.
  - intros Hins. cbn [email_logs]. rewrite after_log_stored by assumption.
    rewrite Hrows. reflexivity.
Qed.

Lemma empty_content_is_logged_witness :
  ∃ st',
    serve (alice_request no_content) sample_env empty_state
    = (Return {| status_of := 500;
                 body := error_body
                   "Either html, text, or template must be provided" |}, st')
    ∧ length (email_logs st') = 1%nat.
Proof.
  destruct (empty_content_is_logged sample_env empty_state
              (snd (checkRateLimit (client_of (alice_request no_content))
                      "alice" sample_env empty_state))
              (alice_request no_content) "alice")
    as (st' & Hserve & _ & _ & _ & Hrows).
  - repeat split; reflexivity.
  - reflexivity.
  - reflexivity.
  - vm_compute. reflexivity.
  - reflexivity.
  - reflexivity.
  - reflexivity.
  - reflexivity.
  - exists st'. split; [exact Hserve|]. rewrite (Hrows eq_refl). reflexivity.
Defined.

(** C3, as the claim has it, fails on scenario D: the response is not a
    400 and a record is written. *)
Lemma empty_content_not_rejected_unrecorded :
  ¬ rejected_unrecorded sample_env empty_state (alice_request no_content).
Proof. intros [_ H]. vm_compute in H. discriminate. Qed.
Lemma checkRateLimit_insert_irrelevant (env : Env) (e : option string)
    (st : State) (supabase : SupabaseClient) (uid : string) :
  checkRateLimit supabase uid (with_insert_error env e) st
  = checkRateLimit supabase uid env st.
Proof.
  unfold checkRateLimit, select_count. run_handler.
  cbn [with_insert_error rateLimitConfig clock getUser select_error].
  destruct (select_error env _); cbn [error count]; [reflexivity|].
  destruct (_ <=? _); [reflexivity|].
  cbn [with_insert_error rateLimitConfig clock getUser select_error].
  destruct (select_error env _); cbn [error count]; [reflexivity|].
  destruct (_ <=? _); reflexivity.
Qed.

Lemma sendEmail_insert_irrelevant (env : Env) (e : option string)
    (st : State) (emailData : EmailRequest) :
  sendEmail emailData (with_insert_error env e) st = sendEmail emailData env st.
Proof.
  unfold sendEmail. run_handler.
  cbn [with_insert_error RESEND_API_KEY EMAIL_FROM provider].
  destruct (present (RESEND_API_KEY env)); [|reflexivity]. cbn [negb].
  destruct (present (req_template emailData)).
  - destruct (renderTemplate _ _) as [r| |]; [|reflexivity|reflexivity].
    destruct (negb _ && negb _); [reflexivity|].
    cbn [with_insert_error RESEND_API_KEY EMAIL_FROM provider].
    destruct (provider env _) as [|code ? [?|]]; [reflexivity| |];
      destruct (negb (ok code)); reflexivity.
  - destruct (negb _ && negb _); [reflexivity|].
    cbn [with_insert_error RESEND_API_KEY EMAIL_FROM provider].
    destruct (provider env _) as [|code ? [?|]]; [reflexivity| |];
      destruct (negb (ok code)); reflexivity.
Qed.

(** The response computed from what the rate limiter and the delivery
    come back with, the writes to the log left out. *)
Lemma serve_response (env : Env) (st : State) (req : HttpRequest) :
  fst (serve req env st) =
  if String.eqb (method req) "OPTIONS" then
    Return {| status_of := 200; body := no_body |}
  else if negb (present (authorization_header req)) then
    Return {| status_of := 401; body := error_body "Missing authorization header" |}
  else
    match getUser env (default "" (authorization_header req)) with
    | None => Return {| status_of := 401; body := error_body "User not authenticated" |}
    | Some uid =>
        if negb (present (req_to (json req)))
           || negb (present (req_subject (json req))) then
          Return {| status_of := 400;
                    body := error_body "Missing required fields: to, subject" |}
        else
          match checkRateLimit (client_of req) uid env st with
          | (Return (not_allowed reason), _) =>
              Return {| status_of := 429; body := error_body reason |}
          | (Return allowed, st1) =>
              match fst (sendEmail (json req) env st1) with
              | Return _ =>
                  Return {| status_of := 200;
                            body := success_body "Email sent successfully" |}
              | Throw error =>
                  Return {| status_of := 500;
                            body := error_body (message_of error) |}
              | Unmodelled => Unmodelled
              end
          | (Throw error, _) =>
              Return {| status_of := 500; body := error_body (message_of error) |}
          | (Unmodelled, _) => Unmodelled
          end
    end.
Proof.
  unfold serve. destruct (String.eqb (method req) "OPTIONS"); [reflexivity|].
  run_handler. destruct (present (authorization_header req)); [|reflexivity].
  cbn [negb authorization].
  destruct (getUser env _) as [uid|]; [|reflexivity].
  destruct (negb _ || negb _); [reflexivity|].
  fold (client_of req).
  destruct (checkRateLimit (client_of req) uid env st) as [[[|reason]|error|] st1];
    [| |reflexivity|reflexivity].
  - destruct (sendEmail (json req) env st1) as [[[]|error|] st2]; cbn [fst].
    + pose proof (logEmail_returns env st2 (client_of req) uid (json req) sent None) as Hl.
      destruct (logEmail _ _ _ _ _ env st2) as [o st3]. cbn in Hl. subst o. reflexivity.
    + pose proof (logEmail_returns env st2 (client_of req) uid (json req) failed
                    (Some (message_of error))) as Hl.
      destruct (logEmail _ _ _ _ _ env st2) as [o st3]. cbn in Hl. subst o. reflexivity.
    + reflexivity.
  - pose proof (logEmail_returns env st1 (client_of req) uid (json req) failed
                  (Some reason)) as Hl.
    destruct (logEmail _ _ _ _ _ env st1) as [o st3]. cbn in Hl. subst o. reflexivity.
Qed.

(** C9.  The response does not depend on what the insert into the log
    comes back with: whether it succeeds or fails, and with whatever
    error, the handler answers the same. *)
Theorem log_failure_does_not_change_response (env : Env) (st : State)
    (req : HttpRequest) (e1 e2 : option string) :
  fst (serve req (with_insert_error env e1) st)
  = fst (serve req (with_insert_error env e2) st).
Proof.
  rewrite !serve_response. cbn [getUser with_insert_error].
  destruct (String.eqb (method req) "OPTIONS"); [reflexivity|].
  destruct (negb (present (authorization_header req))); [reflexivity|].
  destruct (getUser env _) as [uid|]; [|reflexivity].
  destruct (negb _ || negb _); [reflexivity|].
  rewrite !checkRateLimit_insert_irrelevant.
  destruct (checkRateLimit (client_of req) uid env st) as [[[|reason]|error|] st1];
    [|reflexivity|reflexivity|reflexivity].
  rewrite !sendEmail_insert_irrelevant. reflexivity.
Qed.

(** The part of C8 that the handler does: a request without recipient or
    without subject gets the response 400, and neither the table nor the
    trace changes: no query, no insert, no call of the provider. *)
Lemma missing_fields_rejected_unrecorded (env : Env) (st : State)
    (req : HttpRequest) (uid : string) :
  authenticated env req uid →
  present (req_to (json req)) = false
  ∨ present (req_subject (json req)) = false →
  rejected_unrecorded env st req ∧ snd (serve req env st) = st.
Proof.
  intros Hauth Hmiss. unfold rejected_unrecorded.
  rewrite (serve_missing_fields _ _ _ _ Hauth Hmiss). cbn. eauto.
Qed.

(** C8, on a recipient that is not an address.  [isValidEmail] rejects
    "not-an-email", yet the handler never asks: it queries the rate
    limiter, calls the provider, answers 200 and writes a [sent]
    record. *)
Theorem malformed_recipient_is_delivered :
  isValidEmail "not-an-email" = false
  ∧ ∃ st',
      serve (alice_request malformed_recipient) sample_env empty_state
      = (Return {| status_of := 200;
                   body := success_body "Email sent successfully" |}, st')
      ∧ existsb is_count_query (trace st') = true
      ∧ existsb is_fetch (trace st') = true
      ∧ email_logs st' =
        [ {| id := 0; user_id := "alice"; recipient := "not-an-email";
             subject := "Hello"; template := None; status := sent;
             error_message := None; created_at := noon + 7 |} ].
Proof.
  split; [vm_compute; reflexivity|].
  eexists. split; [vm_compute; reflexivity|]. repeat split.
Qed.

(** ** Substrings of concatenations *)

Lemma append_cons (x : ascii) (a b : string) :
  String x a +:+ b = String x (a +:+ b).
Proof. reflexivity. Qed.

Lemma append_empty_l (b : string) : "" +:+ b = b.
Proof. reflexivity. Qed.

Lemma append_assoc (a b c : string) : (a +:+ b) +:+ c = a +:+ (b +:+ c).
Proof.
  induction a as [|x a IH]; [reflexivity|].
  rewrite !append_cons. f_equal. exact IH.
Qed.

Lemma append_empty_r (a : string) : a +:+ "" = a.
Proof.
  induction a as [|x a IH]; [reflexivity|].
  rewrite append_cons. f_equal. exact IH.
Qed.

(** A test that starts before a character foreign to the pattern does
    not see that character, nor what follows it. *)
Lemma starts_with_app_apart (q : string) (c : ascii) (a b : string) :
  has_char c q = false →
  starts_with q (a +:+ String c b) = starts_with q a.
Proof.
  revert a. induction q as [|x q IH]; intros a Hc; [reflexivity|].
  cbn [has_char] in Hc. apply orb_false_iff in Hc as [Hx Hq].
  destruct a as [|y a].
  - rewrite append_empty_l. cbn [starts_with]. rewrite Hx. reflexivity.
  - rewrite append_cons. cbn [starts_with]. rewrite (IH a Hq). reflexivity.
Qed.

Section Occurs.
Variable p : string.
Hypothesis p_nonempty : p ≠ "".

Lemma occurs_empty : occurs p "" = false.
Proof. destruct p; [contradiction|reflexivity]. Qed.

Lemma occurs_app_char (c : ascii) (a b : string) :
  has_char c p = false →
  occurs p (a +:+ String c b) = occurs p a || occurs p b.
Proof.
  intros Hc. induction a as [|y a IH].
  - rewrite append_empty_l, occurs_empty. cbn [occurs orb].
    rewrite (starts_with_app_apart p c "" b Hc : starts_with p (String c b) = _).
    destruct p; [contradiction|reflexivity].
  - rewrite append_cons. cbn [occurs].
    rewrite IH, <- append_cons, (starts_with_app_apart p c (String y a) b Hc).
    rewrite orb_assoc. reflexivity.
Qed.

Lemma ends_apart_split (a : string) :
  ends_apart p a = true →
  a = "" ∨ ∃ a0 c, a = a0 +:+ String c "" ∧ has_char c p = false.
Proof.
  induction a as [|y a IH]; [auto|]. intros H. right.
  destruct a as [|z a].
  - exists "", y. split; [reflexivity|]. cbn in H.
    destruct (has_char y p); [discriminate|reflexivity].
  - destruct (IH H) as [Hnil | (a0 & c & Heq & Hc)]; [discriminate|].
    exists (String y a0), c. rewrite Heq. auto.
Qed.

(** [p] occurs in [a ++ x] only inside [a] or inside [x], when [a]
    ends with a character foreign to [p]... *)
Lemma occurs_app_l (a x : string) :
  ends_apart p a = true →
  occurs p (a +:+ x) = occurs p a || occurs p x.
Proof.
  intros H. destruct (ends_apart_split a H) as [-> | (a0 & c & -> & Hc)].
  - rewrite append_empty_l, occurs_empty. reflexivity.
  - rewrite append_assoc, append_cons, append_empty_l.
    rewrite !(occurs_app_char c a0 _ Hc), occurs_empty, orb_false_r.
    reflexivity.
Qed.

(** ... or when [x] starts with one. *)
Lemma occurs_app_r (a x : string) :
  starts_apart p x = true →
  occurs p (a +:+ x) = occurs p a || occurs p x.
Proof.
  destruct x as [|c x]; intros H.
  - rewrite append_empty_r, occurs_empty, orb_false_r. reflexivity.
  - cbn in H. apply negb_true_iff in H.
    rewrite (occurs_app_char c a x H).
    rewrite (occurs_app_char c "" x H : occurs p (String c x) = _).
    rewrite occurs_empty. reflexivity.
Qed.

(** In lines joined by line feeds, [p] occurs only inside a line, when
    it has no line feed. *)
Lemma occurs_unlines (ls : list string) :
  has_char "010"%char p = false →
  occurs p (unlines ls) = existsb (occurs p) ls.
Proof.
  intros Hnl. unfold unlines. induction ls as [|l ls IH].
  - cbn. apply occurs_empty.
  - destruct ls as [|l' ls].
    + cbn. rewrite orb_false_r. reflexivity.
    + change (String.concat nl (l :: l' :: ls))
        with (l +:+ String "010"%char (String.concat nl (l' :: ls))).
      rewrite (occurs_app_char _ _ _ Hnl), IH. reflexivity.
Qed.
End Occurs.

Lemma existsb_false_Forall {A} (f : A → bool) (l : list A) :
  Forall (λ x, f x = false) l → existsb f l = false.
Proof. induction 1 as [|x l Hx _ IH]; [reflexivity|]. cbn. rewrite Hx, IH. reflexivity. Qed.

(** ** Templates *)

Lemma undefined_nonempty : "undefined" ≠ "".
Proof. discriminate. Qed.

Lemma prop_defined (data : TemplateData) (k : string) :
  values_defined data →
  prop data k = JUndefined ∨ occurs "undefined" (ToString (prop data k)) = false.
Proof.
  intros H. unfold prop. destruct (data !! k) as [v|] eqn:E; [right|left; reflexivity].
  exact (H k v E).
Qed.

Lemma prop_required (t : string) (data : TemplateData) (k : string) :
  values_defined data → only_optional_missing t data →
  In k (template_fields t) → ¬ In k (optional_fields t) →
  occurs "undefined" (ToString (prop data k)) = false.
Proof.
  intros H Hopt Hin Hreq. unfold prop.
  destruct (data !! k) as [v|] eqn:E; [exact (H k v E)|].
  destruct (Hreq (Hopt k Hin E)).
Qed.

(** One line of a template: the value it substitutes, if any, is either
    guarded and missing, or prints without "undefined". *)
Ltac split_line :=
  repeat first
    [ rewrite (occurs_app_l "undefined" undefined_nonempty) by reflexivity
    | rewrite (occurs_app_r "undefined" undefined_nonempty) by reflexivity ].

Ltac line_defined :=
  first
    [ vm_compute; reflexivity
    | repeat match goal with
        | H : ?v = JUndefined ∨ _ |- context [?v] => destruct H as [-> | H]
        end;
      cbn [truthy];
      repeat match goal with
        | |- context [truthy ?v] => destruct (truthy v)
        end;
      split_line;
      repeat match goal with
        | H : occurs _ _ = false |- _ => rewrite H
        end;
      vm_compute; reflexivity ].

Ltac lines_defined :=
  rewrite (occurs_unlines "undefined" undefined_nonempty) by reflexivity;
  apply existsb_false_Forall;
  repeat (apply List.Forall_cons; [line_defined|]);
  apply List.Forall_nil.

Ltac required_field t data k H Hopt :=
  let Hk := fresh "Hk" in
  pose proof (prop_required t data k H Hopt
                ltac:(cbn; tauto) ltac:(cbn; intuition discriminate)) as Hk;
  generalize dependent (prop data k); intros ? ?.

Ltac guarded_field data k H :=
  let Hk := fresh "Hk" in
  pose proof (prop_defined data k H) as Hk;
  generalize dependent (prop data k); intros ? ?.

Lemma taskReminderTemplate_defined (data : TemplateData) :
  values_defined data → only_optional_missing "task-reminder" data →
  occurs "undefined" (html (taskReminderTemplate data)) = false
  ∧ occurs "undefined" (text (taskReminderTemplate data)) = false.
Proof.
  intros H Hopt. unfold taskReminderTemplate. cbv zeta. cbn [html text].
  required_field "task-reminder" data "taskName" H Hopt.
  guarded_field data "dueDate" H.
  guarded_field data "description" H.
  guarded_field data "url" H.
  clear H Hopt. split; lines_defined.
Qed.

Lemma taskAssignedTemplate_defined (data : TemplateData) :
  values_defined data → only_optional_missing "task-assigned" data →
  occurs "undefined" (html (taskAssignedTemplate data)) = false
  ∧ occurs "undefined" (text (taskAssignedTemplate data)) = false.
Proof.
  intros H Hopt. unfold taskAssignedTemplate. cbv zeta. cbn [html text].
  required_field "task-assigned" data "taskName" H Hopt.
  required_field "task-assigned" data "assignedBy" H Hopt.
  guarded_field data "description" H.
  guarded_field data "dueDate" H.
  guarded_field data "url" H.
  clear H Hopt. split; lines_defined.
Qed.

Lemma taskCompletedTemplate_defined (data : TemplateData) :
  values_defined data → only_optional_missing "task-completed" data →
  occurs "undefined" (html (taskCompletedTemplate data)) = false
  ∧ occurs "undefined" (text (taskCompletedTemplate data)) = false.
Proof.
  intros H Hopt. unfold taskCompletedTemplate. cbv zeta. cbn [html text].
  required_field "task-completed" data "taskName" H Hopt.
  required_field "task-completed" data "completedBy" H Hopt.
  guarded_field data "completedAt" H.
  clear H Hopt. split; lines_defined.
Qed.

Lemma welcomeTemplate_defined (data : TemplateData) :
  values_defined data → only_optional_missing "welcome" data →
  occurs "undefined" (html (welcomeTemplate data)) = false
  ∧ occurs "undefined" (text (welcomeTemplate data)) = false.
Proof.
  intros H Hopt. unfold welcomeTemplate. cbv zeta. cbn [html text].
  guarded_field data "userName" H.
  guarded_field data "loginUrl" H.
  clear H Hopt. split; lines_defined.
Qed.

Lemma passwordResetTemplate_defined (data : TemplateData) :
  values_defined data → only_optional_missing "password-reset" data →
  occurs "undefined" (html (passwordResetTemplate data)) = false
  ∧ occurs "undefined" (text (passwordResetTemplate data)) = false.
Proof.
  intros H Hopt. unfold passwordResetTemplate. cbv zeta. cbn [html text].
  required_field "password-reset" data "resetUrl" H Hopt.
  guarded_field data "expiresIn" H.
  clear H Hopt. split; lines_defined.
Qed.


Lemma templates_lookup (t : string) (f : TemplateData → RenderedTemplate) :
  templates !! t = Some f →
  (t = "task-reminder" ∧ f = taskReminderTemplate)
  ∨ (t = "task-assigned" ∧ f = taskAssignedTemplate)
  ∨ (t = "task-completed" ∧ f = taskCompletedTemplate)
  ∨ (t = "welcome" ∧ f = welcomeTemplate)
  ∨ (t = "password-reset" ∧ f = passwordResetTemplate).
Proof.
  unfold templates. intros H.
  repeat (apply lookup_insert_Some in H as [[<- <-] | [_ H]];
          [repeat first [left; split; reflexivity | right]|]).
  apply lookup_singleton_Some in H as [<- <-].
  repeat right. split; reflexivity.
Qed.

Lemma is_registered_cases (t : string) :
  is_registered t = true →
  t = "task-reminder" ∨ t = "task-assigned" ∨ t = "task-completed"
  ∨ t = "welcome" ∨ t = "password-reset".
Proof.
  unfold is_registered, registered. cbn [existsb].
  rewrite !orb_true_iff, !String.eqb_eq. intuition discriminate.
Qed.

Lemma renderTemplate_registered (data : TemplateData) :
  renderTemplate "task-reminder" data = Return (taskReminderTemplate data)
  ∧ renderTemplate "task-assigned" data = Return (taskAssignedTemplate data)
  ∧ renderTemplate "task-completed" data = Return (taskCompletedTemplate data)
  ∧ renderTemplate "welcome" data = Return (welcomeTemplate data)
  ∧ renderTemplate "password-reset" data = Return (passwordResetTemplate data).
Proof.
  unfold renderTemplate, templates.
  repeat split;
    rewrite ?lookup_insert_ne by discriminate;
    first [rewrite lookup_insert_eq | rewrite lookup_singleton_eq]; reflexivity.
Qed.

Ltac each_registered t Ht :=
  destruct (is_registered_cases t Ht) as [-> | [-> | [-> | [-> | ->]]]].

Ltac rewrite_rendered data :=
  let H := fresh in
  pose proof (renderTemplate_registered data) as H;
  first [ rewrite (proj1 H)
        | rewrite (proj1 (proj2 H))
        | rewrite (proj1 (proj2 (proj2 H)))
        | rewrite (proj1 (proj2 (proj2 (proj2 H))))
        | rewrite (proj2 (proj2 (proj2 (proj2 H)))) ];
  clear H.





(** The limit of C7: [taskName] is not optional, and a bag without it
    renders the word. *)
Lemma missing_task_name_renders_undefined :
  occurs ("<div class=" +:+ dq +:+ "task-name" +:+ dq +:+ ">undefined</div>")
    (html (taskReminderTemplate ∅)) = true.
Proof. vm_compute. reflexivity. Qed.

(** ** The typed senders *)

Lemma json_object_lookup (fields : list (string * option string))
    (k : string) (v : JsValue) :
  json_object fields !! k = Some v →
  ∃ s, v = JStr s ∧ In (k, Some s) fields.
Proof.
  unfold json_object. intros H%elem_of_list_to_map_2.
  apply list_elem_of_omap in H as ([k' o] & Hin & Hf).
  destruct o as [s|]; cbn in Hf; [|discriminate].
  injection Hf as <- <-. exists s. split; [reflexivity|].
  apply list_elem_of_In. exact Hin.
Qed.

Lemma json_object_head (fields : list (string * option string)) (k s : string) :
  json_object ((k, Some s) :: fields) !! k = Some (JStr s).
Proof. unfold json_object. cbn. apply lookup_insert_eq. Qed.

Lemma json_object_skip (fields : list (string * option string))
    (k k' : string) (o : option string) :
  k ≠ k' → json_object ((k', o) :: fields) !! k = json_object fields !! k.
Proof.
  intros Hne. unfold json_object. destruct o; cbn; [|reflexivity].
  apply lookup_insert_ne. congruence.
Qed.

Lemma json_object_defined (fields : list (string * option string)) :
  (∀ k s, In (k, Some s) fields → occurs "undefined" s = false) →
  values_defined (json_object fields).
Proof.
  intros H k v (s & -> & Hin)%json_object_lookup. exact (H k s Hin).
Qed.

Ltac given_fields :=
  apply json_object_defined; intros k s Hin; cbn [In] in Hin;
  repeat match goal with
    | H : _ ∨ _ |- _ => destruct H as [H | H]
    | H : (_, _) = (_, _) |- _ => injection H as <- ?
    | H : False |- _ => destruct H
    end;
  subst; auto.

Ltac required_given :=
  intros k Hk Hnone; cbn in Hk;
  repeat match goal with
    | H : _ ∨ _ |- _ => destruct H as [H | H]
    | H : False |- _ => destruct H
    end;
  subst; cbn;
  first [ solve [repeat first [left; reflexivity | right]]
        | rewrite ?json_object_skip in Hnone
            by (let Hne := fresh in intro Hne; discriminate Hne);
          rewrite json_object_head in Hnone; discriminate ].

Ltac rendered_request :=
  unfold rendered_for, sendTaskReminder, sendTaskAssigned, sendTaskCompleted,
    sendWelcome, sendPasswordReset;
  cbn [req_template req_data default from_option Datatypes.id];
  match goal with
  | |- context [renderTemplate _ ?d] => rewrite_rendered d
  end;
  eexists; split; [reflexivity|].

(** What the senders build renders without "undefined", whichever of
    the optional parameters are left out, as long as the arguments given
    have no "undefined" in them. *)
Lemma sendTaskReminder_defined (to taskName : string)
    (dueDate description url : option string) :
  occurs "undefined" taskName = false →
  given_defined dueDate → given_defined description → given_defined url →
  ∃ r, rendered_for (sendTaskReminder to taskName dueDate description url)
       = Return r
       ∧ occurs "undefined" (html r) = false
       ∧ occurs "undefined" (text r) = false.
Proof.
  intros Hname Hdue Hdesc Hurl. rendered_request.
  apply taskReminderTemplate_defined; [given_fields | required_given].
Qed.

Lemma sendTaskAssigned_defined (to taskName assignedBy : string)
    (description dueDate url : option string) :
  occurs "undefined" taskName = false →
  occurs "undefined" assignedBy = false →
  given_defined description → given_defined dueDate → given_defined url →
  ∃ r, rendered_for
         (sendTaskAssigned to taskName assignedBy description dueDate url)
       = Return r
       ∧ occurs "undefined" (html r) = false
       ∧ occurs "undefined" (text r) = false.
Proof.
  intros Hname Hby Hdesc Hdue Hurl. rendered_request.
  apply taskAssignedTemplate_defined; [given_fields | required_given].
Qed.

Lemma sendTaskCompleted_defined (to taskName completedBy : string)
    (completedAt : option string) :
  occurs "undefined" taskName = false →
  occurs "undefined" completedBy = false →
  given_defined completedAt →
  ∃ r, rendered_for (sendTaskCompleted to taskName completedBy completedAt)
       = Return r
       ∧ occurs "undefined" (html r) = false
       ∧ occurs "undefined" (text r) = false.
Proof.
  intros Hname Hby Hat. rendered_request.
  apply taskCompletedTemplate_defined; [given_fields | required_given].
Qed.

Lemma sendWelcome_defined (to : string) (userName loginUrl : option string) :
  given_defined userName → given_defined loginUrl →
  ∃ r, rendered_for (sendWelcome to userName loginUrl) = Return r
       ∧ occurs "undefined" (html r) = false
       ∧ occurs "undefined" (text r) = false.
Proof.
  intros Hname Hurl. rendered_request.
  apply welcomeTemplate_defined; [given_fields | required_given].
Qed.

Lemma sendPasswordReset_defined (to resetUrl : string)
    (expiresIn : option string) :
  occurs "undefined" resetUrl = false → given_defined expiresIn →
  ∃ r, rendered_for (sendPasswordReset to resetUrl expiresIn) = Return r
       ∧ occurs "undefined" (html r) = false
       ∧ occurs "undefined" (text r) = false.
Proof.
  intros Hurl Hexp. rendered_request.
  apply passwordResetTemplate_defined; [|required_given].
  apply json_object_defined; intros k s Hin; cbn [In] in Hin.
  destruct Hin as [[= <- <-] | [[= <- <-] | []]]; [assumption|].
  destruct expiresIn as [e|]; [|reflexivity]. cbn.
  destruct (String.eqb e ""); [reflexivity|]. apply Hexp. reflexivity.
Qed.

(** ** Markup in template data *)

(** C1, on a task name that is markup.  The template embeds the string
    as it is: the html carries the [<script>] element, not its entity
    encoding.  So does the whole path: the request that
    [sendTaskReminder] builds for that task name is answered 200, and
    the html posted to the provider carries the element. *)
Theorem markup_is_embedded_unescaped :
  (∃ r,
     renderTemplate "task-reminder" markup_name = Return r
     ∧ occurs ("<div class=" +:+ dq +:+ "task-name" +:+ dq
               +:+ "><script>alert(1)</script></div>") (html r) = true
     ∧ occurs "&lt;script&gt;" (html r) = false)
  ∧ (∃ st' payload posted,
       serve (alice_request
                (sendTaskReminder "bob@example.com" "<script>alert(1)</script>"
                   None None None))
         sample_env empty_state
       = (Return {| status_of := 200;
                    body := success_body "Email sent successfully" |}, st')
       ∧ In (Fetch payload) (trace st')
       ∧ payload_html payload = Some posted
       ∧ occurs "<script>alert(1)</script>" posted = true).
Proof.
  split.
  - exists (taskReminderTemplate markup_name).
    split; [exact (proj1 (renderTemplate_registered markup_name))|].
    split; vm_compute; reflexivity.
  - pose (out := serve (alice_request
                (sendTaskReminder "bob@example.com" "<script>alert(1)</script>"
                   None None None)) sample_env empty_state).
    exists (snd out).
    vm_compute in out.
    match eval cbv delta [out] in out with
    | (_, {| email_logs := _; trace := ?tr |}) =>
        match tr with
        | context [Fetch ?p] =>
            match p with
            | {| payload_html := Some ?h |} => exists p, h
            end
        end
    end.
    subst out. cbn [snd trace].
    split; [reflexivity|]. split; [cbn; tauto|]. split; [reflexivity|].
    vm_compute. reflexivity.
Qed.

(** ** The encoder that nothing calls *)

Lemma has_char_append (c : ascii) (a b : string) :
  has_char c (a +:+ b) = has_char c a || has_char c b.
Proof.
  induction a as [|x a IH]; [reflexivity|].
  rewrite append_cons. cbn [has_char]. rewrite IH, orb_assoc. reflexivity.
Qed.

(** Replacing every [c] leaves no [c], when the replacement has none. *)
Lemma replaceAll_removes (c : ascii) (r s : string) :
  has_char c r = false → has_char c (replaceAll c r s) = false.
Proof.
  intros Hr. induction s as [|x s IH]; [reflexivity|]. cbn [replaceAll].
  destruct (Ascii.eqb x c) eqn:E.
  - rewrite has_char_append, Hr, IH. reflexivity.
  - cbn [has_char]. rewrite E, IH. reflexivity.
Qed.

(** Replacing brings no [d] in, when the replacement has none. *)
Lemma replaceAll_keeps_out (c d : ascii) (r s : string) :
  has_char d r = false → has_char d s = false →
  has_char d (replaceAll c r s) = false.
Proof.
  intros Hr. induction s as [|x s IH]; [reflexivity|]. cbn [replaceAll has_char].
  intros [Hx Hs]%orb_false_iff. destruct (Ascii.eqb x c).
  - rewrite has_char_append, Hr, (IH Hs). reflexivity.
  - cbn [has_char]. rewrite Hx, (IH Hs). reflexivity.
Qed.

(** What [sanitizeEmailData] makes of a string has none of [<], [>], the
    double quote and the single quote. *)
Lemma encodeEntities_no_markup (s : string) (c : ascii) :
  In c markup_chars → has_char c (encodeEntities s) = false.
Proof.
  unfold markup_chars, encodeEntities.
  intros [<- | [<- | [<- | [<- | []]]]].
  - do 3 (apply replaceAll_keeps_out; [reflexivity|]).
    apply replaceAll_removes. reflexivity.
  - do 2 (apply replaceAll_keeps_out; [reflexivity|]).
    apply replaceAll_removes. reflexivity.
  - apply replaceAll_keeps_out; [reflexivity|].
    apply replaceAll_removes. reflexivity.
  - apply replaceAll_removes. reflexivity.
Qed.

(** The sanitized bag, key by key. *)
Lemma sanitizeEmailData_at (data : TemplateData) (k : string) :
  sanitizeEmailData data !! k =
  if decide (k = "__proto__") then None
  else (λ value, match value with
                 | JStr s => JStr (encodeEntities s)
                 | _ => value
                 end) <$> data !! k.
Proof.
  unfold sanitizeEmailData. destruct (decide (k = "__proto__")) as [->|Hk].
  - apply lookup_delete_eq.
  - rewrite lookup_delete_ne by congruence. apply lookup_fmap.
Qed.

Lemma sanitizeEmailData_lookup (data : TemplateData) (k s : string) :
  sanitizeEmailData data !! k = Some (JStr s) →
  ∃ s0, data !! k = Some (JStr s0) ∧ s = encodeEntities s0.
Proof.
  rewrite sanitizeEmailData_at. destruct (decide _) as [|Hk]; [discriminate|].
  destruct (data !! k) as [[| |b|n|s0]|]; cbn; intros [=].
  exists s0. auto.
Qed.

(** Every string of a sanitized bag is free of the four characters. *)
Lemma sanitizeEmailData_no_markup (data : TemplateData) (k s : string)
    (c : ascii) :
  sanitizeEmailData data !! k = Some (JStr s) → In c markup_chars →
  has_char c s = false.
Proof.
  intros (s0 & _ & ->)%sanitizeEmailData_lookup Hc.
  apply encodeEntities_no_markup, Hc.
Qed.

(** Had the handler sanitized the bag of C1 first, the html would carry
    the entities and no [<script>]. *)
Lemma sanitized_markup_is_encoded :
  occurs "<script>" (html (taskReminderTemplate (sanitizeEmailData markup_name)))
  = false
  ∧ occurs "&lt;script&gt;alert(1)&lt;/script&gt;"
      (html (taskReminderTemplate (sanitizeEmailData markup_name))) = true.
Proof. split; vm_compute; reflexivity. Qed.

(** * Further properties *)

(** ** Remaining quota (utils.ts) *)

(** [calculateRemainingEmails] never reports a negative remainder,
    and [canSend] holds exactly when both counts are below their limits,
    that is, exactly when both remainders are positive. *)
Theorem calculateRemainingEmails_canSend (stats : EmailStats)
    (limits : RateLimitInfo) :
  let r := calculateRemainingEmails stats limits in
  0 ≤ remainingThisHour r
  ∧ 0 ≤ remainingToday r
  ∧ (canSend r = true ↔
     sentThisHour stats < maxEmailsPerHour limits
     ∧ sentToday stats < maxEmailsPerDay limits)
  ∧ (canSend r = true ↔ 0 < remainingThisHour r ∧ 0 < remainingToday r).
Proof.
  unfold calculateRemainingEmails. cbn.
  rewrite andb_true_iff, !Z.ltb_lt. repeat split; lia.
Qed.

(** X1.  [getRateLimitMessage] has no message exactly when [canSend]
    holds; when the hourly limit is reached the message is the hourly
    one, whatever the daily count; otherwise, when the daily limit is
    reached, it is the daily one. *)
Theorem getRateLimitMessage_canSend (stats : EmailStats)
    (limits : RateLimitInfo) :
  (getRateLimitMessage stats limits = None ↔
   canSend (calculateRemainingEmails stats limits) = true)
  ∧ (maxEmailsPerHour limits ≤ sentThisHour stats →
     getRateLimitMessage stats limits
     = Some "Hourly email limit reached. Please try again later.")
  ∧ (sentThisHour stats < maxEmailsPerHour limits →
     maxEmailsPerDay limits ≤ sentToday stats →
     getRateLimitMessage stats limits
     = Some "Daily email limit reached. Please try again tomorrow.").
Proof.
  unfold getRateLimitMessage, calculateRemainingEmails. cbn.
  rewrite andb_true_iff, !Z.ltb_lt.
  destruct (Z.eqb_spec (Z.max 0 (maxEmailsPerHour limits - sentThisHour stats)) 0);
    destruct (Z.eqb_spec (Z.max 0 (maxEmailsPerDay limits - sentToday stats)) 0);
    repeat split; intros; try discriminate; try reflexivity; try lia.
Qed.

Lemma getRateLimitMessage_canSend_witness :
  getRateLimitMessage
    {| sentToday := 12; sentThisHour := 10; failedToday := 0; totalSent := 40 |}
    RATE_LIMITS
  = Some "Hourly email limit reached. Please try again later.".
Proof.
  apply (getRateLimitMessage_canSend
           {| sentToday := 12; sentThisHour := 10; failedToday := 0;
              totalSent := 40 |} RATE_LIMITS).
  cbn. lia.
Defined.

(** ** Grouping and filtering logs (utils.ts) *)

Lemma groupLogsByStatus_from (logs : list EmailLog) (acc : GroupedLogs) :
  fold_left
    (λ acc log,
       if Status_eqb (status log) sent then
         {| sent_logs := sent_logs acc ++ [log];
            failed_logs := failed_logs acc |}
       else
         {| sent_logs := sent_logs acc;
            failed_logs := failed_logs acc ++ [log] |})
    logs acc
  = {| sent_logs := sent_logs acc
         ++ List.filter (λ log, Status_eqb (status log) sent) logs;
       failed_logs := failed_logs acc
         ++ List.filter (λ log, Status_eqb (status log) failed) logs |}.
Proof.
  revert acc. induction logs as [|log logs IH]; intros acc; cbn [fold_left List.filter].
  - rewrite !app_nil_r. destruct acc; reflexivity.
  - rewrite IH. destruct (status log); cbn [Status_eqb sent_logs failed_logs];
      rewrite <- app_assoc; reflexivity.
Qed.

(** X2.  [groupLogsByStatus] splits the logs in two without losing,
    repeating or reordering any: [sent] is the logs with status sent and
    [failed] the logs with status failed, each in the order of the
    input, and their lengths add up to that of the input. *)
Theorem groupLogsByStatus_partition (logs : list EmailLog) :
  let g := groupLogsByStatus logs in
  sent_logs g = List.filter (λ log, Status_eqb (status log) sent) logs
  ∧ failed_logs g = List.filter (λ log, Status_eqb (status log) failed) logs
  ∧ (length (sent_logs g) + length (failed_logs g) = length logs)%nat
  ∧ (∀ log, In log logs ↔ In log (sent_logs g) ∨ In log (failed_logs g))
  ∧ (∀ log, In log (sent_logs g) → In log (failed_logs g) → False).
Proof.
  unfold groupLogsByStatus. rewrite groupLogsByStatus_from. cbn.
  split; [reflexivity|]. split; [reflexivity|]. split; [|split].
  - induction logs as [|log logs IH]; [reflexivity|]. cbn.
    destruct (status log); cbn; lia.
  - intros log. rewrite !filter_In. destruct (status log); cbn; intuition discriminate.
  - intros log [_ H1]%filter_In [_ H2]%filter_In.
    destruct (status log); discriminate.
Qed.

(** X3.  [filterLogsByDateRange] keeps, in order, exactly the logs
    timestamped from [startDate] to [endDate], both ends included; it
    keeps nothing when [endDate] is before [startDate]; and filtering by
    two ranges in turn is filtering by their intersection. *)
Theorem filterLogsByDateRange_closed (logs : list EmailLog)
    (startDate endDate : Z) :
  (∀ log, In log (filterLogsByDateRange logs startDate endDate) ↔
          In log logs ∧ startDate ≤ created_at log ≤ endDate)
  ∧ sublist (filterLogsByDateRange logs startDate endDate) logs
  ∧ (endDate < startDate → filterLogsByDateRange logs startDate endDate = [])
  ∧ (∀ startDate' endDate',
       filterLogsByDateRange
         (filterLogsByDateRange logs startDate endDate) startDate' endDate'
       = filterLogsByDateRange logs
           (Z.max startDate startDate') (Z.min endDate endDate')).
Proof.
  unfold filterLogsByDateRange. split; [|split; [|split]].
  - intros log. rewrite filter_In, andb_true_iff, !Z.leb_le. reflexivity.
  - induction logs as [|log logs IH]; [constructor|]. cbn.
    destruct (_ && _); [apply sublist_skip | apply sublist_cons]; exact IH.
  - intros Hlt. induction logs as [|log logs IH]; [reflexivity|]. cbn.
    rewrite IH. destruct (Z.leb_spec startDate (created_at log));
      destruct (Z.leb_spec (created_at log) endDate); cbn; try reflexivity; lia.
  - intros s' e'. induction logs as [|log logs IH]; [reflexivity|]. cbn.
    destruct (Z.leb_spec startDate (created_at log));
      destruct (Z.leb_spec (created_at log) endDate); cbn;
      rewrite ?IH;
      destruct (Z.leb_spec s' (created_at log));
      destruct (Z.leb_spec (created_at log) e');
      destruct (Z.leb_spec (Z.max startDate s') (created_at log));
      destruct (Z.leb_spec (created_at log) (Z.min endDate e'));
      cbn; rewrite ?IH; try reflexivity; lia.
Qed.

Lemma filterLogsByDateRange_closed_witness :
  filterLogsByDateRange (alice_rows [(sent, noon); (failed, noon + 1)])
    (noon + 5) noon = [].
Proof.
  apply (filterLogsByDateRange_closed
           (alice_rows [(sent, noon); (failed, noon + 1)]) (noon + 5) noon).
  lia.
Defined.

(** ** Address syntax (utils.ts) *)

Lemma append_eq_empty (a b : string) : a +:+ b = "" → a = "" ∧ b = "".
Proof. destruct a; [auto|]. rewrite append_cons. discriminate. Qed.

Lemma append_eq_cons (a b : string) (c : ascii) (s : string) :
  a +:+ b = String c s →
  (a = "" ∧ b = String c s) ∨ (∃ a', a = String c a' ∧ s = a' +:+ b).
Proof.
  destruct a as [|x a]; [auto|]. rewrite append_cons. intros [= -> <-].
  right. eauto.
Qed.

Lemma nullable_matches (r : Regex) : nullable r = true ↔ matches r "".
Proof.
  split.
  - induction r as [| |cls|r1 IH1 r2 IH2|r1 IH1 r2 IH2|r IH]; cbn; intros H;
      try discriminate.
    + constructor.
    + apply andb_true_iff in H as [H1 H2].
      exact (matches_cat r1 r2 "" "" (IH1 H1) (IH2 H2)).
    + apply orb_true_iff in H as [H|H];
        [apply matches_alt_l | apply matches_alt_r]; auto.
    + constructor.
  - intros H. remember "" as s eqn:Es.
    induction H as [|cls c Hc|r1 r2 s1 s2 _ IH1 _ IH2|r1 r2 s _ IH|r1 r2 s _ IH
                    | |r s1 s2 _ _ _ _]; cbn; try reflexivity.
    + discriminate.
    + apply append_eq_empty in Es as [-> ->]. rewrite IH1, IH2; reflexivity.
    + rewrite IH by assumption. reflexivity.
    + rewrite IH by assumption. apply orb_true_r.
Qed.

Lemma deriv_sound (c : ascii) (r : Regex) (s : string) :
  matches (deriv c r) s → matches r (String c s).
Proof.
  revert s. induction r as [| |cls|r1 IH1 r2 IH2|r1 IH1 r2 IH2|r IH];
    intros s H; cbn in H.
  - inversion H.
  - inversion H.
  - destruct (cls c) eqn:Ec; inversion H; subst. constructor. exact Ec.
  - destruct (nullable r1) eqn:En.
    + inversion H as [| |? ? s1 s2 Ha Hb| ? ? ? Ha | ? ? ? Hb | |]; subst.
      * inversion Ha as [| |? ? s1 s2 Ha1 Ha2| | | |]; subst.
        exact (matches_cat r1 r2 (String c s1) s2 (IH1 _ Ha1) Ha2).
      * apply nullable_matches in En.
        exact (matches_cat r1 r2 "" (String c s) En (IH2 _ Hb)).
    + inversion H as [| |? ? s1 s2 Ha1 Ha2| | | |]; subst.
      exact (matches_cat r1 r2 (String c s1) s2 (IH1 _ Ha1) Ha2).
  - inversion H; subst; [apply matches_alt_l | apply matches_alt_r]; auto.
  - inversion H as [| |? ? s1 s2 Ha1 Ha2| | | |]; subst.
    exact (matches_star_app r (String c s1) s2 (IH _ Ha1) Ha2).
Qed.

Lemma deriv_complete (c : ascii) (r : Regex) (s : string) :
  matches r (String c s) → matches (deriv c r) s.
Proof.
  intros H. remember (String c s) as cs eqn:E. revert s E.
  induction H as [|cls x Hx|r1 r2 s1 s2 H1 IH1 H2 IH2|r1 r2 s0 _ IH|r1 r2 s0 _ IH
                  | |r s1 s2 H1 IH1 H2 IH2]; intros s E; cbn.
  - discriminate.
  - injection E as -> <-. rewrite Hx. constructor.
  - apply append_eq_cons in E as [[-> ->] | (s1' & -> & ->)].
    + apply nullable_matches in H1. rewrite H1.
      apply matches_alt_r. apply IH2. reflexivity.
    + destruct (nullable r1).
      * apply matches_alt_l. constructor; [apply IH1; reflexivity | exact H2].
      * constructor; [apply IH1; reflexivity | exact H2].
  - apply matches_alt_l. apply IH. exact E.
  - apply matches_alt_r. apply IH. exact E.
  - discriminate.
  - apply append_eq_cons in E as [[-> ->] | (s1' & -> & ->)].
    + apply IH2. reflexivity.
    + constructor; [apply IH1; reflexivity | exact H2].
Qed.

(** The matcher by derivatives decides [matches]. *)
Lemma regex_test_matches (r : Regex) (s : string) :
  regex_test r s = true ↔ matches r s.
Proof.
  revert r. induction s as [|c s IH]; intros r; cbn.
  - apply nullable_matches.
  - rewrite IH. split; [apply deriv_sound | apply deriv_complete].
Qed.

Lemma matches_cat_iff (r1 r2 : Regex) (s : string) :
  matches (RCat r1 r2) s ↔
  ∃ s1 s2, s = s1 +:+ s2 ∧ matches r1 s1 ∧ matches r2 s2.
Proof.
  split.
  - intros H. inversion H; subst. eauto.
  - intros (s1 & s2 & -> & H1 & H2). constructor; assumption.
Qed.

Lemma matches_class_iff (cls : ascii → bool) (s : string) :
  matches (RClass cls) s ↔ ∃ c, s = String c "" ∧ cls c = true.
Proof.
  split.
  - intros H. inversion H; subst. eauto.
  - intros (c & -> & H). constructor. exact H.
Qed.

Lemma matches_star_class (cls : ascii → bool) (s : string) :
  matches (RStar (RClass cls)) s ↔ all_chars cls s = true.
Proof.
  split.
  - intros H. remember (RStar (RClass cls)) as r eqn:E.
    induction H as [| | | | | |r s1 s2 H1 _ _ IH2]; try discriminate.
    + reflexivity.
    + injection E as ->. inversion H1; subst. rewrite append_cons, append_empty_l.
      cbn. rewrite IH2 by reflexivity. rewrite andb_true_r. assumption.
  - induction s as [|c s IH]; cbn; [constructor|].
    intros [Hc Hs]%andb_true_iff.
    exact (matches_star_app (RClass cls) (String c "") s
             (matches_class cls c Hc) (IH Hs)).
Qed.

Lemma matches_plus_class (cls : ascii → bool) (s : string) :
  matches (RPlus (RClass cls)) s ↔ s ≠ "" ∧ all_chars cls s = true.
Proof.
  unfold RPlus. rewrite matches_cat_iff. split.
  - intros (s1 & s2 & -> & (c & -> & Hc)%matches_class_iff & H2%matches_star_class).
    rewrite append_cons, append_empty_l. cbn. rewrite Hc, H2. split; [discriminate|reflexivity].
  - intros [Hne H]. destruct s as [|c s]; [contradiction|]. cbn in H.
    apply andb_true_iff in H as [Hc Hs].
    exists (String c ""), s. split; [reflexivity|].
    split; [apply matches_class_iff; eauto | apply matches_star_class; exact Hs].
Qed.






(** ** The shape of one character *)

Ltac byte_facts :=
  unfold is_ascii, byte_is, byte_in in *;
  repeat match goal with
    | H : _ && _ = true |- _ => apply andb_true_iff in H as [? ?]
    | H : _ || _ = true |- _ => apply orb_true_iff in H as [?|?]
    | H : (_ <=? _)%nat = true |- _ => apply Nat.leb_le in H
    | H : (_ =? _)%nat = true |- _ => apply Nat.eqb_eq in H
    end.

Ltac byte_solver :=
  byte_facts;
  first [ apply andb_false_iff; rewrite !Nat.leb_gt; lia
        | apply andb_true_iff; rewrite !Nat.leb_le; lia ].


















(** Addresses as the expression has them: letters beyond U+007F pass,
    white space beyond U+007F does not. *)
Lemma isValidEmail_samples :
  isValidEmail "alice@example.com" = true
  ∧ isValidEmail "alice@example" = false
  ∧ isValidEmail "alice smith@example.com" = false
  ∧ isValidEmail (bytes [195; 169]%nat +:+ "@example.com") = true
  ∧ isValidEmail ("a" +:+ bytes [226; 128; 175]%nat +:+ "b@c.d") = false
  ∧ isValidEmail (bytes [240; 159; 152; 128]%nat +:+ "@example.com") = true.
Proof. repeat split; vm_compute; reflexivity. Qed.

(** ** Entity encoding (utils.ts) *)

Lemma replaceAll_append (c : ascii) (r a b : string) :
  replaceAll c r (a +:+ b) = replaceAll c r a +:+ replaceAll c r b.
Proof.
  induction a as [|x a IH]; [reflexivity|].
  rewrite append_cons. cbn [replaceAll]. rewrite IH.
  destruct (Ascii.eqb x c); [rewrite append_assoc|]; reflexivity.
Qed.

Lemma replaceAll_cons_other (c x : ascii) (r s : string) :
  Ascii.eqb x c = false → replaceAll c r (String x s) = String x (replaceAll c r s).
Proof. intros H. cbn [replaceAll]. rewrite H. reflexivity. Qed.

Lemma encodeEntities_one_pass (value : string) :
  encodeEntities value = encode_each value.
Proof.
  unfold encodeEntities. induction value as [|x s IH]; [reflexivity|].
  cbn [encode_each]. rewrite <- IH. unfold entity_of.
  destruct (Ascii.eqb_spec x "&") as [->|Hamp].
  { cbn [replaceAll Ascii.eqb Bool.eqb]. rewrite !replaceAll_append. reflexivity. }
  destruct (Ascii.eqb_spec x "<") as [->|Hlt].
  { cbn [replaceAll Ascii.eqb Bool.eqb]. rewrite !replaceAll_append. reflexivity. }
  destruct (Ascii.eqb_spec x ">") as [->|Hgt].
  { cbn [replaceAll Ascii.eqb Bool.eqb]. rewrite !replaceAll_append. reflexivity. }
  destruct (Ascii.eqb_spec x "034") as [->|Hdq].
  { cbn [replaceAll Ascii.eqb Bool.eqb]. rewrite !replaceAll_append. reflexivity. }
  destruct (Ascii.eqb_spec x "'") as [->|Hsq].
  { cbn [replaceAll Ascii.eqb Bool.eqb]. reflexivity. }
  apply Ascii.eqb_neq in Hamp, Hlt, Hgt, Hdq, Hsq.
  rewrite !replaceAll_cons_other by assumption. reflexivity.
Qed.

Lemma encode_each_clean (s : string) :
  (∀ c, In c ("&"%char :: markup_chars) → has_char c s = false) →
  encode_each s = s.
Proof.
  induction s as [|x s IH]; [reflexivity|]. intros H. cbn [encode_each].
  rewrite IH.
  2:{ intros c Hc. specialize (H c Hc). cbn in H.
      apply orb_false_iff in H as [_ H]. exact H. }
  unfold entity_of, markup_chars in *.
  assert (Hx : ∀ c, In c ["&"%char; "<"%char; ">"%char; "034"%char; "'"%char] →
                    Ascii.eqb x c = false).
  { intros c Hc. specialize (H c Hc). cbn in H.
    apply orb_false_iff in H as [H _]. exact H. }
  rewrite !Hx by (cbn; tauto). reflexivity.
Qed.

Lemma encode_each_empty (s : string) :
  String.eqb (encode_each s) "" = String.eqb s "".
Proof.
  destruct s as [|x s]; [reflexivity|]. cbn [encode_each]. unfold entity_of.
  repeat (destruct (Ascii.eqb x _); [reflexivity|]). reflexivity.
Qed.

(** X5.  The five [replace] passes of [sanitizeEmailData] amount to one
    pass that puts, for each character of the input, its entity if it is
    one of the five reserved characters and the character itself
    otherwise: the ampersands that the later passes bring in are not
    encoded again.  So the result has none of [<], [>] and the two
    quotes, and a string without reserved characters comes back as it
    is. *)
Theorem encodeEntities_each (value : string) :
  encodeEntities value = encode_each value
  ∧ (∀ c, In c markup_chars → has_char c (encodeEntities value) = false)
  ∧ ((∀ c, In c ("&"%char :: markup_chars) → has_char c value = false) →
     encodeEntities value = value).
Proof.
  split; [apply encodeEntities_one_pass|]. split.
  - intros c Hc. apply encodeEntities_no_markup, Hc.
  - intros H. rewrite encodeEntities_one_pass. apply encode_each_clean, H.
Qed.

Lemma encodeEntities_each_witness :
  encodeEntities "Buy milk" = "Buy milk".
Proof.
  apply (encodeEntities_each "Buy milk").
  intros c Hc. cbn in Hc.
  destruct Hc as [<- | [<- | [<- | [<- | [<- | []]]]]]; reflexivity.
Defined.

(** X6.  [sanitizeEmailData] drops the key [__proto__], which no
    template reads, and keeps every other key of the bag; it leaves
    alone the values that are not strings and the strings without a
    reserved character, and never changes whether a value is truthy: a
    template shows the same optional fragments for the sanitized bag as
    for the bag itself. *)
Theorem sanitizeEmailData_keeps (data : TemplateData) (k : string) :
  k ≠ "__proto__" →
  (sanitizeEmailData data !! k = None ↔ data !! k = None)
  ∧ (∀ v, data !! k = Some v → (∀ s, v ≠ JStr s) →
          sanitizeEmailData data !! k = Some v)
  ∧ (∀ s, data !! k = Some (JStr s) →
          (∀ c, In c ("&"%char :: markup_chars) → has_char c s = false) →
          sanitizeEmailData data !! k = Some (JStr s))
  ∧ truthy (prop (sanitizeEmailData data) k) = truthy (prop data k)
  ∧ sanitizeEmailData data !! "__proto__" = None
  ∧ (∀ t, ¬ In "__proto__" (template_fields t)).
Proof.
  intros Hk.
  assert (Hfields : ∀ t, ¬ In "__proto__" (template_fields t)).
  { intros t. unfold template_fields.
    repeat (destruct (String.eqb t _);
            [cbn; intuition discriminate|]).
    intros []. }
  assert (Hproto : sanitizeEmailData data !! "__proto__" = None).
  { rewrite sanitizeEmailData_at, decide_True by reflexivity. reflexivity. }
  unfold prop. rewrite sanitizeEmailData_at, decide_False by exact Hk.
  destruct (data !! k) as [v|]; cbn.
  - split; [split; discriminate|]. split; [|split; [|split; [|split]]].
    + intros v' [= <-] Hv. destruct v; try reflexivity. destruct (Hv s eq_refl).
    + intros s [= ->] Hs. rewrite encodeEntities_one_pass, encode_each_clean by exact Hs.
      reflexivity.
    + destruct v; try reflexivity. cbn.
      rewrite encodeEntities_one_pass, encode_each_empty. reflexivity.
    + exact Hproto.
    + exact Hfields.
  - split; [tauto|]. split; [discriminate|]. split; [discriminate|].
    split; [reflexivity|]. split; [exact Hproto | exact Hfields].
Qed.

Lemma sanitizeEmailData_keeps_witness :
  sanitizeEmailData name_only !! "taskName" = Some (JStr "Buy milk").
Proof.
  destruct (sanitizeEmailData_keeps name_only "taskName") as (_ & _ & H & _).
  - discriminate.
  - apply H.
    + reflexivity.
    + intros c Hc. cbn in Hc.
      destruct Hc as [<- | [<- | [<- | [<- | [<- | []]]]]]; reflexivity.
Defined.

(** ** What a template reads and what it embeds (templates/index.ts) *)

Ltac each_template t f E :=
  destruct (templates_lookup t f E)
    as [[-> ->] | [[-> ->] | [[-> ->] | [[-> ->] | [-> ->]]]]].

(** X7.  What [renderTemplate] returns depends on the bag only through
    the keys the template reads: two bags that agree on them render
    alike, whatever else they hold. *)
Theorem renderTemplate_reads_its_fields (t : string)
    (data1 data2 : TemplateData) :
  (∀ k, In k (template_fields t) → data1 !! k = data2 !! k) →
  renderTemplate t data1 = renderTemplate t data2.
Proof.
  intros H. unfold renderTemplate.
  destruct (templates !! t) as [f|] eqn:E; [|reflexivity].
  each_template t f E; f_equal;
    cbv [taskReminderTemplate taskAssignedTemplate taskCompletedTemplate
         welcomeTemplate passwordResetTemplate prop];
    repeat match goal with
      | |- context [data1 !! ?k] => rewrite (H k) by (cbn; tauto)
      end;
    reflexivity.
Qed.

Lemma renderTemplate_reads_its_fields_witness :
  renderTemplate "welcome" (<["taskName" := JNum 7]> ∅)
  = renderTemplate "welcome" ∅.
Proof.
  apply (renderTemplate_reads_its_fields "welcome" (<["taskName" := JNum 7]> ∅) ∅).
  intros k Hk. cbn in Hk. destruct Hk as [<- | [<- | []]]; reflexivity.
Defined.



Lemma starts_with_refl (p : string) : starts_with p p = true.
Proof.
  induction p as [|x p IH]; [reflexivity|].
  cbn. rewrite Ascii.eqb_refl. exact IH.
Qed.

Lemma starts_with_app_intro (p a b : string) :
  starts_with p a = true → starts_with p (a +:+ b) = true.
Proof.
  revert a. induction p as [|x p IH]; intros a; [reflexivity|].
  destruct a as [|y a]; [discriminate|]. rewrite append_cons. cbn.
  intros [-> Hp]%andb_true_iff. rewrite (IH a Hp). reflexivity.
Qed.

Lemma occurs_here (p : string) : occurs p p = true.
Proof.
  destruct p; cbn [occurs]; rewrite starts_with_refl; reflexivity.
Qed.

Lemma occurs_app_intro_l (p a b : string) :
  occurs p a = true → occurs p (a +:+ b) = true.
Proof.
  induction a as [|x a IH].
  - destruct p; [destruct b; reflexivity | discriminate].
  - rewrite append_cons. cbn [occurs]. intros [H|H]%orb_true_iff.
    + rewrite <- append_cons, (starts_with_app_intro _ _ b H). reflexivity.
    + rewrite (IH H). apply orb_true_r.
Qed.

Lemma occurs_app_intro_r (p a b : string) :
  occurs p b = true → occurs p (a +:+ b) = true.
Proof.
  intros H. induction a as [|x a IH]; [exact H|].
  rewrite append_cons. cbn [occurs]. rewrite IH. apply orb_true_r.
Qed.

Lemma occurs_unlines_here (p l : string) (ls : list string) :
  occurs p l = true → occurs p (unlines (l :: ls)) = true.
Proof.
  intros H. unfold unlines. destruct ls as [|l' ls]; [exact H|].
  change (String.concat nl (l :: l' :: ls))
    with (l +:+ (nl +:+ String.concat nl (l' :: ls))).
  apply occurs_app_intro_l, H.
Qed.

Lemma occurs_unlines_later (p l : string) (ls : list string) :
  occurs p (unlines ls) = true → occurs p (unlines (l :: ls)) = true.
Proof.
  unfold unlines. destruct ls as [|l' ls].
  - destruct p; [destruct l; reflexivity | discriminate].
  - intros H.
    change (String.concat nl (l :: l' :: ls))
      with (l +:+ (nl +:+ String.concat nl (l' :: ls))).
    apply occurs_app_intro_r, occurs_app_intro_r, H.
Qed.

Ltac find_in_line :=
  first [ apply occurs_here
        | apply occurs_app_intro_l; find_in_line
        | apply occurs_app_intro_r; find_in_line ].

Ltac find_line :=
  first [ apply occurs_unlines_here; find_in_line
        | apply occurs_unlines_later; find_line ].

Ltac embeds_value data k s Hlookup Hs :=
  let Hp := fresh "Hp" in
  assert (Hp : prop data k = JStr s)
    by (unfold prop; rewrite Hlookup; reflexivity);
  cbv zeta; rewrite !Hp; cbn [html text ToString truthy];
  rewrite ?Hs; cbn [negb];
  split; find_line.

(** X9.  Every string a template reads from the bag, if not empty, is
    in the html and in the text as it is, character for character,
    whatever it contains. *)
Theorem string_values_are_embedded (t k s : string) (data : TemplateData)
    (r : RenderedTemplate) :
  renderTemplate t data = Return r →
  In k (template_fields t) → data !! k = Some (JStr s) → s ≠ "" →
  occurs s (html r) = true ∧ occurs s (text r) = true.
Proof.
  intros Hr Hk Hlookup Hs. apply String.eqb_neq in Hs.
  unfold renderTemplate in Hr.
  destruct (templates !! t) as [f|] eqn:E;
    [|destruct (is_prototype_key t); discriminate].
  injection Hr as <-.
  each_template t f E; cbn in Hk;
    repeat match goal with
      | H : _ ∨ _ |- _ => destruct H as [<- | H]
      | H : False |- _ => destruct H
      end;
    unfold taskReminderTemplate, taskAssignedTemplate, taskCompletedTemplate,
      welcomeTemplate, passwordResetTemplate;
    match goal with
    | H : data !! ?k = Some (JStr s) |- _ => embeds_value data k s H Hs
    end.
Qed.

Lemma string_values_are_embedded_witness :
  occurs "<script>alert(1)</script>" (html (taskReminderTemplate markup_name))
  = true
  ∧ occurs "<script>alert(1)</script>" (text (taskReminderTemplate markup_name))
    = true.
Proof.
  apply (string_values_are_embedded "task-reminder" "taskName"
           "<script>alert(1)</script>" markup_name).
  - exact (proj1 (renderTemplate_registered markup_name)).
  - cbn. tauto.
  - reflexivity.
  - discriminate.
Defined.

(** ** The handler, path by path (send-email-notification/index.ts) *)

Lemma html_present (t : string) (data : TemplateData) (r : RenderedTemplate) :
  renderTemplate t data = Return r →
  present (Some (html r)) = true ∧ present (Some (text r)) = true.
Proof.
  unfold renderTemplate. destruct (templates !! t) as [f|] eqn:E;
    [|destruct (is_prototype_key t); discriminate].
  intros [= <-]. each_template t f E; split; reflexivity.
Qed.

Lemma registered_renders (t : string) (data : TemplateData) :
  is_registered t = true → ∃ r, renderTemplate t data = Return r.
Proof.
  intros Ht. each_registered t Ht; rewrite_rendered data; eauto.
Qed.

Lemma content_present (emailData : EmailRequest) :
  has_content emailData →
  negb (present (fst (content_of emailData)))
  && negb (present (snd (content_of emailData))) = false.
Proof.
  unfold has_content, content_of.
  intros [[Ht Hreg] | [Ht Hc]]; rewrite Ht.
  - unfold rendered_for.
    destruct (registered_renders _ (default ∅ (req_data emailData)) Hreg) as [r Hr].
    rewrite Hr. cbn [fst snd].
    destruct (html_present _ _ _ Hr) as [-> _]. reflexivity.
  - cbn [fst snd]. destruct Hc as [-> | ->]; [reflexivity|].
    apply andb_false_r.
Qed.

(** What [sendEmail] does once it has a key and something to send. *)
Lemma sendEmail_posts (env : Env) (st : State) (emailData : EmailRequest) :
  present (RESEND_API_KEY env) = true → has_content emailData →
  let payload := payload_of env emailData in
  let st1 := {| email_logs := email_logs st;
                trace := trace st ++ [Fetch payload] |} in
  sendEmail emailData env st =
  match failure_message (provider env payload) with
  | Some message => (Throw (ErrorObj message), st1)
  | None =>
      (Return tt,
       {| email_logs := email_logs st;
          trace := (trace st ++ [Fetch payload])
                     ++ [ConsoleLog "Email sent successfully:"] |})
  end.
Proof.
  intros Hkey Hcontent payload st1.
  pose proof (content_present emailData Hcontent) as Hpresent.
  unfold sendEmail. run_handler. rewrite Hkey. cbn [negb].
  assert (Hc :
    (if present (req_template emailData)
     then
       match renderTemplate (default "" (req_template emailData))
               (default ∅ (req_data emailData)) with
       | Return rendered => (Return (Some (html rendered), Some (text rendered)), st)
       | Throw e => (Throw e, st)
       | Unmodelled => (Unmodelled, st)
       end
     else (Return (req_html emailData, req_text emailData), st))
    = (Return (content_of emailData), st)).
  { unfold content_of, rendered_for. destruct Hcontent as [[Ht Hreg] | [Ht _]]; rewrite Ht.
    - destruct (registered_renders _ (default ∅ (req_data emailData)) Hreg) as [r Hr].
      rewrite Hr. reflexivity.
    - reflexivity. }
  destruct (present (req_template emailData)) eqn:Ht.
  - destruct (renderTemplate _ _) as [r| |] eqn:Hr; try discriminate.
    injection Hc as Hc. 
    assert (Hpay : payload = {| bearer := default "" (RESEND_API_KEY env);
           from := if present (EMAIL_FROM env) then default "" (EMAIL_FROM env)
                   else "noreply@tidy-prioritize.app";
           to := req_to emailData;
           payload_subject := req_subject emailData;
           payload_html := Some (html r);
           payload_text := Some (text r) |}).
    { unfold payload, payload_of. rewrite <- Hc. reflexivity. }
    rewrite <- Hc in Hpresent. cbn [fst snd] in Hpresent. rewrite Hpresent.
    rewrite <- Hpay. unfold failure_message.
    destruct (provider env payload) as [m|code body [m|]]; [reflexivity| |];
      destruct (negb (ok code)); reflexivity.
  - injection Hc as Hc.
    assert (Hpay : payload = {| bearer := default "" (RESEND_API_KEY env);
           from := if present (EMAIL_FROM env) then default "" (EMAIL_FROM env)
                   else "noreply@tidy-prioritize.app";
           to := req_to emailData;
           payload_subject := req_subject emailData;
           payload_html := req_html emailData;
           payload_text := req_text emailData |}).
    { unfold payload, payload_of. rewrite <- Hc. reflexivity. }
    rewrite <- Hc in Hpresent. cbn [fst snd] in Hpresent. rewrite Hpresent.
    rewrite <- Hpay. unfold failure_message.
    destruct (provider env payload) as [m|code body [m|]]; [reflexivity| |];
      destruct (negb (ok code)); reflexivity.
Qed.

Lemma events_of_log (env : Env) (st0 st st' : State) (row : NewEmailLog)
    (evs0 tail : list Event) :
  trace st = (trace st0 ++ evs0)%list →
  inserts evs0 = [] → inserts tail = [] →
  trace st' = (trace (after_log env st row) ++ tail)%list →
  ∃ evs, trace st' = (trace st0 ++ evs)%list
         ∧ inserts evs = [InsertRow (Some (new_user_id row)) row]
         ∧ fetches evs = (fetches evs0 ++ fetches tail)%list.
Proof.
  intros Htr Hi0 Hit Htr'. rewrite Htr'. unfold after_log, inserts, fetches in *.
  destruct (insert_error env); cbn [trace]; rewrite Htr.
  - exists (evs0 ++ [InsertRow (Some (new_user_id row)) row]
            ++ [ConsoleError "Error logging email:"] ++ tail)%list.
    rewrite <- !app_assoc. split; [reflexivity|].
    rewrite !List.filter_app, Hi0, Hit. cbn. auto.
  - exists (evs0 ++ [InsertRow (Some (new_user_id row)) row] ++ tail)%list.
    rewrite <- !app_assoc. split; [reflexivity|].
    rewrite !List.filter_app, Hi0, Hit. cbn. auto.
Qed.

Lemma quiet_no_inserts (evs : list Event) :
  forallb quiet evs = true → inserts evs = [] ∧ fetches evs = [].
Proof.
  induction evs as [|ev evs IH]; [auto|]. cbn.
  intros [Hev Hl]%andb_true_iff. destruct (IH Hl) as [Hi Hf].
  unfold inserts, fetches in *. cbn. unfold quiet in Hev.
  destruct (is_fetch ev), (is_insert ev); try discriminate. auto.
Qed.

(** X10 (scenario A).  A request that names its recipient and subject,
    passes the rate limiter and has something to send, on a deployment
    with a provider key and a provider that accepts: the answer is 200;
    the provider is called exactly once, with the recipient and subject
    of the request and, when a template is named, the rendered template
    in place of any html or text of the request; and exactly one insert
    is asked for, that of a [sent] record without error message, stored
    when the store takes it. *)
Theorem admitted_request_is_delivered (env : Env) (st st1 : State)
    (req : HttpRequest) (uid : string) :
  authenticated env req uid →
  present (req_to (json req)) = true →
  present (req_subject (json req)) = true →
  checkRateLimit (client_of req) uid env st = (Return allowed, st1) →
  present (RESEND_API_KEY env) = true →
  has_content (json req) →
  failure_message (provider env (payload_of env (json req))) = None →
  let payload := payload_of env (json req) in
  let row := log_entry uid (json req) sent None in
  ∃ st' evs,
    serve req env st
      = (Return {| status_of := 200;
                   body := success_body "Email sent successfully" |}, st')
    ∧ trace st' = (trace st ++ evs)%list
    ∧ fetches evs = [Fetch payload]
    ∧ to payload = req_to (json req)
    ∧ payload_subject payload = req_subject (json req)
    ∧ (∀ r, present (req_template (json req)) = true →
            rendered_for (json req) = Return r →
            payload_html payload = Some (html r)
            ∧ payload_text payload = Some (text r))
    ∧ inserts evs = [InsertRow (Some uid) row]
    ∧ new_status row = sent ∧ new_error_message row = None
    ∧ (insert_error env = None →
       email_logs st' =
       (email_logs st ++ [stored (length (email_logs st)) (db_clock env) row])%list).
Proof.
  intros Hauth Hto Hsubj Hrl Hkey Hcontent Hok payload row.
  destruct (checkRateLimit_effects _ _ _ _ _ _ Hrl) as (Hrows & (evs1 & Htr & Hq) & _).
  destruct (quiet_no_inserts _ Hq) as [Hi1 Hf1].
  pose proof (sendEmail_posts env st1 (json req) Hkey Hcontent) as Hsend.
  cbn zeta in Hsend. rewrite Hok in Hsend.
  pose proof (serve_sent _ _ _ _ _ _ Hauth Hto Hsubj Hrl Hsend) as Hserve.
  fold row in Hserve.
  match type of Hsend with _ = (_, ?s2) => set (st2 := s2) in * end.
  assert (Htr2 : trace st2 = (trace st ++ evs1
                   ++ [Fetch payload; ConsoleLog "Email sent successfully:"])%list).
  { unfold st2. cbn [trace]. rewrite Htr, <- !app_assoc. reflexivity. }
  assert (Hi2 : inserts (evs1 ++ [Fetch payload;
                                  ConsoleLog "Email sent successfully:"]) = []).
  { unfold inserts in *. rewrite List.filter_app, Hi1. reflexivity. }
  destruct (events_of_log env st st2 (after_log env st2 row) row _ []
              Htr2 Hi2 eq_refl (eq_sym (app_nil_r _)))
    as (evs & Hevs & Hins & Hfetch).
  eexists. exists evs. split; [exact Hserve|]. split; [exact Hevs|].
  split.
  { rewrite Hfetch. unfold fetches in *. rewrite List.filter_app, Hf1. reflexivity. }
  split; [reflexivity|]. split; [reflexivity|]. split.
  { intros r Ht Hr. unfold payload, payload_of, content_of. cbn [payload_html payload_text].
    rewrite Ht, Hr. auto. }
  split; [exact Hins|]. split; [reflexivity|]. split; [reflexivity|].
  intros Hins'. rewrite after_log_stored by assumption.
  unfold st2. cbn [email_logs]. rewrite Hrows. reflexivity.
Qed.

Lemma admitted_request_is_delivered_witness :
  ∃ st',
    serve (alice_request (sendWelcome "bob@example.com" (Some "Alice")
                            (Some "https://x/login")))
      sample_env empty_state
    = (Return {| status_of := 200;
                 body := success_body "Email sent successfully" |}, st')
    ∧ length (email_logs st') = 1%nat.
Proof.
  pose (req := alice_request (sendWelcome "bob@example.com" (Some "Alice")
                                (Some "https://x/login"))).
  destruct (admitted_request_is_delivered sample_env empty_state
              (snd (checkRateLimit (client_of req) "alice" sample_env empty_state))
              req "alice")
    as (st' & evs & Hserve & _ & _ & _ & _ & _ & _ & _ & _ & Hrows).
  - repeat split; reflexivity.
  - reflexivity.
  - reflexivity.
  - vm_compute. reflexivity.
  - reflexivity.
  - left. split; reflexivity.
  - reflexivity.
  - exists st'. split; [exact Hserve|]. rewrite (Hrows eq_refl). reflexivity.
Defined.

(** X11 (scenario E).  A request that names its recipient and subject,
    passes the rate limiter and has something to send, on a deployment
    with a provider key, when the provider fails (the call is rejected,
    or the status is not 2xx, or the body of a 2xx answer does not
    parse): the answer is 500 with the message of the failure, which for
    a status that is not 2xx is "Email service error: status - body";
    the provider has been called exactly once, so there is no retry; and
    exactly one insert is asked for, that of a [failed] record with that
    message, stored when the store takes it. *)
Theorem provider_failure_is_logged (env : Env) (st st1 : State)
    (req : HttpRequest) (uid message : string) :
  authenticated env req uid →
  present (req_to (json req)) = true →
  present (req_subject (json req)) = true →
  checkRateLimit (client_of req) uid env st = (Return allowed, st1) →
  present (RESEND_API_KEY env) = true →
  has_content (json req) →
  failure_message (provider env (payload_of env (json req))) = Some message →
  let row := log_entry uid (json req) failed (Some message) in
  ∃ st' evs,
    serve req env st
      = (Return {| status_of := 500; body := error_body message |}, st')
    ∧ trace st' = (trace st ++ evs)%list
    ∧ fetches evs = [Fetch (payload_of env (json req))]
    ∧ inserts evs = [InsertRow (Some uid) row]
    ∧ new_status row = failed
    ∧ new_error_message row = or_null (Some message)
    ∧ (insert_error env = None →
       email_logs st' =
       (email_logs st ++ [stored (length (email_logs st)) (db_clock env) row])%list).
Proof.
  intros Hauth Hto Hsubj Hrl Hkey Hcontent Hfail row.
  destruct (checkRateLimit_effects _ _ _ _ _ _ Hrl) as (Hrows & (evs1 & Htr & Hq) & _).
  destruct (quiet_no_inserts _ Hq) as [Hi1 Hf1].
  pose proof (sendEmail_posts env st1 (json req) Hkey Hcontent) as Hsend.
  cbn zeta in Hsend. rewrite Hfail in Hsend.
  pose proof (serve_send_failed _ _ _ _ _ _ _ Hauth Hto Hsubj Hrl Hsend) as Hserve.
  cbn zeta in Hserve. cbn [message_of] in Hserve. fold row in Hserve.
  match type of Hsend with _ = (_, ?s2) => set (st2 := s2) in * end.
  assert (Htr2 : trace st2
                 = (trace st ++ evs1 ++ [Fetch (payload_of env (json req))])%list).
  { unfold st2. cbn [trace]. rewrite Htr, <- !app_assoc. reflexivity. }
  assert (Hi2 : inserts (evs1 ++ [Fetch (payload_of env (json req))]) = []).
  { unfold inserts in *. rewrite List.filter_app, Hi1. reflexivity. }
  match type of Hserve with _ = (_, ?s3) => set (st3 := s3) in * end.
  destruct (events_of_log env st st2 st3 row _
              [ConsoleError "Error in send-email-notification:"]
              Htr2 Hi2 eq_refl eq_refl)
    as (evs & Hevs & Hins & Hfetch).
  eexists. exists evs. split; [exact Hserve|]. split; [exact Hevs|].
  split.
  { rewrite Hfetch. unfold fetches in *. rewrite List.filter_app, Hf1. reflexivity. }
  split; [exact Hins|]. split; [reflexivity|]. split; [reflexivity|].
  intros Hins'. unfold st3. cbn [email_logs].
  rewrite after_log_stored by assumption.
  unfold st2. cbn [email_logs]. rewrite Hrows. reflexivity.
Qed.

Lemma provider_failure_is_logged_witness :
  ∃ st',
    serve (alice_request malformed_recipient)
      (with_provider sample_env
         (λ _, HttpResponse 500 "internal error" None))
      empty_state
    = (Return {| status_of := 500;
                 body := error_body
                   "Email service error: 500 - internal error" |}, st')
    ∧ length (email_logs st') = 1%nat.
Proof.
  pose (env := with_provider sample_env
                 (λ _, HttpResponse 500 "internal error" None)).
  destruct (provider_failure_is_logged env empty_state
              (snd (checkRateLimit (client_of (alice_request malformed_recipient))
                      "alice" env empty_state))
              (alice_request malformed_recipient) "alice"
              "Email service error: 500 - internal error")
    as (st' & evs & Hserve & _ & _ & _ & _ & _ & Hrows).
  - repeat split; reflexivity.
  - reflexivity.
  - reflexivity.
  - vm_compute. reflexivity.
  - reflexivity.
  - right. split; [reflexivity|]. left. reflexivity.
  - vm_compute. reflexivity.
  - exists st'. split; [exact Hserve|]. rewrite (Hrows eq_refl). reflexivity.
Defined.

Lemma checkRateLimit_modelled (env : Env) (st : State)
    (supabase : SupabaseClient) (uid : string) :
  fst (checkRateLimit supabase uid env st) ≠ Unmodelled.
Proof.
  unfold checkRateLimit, select_count. run_handler. cbn [error count].
  destruct (select_error env _); cbn; [discriminate|].
  destruct (_ <=? _); cbn; [discriminate|].
  destruct (select_error env _); cbn; [discriminate|].
  destruct (_ <=? _); discriminate.
Qed.

Lemma sendEmail_unmodelled (env : Env) (st : State) (emailData : EmailRequest) :
  fst (sendEmail emailData env st) = Unmodelled →
  is_prototype_key (default "" (req_template emailData)) = true.
Proof.
  unfold sendEmail. run_handler.
  destruct (present (RESEND_API_KEY env)); [|discriminate]. cbn [negb].
  destruct (present (req_template emailData)).
  - unfold renderTemplate.
    destruct (templates !! _) as [f|].
    + destruct (negb _ && negb _); [discriminate|].
      destruct (provider env _) as [|code ? [?|]]; [discriminate| |];
        destruct (negb (ok code)); discriminate.
    + destruct (is_prototype_key _); [reflexivity | discriminate].
  - destruct (negb _ && negb _); [discriminate|].
    destruct (provider env _) as [|code ? [?|]]; [discriminate| |];
      destruct (negb (ok code)); discriminate.
Qed.

(** X12.  The handler always answers: no exception leaves it, whatever
    the store and the provider do; the status of the answer is one of
    200, 400, 401, 429 and 500.  (The one call outside the model is a
    template named after a member of [Object.prototype].) *)
Theorem serve_always_answers (env : Env) (st : State) (req : HttpRequest) :
  (∀ e, fst (serve req env st) ≠ Throw e)
  ∧ (∀ response, fst (serve req env st) = Return response →
       In (status_of response) [200; 400; 401; 429; 500])
  ∧ (fst (serve req env st) = Unmodelled →
       is_prototype_key (default "" (req_template (json req))) = true).
Proof.
  rewrite serve_response.
  destruct (String.eqb (method req) "OPTIONS").
  { split; [discriminate|]. split; [intros ? [= <-]; cbn; tauto | discriminate]. }
  destruct (negb (present (authorization_header req))).
  { split; [discriminate|]. split; [intros ? [= <-]; cbn; tauto | discriminate]. }
  destruct (getUser env _) as [uid|].
  2:{ split; [discriminate|]. split; [intros ? [= <-]; cbn; tauto | discriminate]. }
  destruct (negb _ || negb _).
  { split; [discriminate|]. split; [intros ? [= <-]; cbn; tauto | discriminate]. }
  pose proof (checkRateLimit_modelled env st (client_of req) uid) as Hrl.
  destruct (checkRateLimit (client_of req) uid env st) as [[[|reason]|error|] st1];
    cbn [fst] in Hrl.
  - pose proof (sendEmail_unmodelled env st1 (json req)) as Hse.
    destruct (fst (sendEmail (json req) env st1)) as [[]|error|].
    + split; [discriminate|]. split; [intros ? [= <-]; cbn; tauto | discriminate].
    + split; [discriminate|]. split; [intros ? [= <-]; cbn; tauto | discriminate].
    + split; [discriminate|]. split; [discriminate | intros _; apply Hse; reflexivity].
  - split; [discriminate|]. split; [intros ? [= <-]; cbn; tauto | discriminate].
  - split; [discriminate|]. split; [intros ? [= <-]; cbn; tauto | discriminate].
  - contradiction.
Qed.

Lemma serve_always_answers_witness :
  In (status_of {| status_of := 401;
                   body := error_body "User not authenticated" |})
     [200; 400; 401; 429; 500].
Proof.
  destruct (serve_always_answers sample_env empty_state
              {| method := "POST"; authorization_header := Some "Bearer mallory";
                 json := malformed_recipient |}) as (_ & H & _).
  apply H. reflexivity.
Defined.

Ltac no_more_events :=
  intros [= <- <-]; split; [reflexivity|]; exists [];
  rewrite app_nil_r; cbn; auto.

Ltac some_events :=
  intros [= <- <-]; split; [reflexivity|]; cbn [trace email_logs];
  rewrite <- ?app_assoc; eexists; split; [reflexivity|];
  cbn; split; [reflexivity | lia].

(** [sendEmail] writes nothing to the table and posts at most once. *)
Lemma sendEmail_effects (env : Env) (st st' : State)
    (emailData : EmailRequest) (out : Outcome unit) :
  sendEmail emailData env st = (out, st') →
  email_logs st' = email_logs st
  ∧ ∃ evs : list Event, trace st' = (trace st ++ evs)%list
      ∧ inserts evs = [] ∧ (length (fetches evs) ≤ 1)%nat.
Proof.
  unfold sendEmail. run_handler.
  destruct (present (RESEND_API_KEY env)); cbn [negb]; [|no_more_events].
  destruct (present (req_template emailData)).
  - destruct (renderTemplate _ _) as [r| |]; [|no_more_events..].
    destruct (negb _ && negb _); [no_more_events|].
    destruct (provider env _) as [m|code body [m|]];
      [|destruct (negb (ok code))..]; some_events.
  - destruct (negb _ && negb _); [no_more_events|].
    destruct (provider env _) as [m|code body [m|]];
      [|destruct (negb (ok code))..]; some_events.
Qed.

(** ** What a request can do to the table *)

Lemma extends_refl (st : State) : extends st st [] [].
Proof. unfold extends. rewrite !app_nil_r. auto. Qed.

Lemma extends_trans (st1 st2 st3 : State) (rows1 rows2 : list EmailLog)
    (evs1 evs2 : list Event) :
  extends st1 st2 rows1 evs1 → extends st2 st3 rows2 evs2 →
  extends st1 st3 (rows1 ++ rows2) (evs1 ++ evs2).
Proof.
  intros [H1 H2] [H3 H4]. unfold extends.
  rewrite H3, H4, H1, H2, <- !app_assoc. auto.
Qed.

Lemma extends_emit (st st' : State) (rows : list EmailLog) (evs : list Event)
    (ev : Event) :
  extends st st' rows evs →
  extends st {| email_logs := email_logs st'; trace := trace st' ++ [ev] |}
    rows (evs ++ [ev]).
Proof.
  intros [H1 H2]. unfold extends. cbn [email_logs trace].
  rewrite H1, H2, <- !app_assoc. auto.
Qed.

Lemma logEmail_extends (env : Env) (st st' : State) (supabase : SupabaseClient)
    (uid : string) (emailData : EmailRequest) (status : Status)
    (error : option string) (out : Outcome unit) :
  logEmail supabase uid emailData status error env st = (out, st') →
  ∃ (rows : list EmailLog) (evs : list Event),
    extends st st' rows evs
    ∧ (length rows ≤ 1)%nat ∧ length (inserts evs) = 1%nat ∧ fetches evs = []
    ∧ Forall (λ row, getUser env (authorization supabase) = Some (user_id row)
                     ∧ Some (recipient row) = req_to emailData
                     ∧ Some (subject row) = req_subject emailData
                     ∧ created_at row = db_clock env) rows.
Proof.
  unfold logEmail, insert_row. run_handler.
  cbv [append_row]. cbn [new_recipient new_subject new_user_id email_logs trace].
  destruct (insert_error env).
  { intros [= <- <-]. exists [], [InsertRow (getUser env (authorization supabase))
      {| new_user_id := uid; new_recipient := req_to emailData;
         new_subject := req_subject emailData;
         new_template := or_null (req_template emailData);
         new_status := status; new_error_message := or_null error |};
      ConsoleError "Error logging email:"].
    unfold extends. cbn. rewrite app_nil_r, <- app_assoc. auto 10. }
  destruct (req_to emailData) as [to|].
  2:{ intros [= <- <-]. exists [], [InsertRow (getUser env (authorization supabase))
      {| new_user_id := uid; new_recipient := None;
         new_subject := req_subject emailData;
         new_template := or_null (req_template emailData);
         new_status := status; new_error_message := or_null error |};
      ConsoleError "Error logging email:"].
    unfold extends. cbn. rewrite app_nil_r, <- app_assoc. auto 10. }
  destruct (req_subject emailData) as [subj|].
  2:{ intros [= <- <-]. exists [], [InsertRow (getUser env (authorization supabase))
      {| new_user_id := uid; new_recipient := Some to;
         new_subject := None;
         new_template := or_null (req_template emailData);
         new_status := status; new_error_message := or_null error |};
      ConsoleError "Error logging email:"].
    unfold extends. cbn. rewrite app_nil_r, <- app_assoc. auto 10. }
  destruct (decide _) as [Hu|Hu].
  - intros [= <- <-]. eexists [_], [_]. unfold extends. cbn.
    repeat split; try reflexivity; try lia.
    constructor; [|constructor]. cbn. auto.
  - intros [= <- <-]. exists [], [InsertRow (getUser env (authorization supabase))
      {| new_user_id := uid; new_recipient := Some to;
         new_subject := Some subj;
         new_template := or_null (req_template emailData);
         new_status := status; new_error_message := or_null error |};
      ConsoleError "Error logging email:"].
    unfold extends. cbn. rewrite app_nil_r, <- app_assoc. auto 10.
Qed.

Lemma checkRateLimit_extends (env : Env) (st st1 : State)
    (supabase : SupabaseClient) (uid : string) (out : Outcome RateLimitCheck) :
  checkRateLimit supabase uid env st = (out, st1) →
  ∃ evs : list Event, extends st st1 [] evs ∧ inserts evs = [] ∧ fetches evs = [].
Proof.
  intros H. destruct (checkRateLimit_effects _ _ _ _ _ _ H) as (Hl & (evs & Ht & Hq) & _).
  exists evs. unfold extends. rewrite app_nil_r.
  destruct (quiet_no_inserts _ Hq). auto.
Qed.

Lemma sendEmail_extends (env : Env) (st st' : State)
    (emailData : EmailRequest) (out : Outcome unit) :
  sendEmail emailData env st = (out, st') →
  ∃ evs : list Event, extends st st' [] evs
    ∧ inserts evs = [] ∧ (length (fetches evs) ≤ 1)%nat.
Proof.
  intros H. destruct (sendEmail_effects _ _ _ _ _ H) as (Hl & evs & Ht & Hi & Hf).
  exists evs. unfold extends. rewrite app_nil_r. auto.
Qed.

(** X13.  Whatever the request, the store and the provider do, one call
    of the handler leaves the records of the table as they are and adds
    at most one at its end; it asks for at most one insert and calls the
    provider at most once.  A record it adds belongs to the user the
    Authorization header resolves to, carries the recipient and the
    subject of the request and is timestamped by the store. *)
Theorem serve_stores_at_most_one (env : Env) (st : State) (req : HttpRequest) :
  ∃ (rows : list EmailLog) (evs : list Event),
    extends st (snd (serve req env st)) rows evs
    ∧ (length rows ≤ 1)%nat
    ∧ (length (inserts evs) ≤ 1)%nat
    ∧ (length (fetches evs) ≤ 1)%nat
    ∧ Forall (own_record env req) rows.
Proof.
  assert (Hnone : ∃ (rows : list EmailLog) (evs : list Event),
    extends st st rows evs ∧ (length rows ≤ 1)%nat
    ∧ (length (inserts evs) ≤ 1)%nat ∧ (length (fetches evs) ≤ 1)%nat
    ∧ Forall (own_record env req) rows).
  { exists [], []. split; [apply extends_refl|]. cbn. auto. }
  unfold serve. destruct (String.eqb (method req) "OPTIONS"); [exact Hnone|].
  run_handler. destruct (present (authorization_header req)); [|exact Hnone].
  cbn [negb authorization].
  destruct (getUser env _) as [uid|] eqn:Huid; [|exact Hnone].
  destruct (negb _ || negb _); [exact Hnone|].
  fold (client_of req).
  destruct (checkRateLimit (client_of req) uid env st) as [out st1] eqn:Hrl.
  destruct (checkRateLimit_extends _ _ _ _ _ _ Hrl) as (evs1 & H1 & Hi1 & Hf1).
  destruct out as [[|reason]|error|].
  - destruct (sendEmail (json req) env st1) as [out2 st2] eqn:Hsend.
    destruct (sendEmail_extends _ _ _ _ _ Hsend) as (evs2 & H2 & Hi2 & Hf2).
    pose proof (extends_trans _ _ _ _ _ _ _ H1 H2) as H12.
    destruct out2 as [[]|error|].
    + destruct (logEmail (client_of req) uid (json req) sent None env st2)
        as [out3 st3] eqn:Hlog.
      pose proof (logEmail_returns env st2 (client_of req) uid (json req) sent None)
        as Hret. rewrite Hlog in Hret. cbn [fst] in Hret. subst out3.
      destruct (logEmail_extends _ _ _ _ _ _ _ _ _ Hlog)
        as (rows & evs3 & H3 & Hr & Hi3 & Hf3 & Hown).
      pose proof (extends_trans _ _ _ _ _ _ _ H12 H3) as H123.
      exists (([] ++ []) ++ rows)%list, ((evs1 ++ evs2) ++ evs3)%list.
      cbn [snd]. split; [exact H123|]. cbn [app].
      unfold inserts, fetches in *. rewrite !List.filter_app, !length_app.
      rewrite Hi1, Hi2, Hi3, Hf1, Hf3. cbn [length].
      repeat split; try lia.
      unfold own_record. cbn [client_of authorization] in Hown. exact Hown.
    + destruct (logEmail (client_of req) uid (json req) failed
                  (Some (message_of error)) env st2) as [out3 st3] eqn:Hlog.
      pose proof (logEmail_returns env st2 (client_of req) uid (json req) failed
                    (Some (message_of error))) as Hret.
      rewrite Hlog in Hret. cbn [fst] in Hret. subst out3.
      destruct (logEmail_extends _ _ _ _ _ _ _ _ _ Hlog)
        as (rows & evs3 & H3 & Hr & Hi3 & Hf3 & Hown).
      pose proof (extends_trans _ _ _ _ _ _ _ H12 H3) as H123.
      pose proof (extends_emit _ _ _ _
                    (ConsoleError "Error in send-email-notification:") H123) as H4.
      exists (([] ++ []) ++ rows)%list,
             (((evs1 ++ evs2) ++ evs3) ++
              [ConsoleError "Error in send-email-notification:"])%list.
      cbn [snd]. split; [exact H4|]. cbn [app].
      unfold inserts, fetches in *. rewrite !List.filter_app, !length_app.
      rewrite Hi1, Hi2, Hi3, Hf1, Hf3. cbn [length List.filter is_insert is_fetch].
      repeat split; try lia.
      unfold own_record. cbn [client_of authorization] in Hown. exact Hown.
    + exists ([] ++ [])%list, (evs1 ++ evs2)%list. cbn [snd]. split; [exact H12|].
      unfold inserts, fetches in *. rewrite !List.filter_app, !length_app.
      rewrite Hi1, Hi2, Hf1. cbn. repeat split; try lia. constructor.
  - destruct (logEmail (client_of req) uid (json req) failed (Some reason) env st1)
      as [out3 st3] eqn:Hlog.
    pose proof (logEmail_returns env st1 (client_of req) uid (json req) failed
                  (Some reason)) as Hret.
    rewrite Hlog in Hret. cbn [fst] in Hret. subst out3.
    destruct (logEmail_extends _ _ _ _ _ _ _ _ _ Hlog)
      as (rows & evs3 & H3 & Hr & Hi3 & Hf3 & Hown).
    pose proof (extends_trans _ _ _ _ _ _ _ H1 H3) as H13.
    exists ([] ++ rows)%list, (evs1 ++ evs3)%list.
    cbn [snd]. split; [exact H13|]. cbn [app].
    unfold inserts, fetches in *. rewrite !List.filter_app, !length_app.
    rewrite Hi1, Hi3, Hf1, Hf3. cbn [length].
    repeat split; try lia.
    unfold own_record. cbn [client_of authorization] in Hown. exact Hown.
  - pose proof (extends_emit _ _ _ _
                  (ConsoleError "Error in send-email-notification:") H1) as H4.
    exists [], (evs1 ++ [ConsoleError "Error in send-email-notification:"])%list.
    cbn [snd]. split; [exact H4|].
    unfold inserts, fetches in *. rewrite !List.filter_app, !length_app.
    rewrite Hi1, Hf1. cbn. repeat split; try lia. constructor.
  - exists [], evs1. cbn [snd]. split; [exact H1|].
    rewrite Hi1, Hf1. cbn. repeat split; try lia. constructor.
Qed.

(** [logEmail] returns: the handler goes on after it. *)
Ltac log_returns :=
  match goal with
  | |- context [logEmail ?c ?u ?d ?s ?e ?env ?st] =>
      let Hret := fresh "Hret" in
      let out := fresh "out" in
      let st' := fresh "st" in
      pose proof (logEmail_returns env st c u d s e) as Hret;
      destruct (logEmail c u d s e env st) as [out st'];
      cbn [fst] in Hret; subst out
  end.

(** X14.  An answer 400 or 401, and the answer to an OPTIONS request,
    come before anything is done: the store is not queried, nothing is
    logged, the provider is not called. *)
Theorem refusal_changes_nothing (env : Env) (st st' : State)
    (req : HttpRequest) (response : Response) :
  serve req env st = (Return response, st') →
  String.eqb (method req) "OPTIONS" = true
  ∨ status_of response = 400 ∨ status_of response = 401 →
  st' = st.
Proof.
  unfold serve. destruct (String.eqb (method req) "OPTIONS").
  { intros [= _ <-] _. reflexivity. }
  intros Hserve [Hm | Hstatus]; [discriminate|]. revert Hserve.
  run_handler. destruct (present (authorization_header req));
    [|intros [= _ <-]; reflexivity].
  cbn [negb authorization].
  destruct (getUser env _) as [uid|]; [|intros [= _ <-]; reflexivity].
  destruct (negb _ || negb _); [intros [= _ <-]; reflexivity|].
  fold (client_of req).
  destruct (checkRateLimit (client_of req) uid env st) as [[[|reason]|error|] st1].
  - destruct (sendEmail (json req) env st1) as [[[]|error|] st2].
    + log_returns. intros [= <- _]. cbn in Hstatus. lia.
    + log_returns. intros [= <- _]. cbn in Hstatus. lia.
    + discriminate.
  - log_returns. intros [= <- _]. cbn in Hstatus. lia.
  - intros [= <- _]. cbn in Hstatus. lia.
  - discriminate.
Qed.

Lemma refusal_changes_nothing_witness :
  snd (serve {| method := "POST"; authorization_header := Some "Bearer mallory";
                json := malformed_recipient |}
         sample_env (state_of (alice_rows [(sent, noon)])))
  = state_of (alice_rows [(sent, noon)]).
Proof.
  apply (refusal_changes_nothing sample_env _ _
           {| method := "POST"; authorization_header := Some "Bearer mallory";
              json := malformed_recipient |}
           {| status_of := 401; body := error_body "User not authenticated" |}).
  - reflexivity.
  - right. right. reflexivity.
Defined.

(** X15.  On a deployment without a provider key, a request that names
    its recipient and subject and passes the rate limiter gets the
    answer 500 with "RESEND_API_KEY is not configured"; the provider is
    not called, and the attempt is logged as [failed] with that
    message. *)
Theorem missing_key_is_logged (env : Env) (st st1 : State)
    (req : HttpRequest) (uid : string) :
  authenticated env req uid →
  present (req_to (json req)) = true →
  present (req_subject (json req)) = true →
  checkRateLimit (client_of req) uid env st = (Return allowed, st1) →
  present (RESEND_API_KEY env) = false →
  let row := log_entry uid (json req) failed
               (Some "RESEND_API_KEY is not configured") in
  ∃ (st' : State) (evs : list Event),
    serve req env st =
      (Return {| status_of := 500;
                 body := error_body "RESEND_API_KEY is not configured" |}, st')
    ∧ trace st' = (trace st ++ evs)%list
    ∧ fetches evs = []
    ∧ inserts evs = [InsertRow (Some uid) row]
    ∧ new_error_message row = Some "RESEND_API_KEY is not configured"
    ∧ (insert_error env = None →
       email_logs st' =
       (email_logs st ++ [stored (length (email_logs st)) (db_clock env) row])%list).
Proof.
  intros Hauth Hto Hsubj Hrl Hkey row.
  assert (Hsend : sendEmail (json req) env st1
                  = (Throw (ErrorObj "RESEND_API_KEY is not configured"), st1)).
  { unfold sendEmail. run_handler. rewrite Hkey. reflexivity. }
  pose proof (serve_send_failed env st st1 st1 req uid _ Hauth Hto Hsubj Hrl Hsend)
    as Hserve. cbn zeta in Hserve. cbn [message_of] in Hserve. fold row in Hserve.
  destruct (checkRateLimit_effects _ _ _ _ _ _ Hrl) as (Hlogs & (evs1 & Htr1 & Hq1) & _).
  destruct (quiet_no_inserts _ Hq1) as [Hi1 Hf1].
  destruct (events_of_log env st st1
              {| email_logs := email_logs (after_log env st1 row);
                 trace := trace (after_log env st1 row)
                          ++ [ConsoleError "Error in send-email-notification:"] |}
              row evs1 [ConsoleError "Error in send-email-notification:"]
              Htr1 Hi1 eq_refl eq_refl) as (evs & Htr & Hins & Hfet).
  eexists. exists evs. split; [exact Hserve|]. cbn [trace email_logs].
  split; [exact Htr|]. split; [rewrite Hfet, Hf1; reflexivity|].
  split; [exact Hins|]. split; [reflexivity|].
  intros Hstore. rewrite (after_log_stored env st1 row Hstore), Hlogs. reflexivity.
Qed.

(** The same environment without a provider key. *)
Lemma missing_key_is_logged_witness :
  ∃ st',
    serve (alice_request malformed_recipient) sample_env_without_key empty_state
    = (Return {| status_of := 500;
                 body := error_body "RESEND_API_KEY is not configured" |}, st')
    ∧ length (email_logs st') = 1%nat.
Proof.
  destruct (missing_key_is_logged sample_env_without_key empty_state
              (snd (checkRateLimit (client_of (alice_request malformed_recipient))
                      "alice" sample_env_without_key empty_state))
              (alice_request malformed_recipient) "alice")
    as (st' & evs & Hserve & _ & _ & _ & _ & Hrows).
  - repeat split; reflexivity.
  - reflexivity.
  - reflexivity.
  - vm_compute. reflexivity.
  - reflexivity.
  - exists st'. split; [exact Hserve|]. rewrite (Hrows eq_refl). reflexivity.
Defined.

(** X16.  When the store does not answer the limiter's hourly query,
    the request fails closed: nothing is sent and nothing is logged.
    The answer is 500 with "Unknown error", whatever the message of the
    store's error: the handler throws the error object of the query,
    which is not an [Error]. *)
Theorem limiter_failure_fails_closed (env : Env) (st : State)
    (req : HttpRequest) (uid : string) (e : QueryError) :
  authenticated env req uid →
  present (req_to (json req)) = true →
  present (req_subject (json req)) = true →
  select_error env [eq_user_id uid; gte_created_at (clock env - hour)] = Some e →
  ∃ (st' : State) (evs : list Event),
    serve req env st =
      (Return {| status_of := 500; body := error_body "Unknown error" |}, st')
    ∧ email_logs st' = email_logs st
    ∧ trace st' = (trace st ++ evs)%list
    ∧ fetches evs = [] ∧ inserts evs = [].
Proof.
  intros (Hm & Hh & Hu) Hto Hsubj Herr. unfold serve. rewrite Hm. run_handler.
  rewrite Hh. cbn [negb authorization]. rewrite Hu, Hto, Hsubj. cbn [negb orb].
  unfold checkRateLimit, select_count. run_handler. cbn [authorization].
  rewrite Hu. change (60 * 60 * 1000) with hour. rewrite Herr.
  cbn [error count email_logs trace].
  eexists. eexists. split; [reflexivity|]. cbn [email_logs trace].
  split; [reflexivity|]. rewrite <- !app_assoc. split; [reflexivity|].
  split; reflexivity.
Qed.

Lemma limiter_failure_fails_closed_witness :
  ∃ st',
    serve (alice_request malformed_recipient) sample_env_store_down
      (state_of (alice_rows [(sent, noon)]))
    = (Return {| status_of := 500; body := error_body "Unknown error" |}, st')
    ∧ email_logs st' = alice_rows [(sent, noon)].
Proof.
  destruct (limiter_failure_fails_closed sample_env_store_down
              (state_of (alice_rows [(sent, noon)]))
              (alice_request malformed_recipient) "alice"
              {| query_message := "connection refused" |})
    as (st' & evs & Hserve & Hrows & _).
  - repeat split; reflexivity.
  - reflexivity.
  - reflexivity.
  - reflexivity.
  - exists st'. split; [exact Hserve | exact Hrows].
Defined.

(** ** What the limiter reads *)

Lemma select_rows_window (u : option string) (uid : string) (now since : Z)
    (rows : list EmailLog) :
  now - day ≤ since →
  length (select_rows u [eq_user_id uid; gte_created_at since] rows) =
  if decide (u = Some uid)
  then length (filter (λ t, since ≤ t) (window_of rows uid now))
  else 0%nat.
Proof.
  intros Hsince. unfold select_rows, rls_visible, window_of.
  rewrite list_filter_filter.
  induction rows as [|r rows IH]; [destruct (decide _); reflexivity|].
  rewrite (filter_cons (in_window uid now)), !filter_cons.
  cbn [forallb satisfies]. rewrite andb_true_r.
  destruct (decide (in_window uid now r)) as [[Hu Hw]|Hout].
  - rewrite fmap_cons, filter_cons.
    destruct (decide (u = Some uid)) as [->|Hne].
    + destruct (decide (since ≤ created_at r)) as [Hs|Hs].
      * rewrite decide_True; [cbn [length]; f_equal; exact IH|].
        rewrite andb_true_iff, String.eqb_eq, Z.leb_le, Hu. auto.
      * rewrite decide_False; [exact IH|].
        rewrite andb_true_iff, Z.leb_le. tauto.
    + rewrite decide_False; [exact IH|].
      rewrite andb_true_iff, String.eqb_eq. intros [[? ?] ?]. congruence.
  - rewrite decide_False; [exact IH|].
    rewrite andb_true_iff, String.eqb_eq, Z.leb_le.
    intros [[? ?] ?]. apply Hout. split; [assumption | lia].
Qed.

(** X17.  The verdict of the limiter depends on the table only through
    the timestamps of the caller's own records of the last 24 hours:
    records of other users, older records, and the status, recipient and
    subject of a record have no part in it. *)
Theorem limiter_reads_own_window (env : Env) (st st' : State)
    (supabase : SupabaseClient) (uid : string) :
  window_of (email_logs st) uid (clock env)
  = window_of (email_logs st') uid (clock env) →
  fst (checkRateLimit supabase uid env st)
  = fst (checkRateLimit supabase uid env st').
Proof.
  intros Hwin. unfold checkRateLimit, select_count. run_handler.
  cbn [error count email_logs trace].
  change (60 * 60 * 1000) with hour. change (24 * 60 * 60 * 1000) with day.
  destruct (select_error env _); [reflexivity|]. cbn [error count default].
  rewrite !(select_rows_window _ uid (clock env) (clock env - hour))
    by (unfold hour, day; lia).
  cbn [email_logs]. rewrite Hwin.
  destruct (_ <=? _); [reflexivity|].
  destruct (select_error env _); [reflexivity|]. cbn [error count default].
  rewrite !(select_rows_window _ uid (clock env) (clock env - day)) by lia.
  cbn [email_logs]. rewrite Hwin.
  destruct (_ <=? _); reflexivity.
Qed.

Lemma limiter_reads_own_window_witness :
  fst (checkRateLimit alice_client "alice" sample_env
         (state_of (alice_rows (replicate 10 (failed, noon - 1000)))))
  = fst (checkRateLimit alice_client "alice" sample_env
           (state_of (stranger_row :: alice_rows (replicate 10 (sent, noon - 1000))))).
Proof.
  apply limiter_reads_own_window. reflexivity.
Defined.

(** X18.  With a store that answers and takes inserts, every request of
    an authenticated user that names its recipient and subject leaves
    exactly one more record of that user, timestamped by the store,
    [sent] when the answer is 200 and [failed] otherwise: a rejected or
    failed attempt consumes the sender's quota like a delivered one. *)
Theorem every_attempt_consumes_quota (env : Env) (st st' : State)
    (req : HttpRequest) (uid : string) (response : Response) :
  authenticated env req uid →
  present (req_to (json req)) = true →
  present (req_subject (json req)) = true →
  selects_succeed env → insert_error env = None →
  serve req env st = (Return response, st') →
  ∃ row : EmailLog,
    email_logs st' = (email_logs st ++ [row])%list
    ∧ user_id row = uid
    ∧ created_at row = db_clock env
    ∧ (status row = sent ↔ status_of response = 200)
    ∧ ∀ since, since ≤ db_clock env →
        countSince (email_logs st') uid since
        = countSince (email_logs st) uid since + 1.
Proof.
  intros Hauth Hto Hsubj Hsel Hstore Hserve.
  assert (Hgoal : ∀ (s : Status) (e : option string),
    email_logs st' =
      (email_logs st ++ [stored (length (email_logs st)) (db_clock env)
                           (log_entry uid (json req) s e)])%list →
    (s = sent ↔ status_of response = 200) →
    ∃ row : EmailLog,
      email_logs st' = (email_logs st ++ [row])%list
      ∧ user_id row = uid
      ∧ created_at row = db_clock env
      ∧ (status row = sent ↔ status_of response = 200)
      ∧ ∀ since, since ≤ db_clock env →
          countSince (email_logs st') uid since
          = countSince (email_logs st) uid since + 1).
  { intros s e Hrows Hstatus. eexists. split; [exact Hrows|].
    split; [reflexivity|]. split; [reflexivity|]. split; [exact Hstatus|].
    intros since Hsince. rewrite Hrows, countSince_snoc.
    rewrite decide_True; [reflexivity|]. cbn. auto. }
  destruct (checkRateLimit (client_of req) uid env st) as [out st1] eqn:Hrl.
  destruct (checkRateLimit_effects _ _ _ _ _ _ Hrl) as (Hlogs1 & _ & _).
  assert (Hout : ∃ verdict, out = Return verdict).
  { destruct Hauth as (_ & _ & Hu).
    pose proof (checkRateLimit_run env st (client_of req) uid Hu Hsel) as Hrun.
    cbn zeta in Hrun. rewrite Hrl in Hrun.
    destruct (_ <=? _); injection Hrun as -> _; eauto. }
  destruct Hout as [[|reason] ->].
  - destruct (sendEmail (json req) env st1) as [[[]|error|] st2] eqn:Hsend;
      destruct (sendEmail_effects _ _ _ _ _ Hsend) as (Hlogs2 & _).
    + rewrite (serve_sent env st st1 st2 req uid Hauth Hto Hsubj Hrl Hsend) in Hserve.
      injection Hserve as <- <-. apply (Hgoal sent None).
      * rewrite (after_log_stored _ _ _ Hstore), Hlogs2, Hlogs1. reflexivity.
      * cbn. tauto.
    + rewrite (serve_send_failed env st st1 st2 req uid error
                 Hauth Hto Hsubj Hrl Hsend) in Hserve.
      injection Hserve as <- <-. apply (Hgoal failed (Some (message_of error))).
      * cbn [email_logs].
        rewrite (after_log_stored _ _ _ Hstore), Hlogs2, Hlogs1. reflexivity.
      * cbn. split; [discriminate | lia].
    + exfalso. pose proof (serve_response env st req) as Hr.
      destruct Hauth as (Hm & Hh & Hu). rewrite Hserve, Hm, Hh in Hr.
      cbn [negb fst] in Hr. rewrite Hu, Hto, Hsubj, Hrl, Hsend in Hr.
      discriminate Hr.
  - rewrite (serve_rejected env st st1 req uid reason Hauth Hto Hsubj Hrl) in Hserve.
    injection Hserve as <- <-. apply (Hgoal failed (Some reason)).
    + rewrite (after_log_stored _ _ _ Hstore), Hlogs1. reflexivity.
    + cbn. split; [discriminate | lia].
Qed.

Lemma every_attempt_consumes_quota_witness :
  ∃ row : EmailLog,
    email_logs (snd (serve (alice_request no_content) sample_env
                       (state_of (alice_rows (replicate 10 (sent, noon - 1000))))))
    = (alice_rows (replicate 10 (sent, noon - 1000)) ++ [row])%list
    ∧ status row = failed.
Proof.
  destruct (every_attempt_consumes_quota sample_env
              (state_of (alice_rows (replicate 10 (sent, noon - 1000))))
              (snd (serve (alice_request no_content) sample_env
                      (state_of (alice_rows (replicate 10 (sent, noon - 1000))))))
              (alice_request no_content) "alice"
              {| status_of := 429;
                 body := error_body
                   "Hourly rate limit exceeded. Maximum 10 emails per hour." |})
    as (row & Hrows & _ & _ & Hstatus & _).
  - repeat split; reflexivity.
  - reflexivity.
  - reflexivity.
  - intros filters. reflexivity.
  - reflexivity.
  - vm_compute. reflexivity.
  - exists row. split; [exact Hrows|].
    destruct (status row); [|reflexivity].
    destruct Hstatus as [Hs _]. discriminate (Hs eq_refl).
Defined.

(** ** The client's pre-check against the limiter *)

Lemma select_rows_le_countSince (uid : string) (s : Status) (since since' : Z)
    (rows : list EmailLog) :
  since' ≤ since →
  Z.of_nat (length
    (select_rows (Some uid) [eq_status s; gte_created_at since] rows))
  ≤ countSince rows uid since'.
Proof.
  intros Hsince. unfold select_rows, rls_visible, countSince.
  rewrite list_filter_filter. apply inj_le.
  induction rows as [|r rows IH]; [reflexivity|].
  rewrite !filter_cons. cbn [forallb satisfies] in IH |- *.
  destruct (decide (_ ∧ _)) as [[[Hu Hs]%andb_true_iff Hvis]|_].
  - rewrite andb_true_r in Hs. apply Z.leb_le in Hs.
    rewrite decide_True; [cbn [length]; lia|].
    split; [congruence | lia].
  - destruct (decide _); cbn [length]; lia.
Qed.

(** In UTC a day has 24 hours. *)
Lemma utc_midnight_within_day (now : Z) :
  now - day < utc_midnight now ≤ now.
Proof.
  unfold utc_midnight, day.
  pose proof (Z.mod_pos_bound now (24 * 60 * 60 * 1000) ltac:(lia)). lia.
Qed.

Lemma getStats_run (env : Env) (st : State) (supabase : SupabaseClient)
    (uid : string) :
  getUser env (authorization supabase) = Some uid →
  selects_succeed env →
  let today := startOfLocalDay env (clock env) in
  let n filters :=
    Z.of_nat (length (select_rows (Some uid) filters (email_logs st))) in
  fst (getStats supabase env st) =
  Return {| sentToday := n [eq_status sent; gte_created_at today];
            sentThisHour := n [eq_status sent; gte_created_at (clock env - hour)];
            failedToday := n [eq_status failed; gte_created_at today];
            totalSent := n [eq_status sent] |}.
Proof.
  intros Hu Hsel today n. unfold getStats, select_count. run_handler.
  rewrite Hu, !Hsel. cbn [count default email_logs fst]. reflexivity.
Qed.

Lemma select_rows_none (uid : string) (filters : list Filter)
    (rows : list EmailLog) :
  (∀ r, In r rows → user_id r = uid → forallb (satisfies r) filters = false) →
  select_rows (Some uid) filters rows = [].
Proof.
  unfold select_rows, rls_visible. rewrite list_filter_filter.
  induction rows as [|r rows IH]; intros H; [reflexivity|].
  rewrite filter_cons, IH by (intros r' Hr'; apply H; right; exact Hr').
  destruct (decide _) as [[Hsat [= Hu]]|_]; [|reflexivity].
  rewrite (H r (or_introl eq_refl) (eq_sym Hu)) in Hsat. discriminate Hsat.
Qed.

Lemma countSince_none (uid : string) (since : Z) (rows : list EmailLog) :
  (∀ r, In r rows → user_id r = uid → created_at r < since) →
  countSince rows uid since = 0.
Proof.
  intros H. rewrite <- select_rows_own, select_rows_none; [reflexivity|].
  intros r Hr Hu. cbn [forallb satisfies].
  apply andb_false_iff. right. apply andb_false_iff. left.
  apply Z.leb_gt, (H r Hr Hu).
Qed.

(** C10.  The client-side pre-check and the server disagree, with the
    limits the repository ships on both sides and one clock.  (1) On a
    history in which the user's records all have status [failed], ten or
    more of them within the last hour: [getStats] counts only the records
    with status [sent], so [canSend] is true, while [checkRateLimit]
    counts every record and rejects for the hour.  (2) On a history in
    which the user's records are all from before the start of the local
    calendar day and more than an hour old, fifty or more of them within
    the last 24 hours: [getStats] counts from the start of the local day,
    so [canSend] is true, while [checkRateLimit] counts the last 24 hours
    and rejects for the day. *)
Theorem client_precheck_not_server_check (env : Env) (st : State)
    (supabase : SupabaseClient) (uid : string) :
  getUser env (authorization supabase) = Some uid →
  selects_succeed env →
  rateLimitConfig env = shipped_limits →
  ((∀ r, In r (email_logs st) → user_id r = uid → status r = failed) →
   10 ≤ countSince (email_logs st) uid (clock env - hour) →
   ∃ stats,
     fst (getStats supabase env st) = Return stats
     ∧ canSend (calculateRemainingEmails stats RATE_LIMITS) = true
     ∧ fst (checkRateLimit supabase uid env st)
       = Return (not_allowed
                   "Hourly rate limit exceeded. Maximum 10 emails per hour."))
  ∧ ((∀ r, In r (email_logs st) → user_id r = uid →
           created_at r < startOfLocalDay env (clock env)
           ∧ created_at r < clock env - hour) →
     50 ≤ countSince (email_logs st) uid (clock env - day) →
     ∃ stats,
       fst (getStats supabase env st) = Return stats
       ∧ canSend (calculateRemainingEmails stats RATE_LIMITS) = true
       ∧ fst (checkRateLimit supabase uid env st)
         = Return (not_allowed
                     "Daily rate limit exceeded. Maximum 50 emails per day.")).
Proof.
  intros Hu Hsel Hcfg.
  pose proof (getStats_run env st supabase uid Hu Hsel) as Hstats.
  pose proof (checkRateLimit_run env st supabase uid Hu Hsel) as Hrun.
  cbn beta zeta in Hstats, Hrun. rewrite Hcfg in Hrun.
  cbn [shipped_limits maxEmailsPerHour maxEmailsPerDay] in Hrun.
  split.
  - intros Hfailed Hten. eexists. split; [exact Hstats|].
    assert (Hsent : ∀ since,
      select_rows (Some uid) [eq_status sent; gte_created_at since]
        (email_logs st) = []).
    { intros since. apply select_rows_none. intros r Hr Hr'.
      cbn [forallb satisfies]. rewrite (Hfailed r Hr Hr'). reflexivity. }
    rewrite !Hsent. split; [reflexivity|].
    rewrite Hrun. apply Z.leb_le in Hten. rewrite Hten. reflexivity.
  - intros Hold Hfifty. eexists. split; [exact Hstats|].
    rewrite (select_rows_none uid [eq_status sent; gte_created_at
                                     (startOfLocalDay env (clock env))]).
    2:{ intros r Hr Hr'. cbn [forallb satisfies].
        destruct (Hold r Hr Hr') as [Hday _].
        apply andb_false_iff. right. apply andb_false_iff. left.
        apply Z.leb_gt, Hday. }
    rewrite (select_rows_none uid [eq_status sent; gte_created_at
                                     (clock env - hour)]).
    2:{ intros r Hr Hr'. cbn [forallb satisfies].
        destruct (Hold r Hr Hr') as [_ Hhour].
        apply andb_false_iff. right. apply andb_false_iff. left.
        apply Z.leb_gt, Hhour. }
    split; [reflexivity|].
    rewrite Hrun, (countSince_none uid (clock env - hour))
      by (intros r Hr Hr'; apply (Hold r Hr Hr')).
    apply Z.leb_le in Hfifty. rewrite Hfifty. reflexivity.
Qed.

Lemma client_precheck_not_server_check_witness :
  (∃ stats,
     fst (getStats alice_client sample_env
            (state_of (alice_rows (replicate 10 (failed, noon - 1000)))))
     = Return stats
     ∧ canSend (calculateRemainingEmails stats RATE_LIMITS) = true
     ∧ fst (checkRateLimit alice_client "alice" sample_env
              (state_of (alice_rows (replicate 10 (failed, noon - 1000)))))
       = Return (not_allowed
                   "Hourly rate limit exceeded. Maximum 10 emails per hour."))
  ∧ (∃ stats,
       fst (getStats alice_client sample_env
              (state_of (alice_rows (replicate 50 (sent, noon - 13 * hour)))))
       = Return stats
       ∧ canSend (calculateRemainingEmails stats RATE_LIMITS) = true
       ∧ fst (checkRateLimit alice_client "alice" sample_env
                (state_of (alice_rows (replicate 50 (sent, noon - 13 * hour)))))
         = Return (not_allowed
                     "Daily rate limit exceeded. Maximum 50 emails per day.")).
Proof.
  split.
  - destruct (client_precheck_not_server_check sample_env
                (state_of (alice_rows (replicate 10 (failed, noon - 1000))))
                alice_client "alice") as [H _].
    + reflexivity.
    + intros filters. reflexivity.
    + reflexivity.
    + apply H.
      * apply (proj1 (List.Forall_forall
                        (λ r, user_id r = "alice" → status r = failed) _)).
        repeat (constructor; [intros _; reflexivity|]). constructor.
      * vm_compute. discriminate.
  - destruct (client_precheck_not_server_check sample_env
                (state_of (alice_rows (replicate 50 (sent, noon - 13 * hour))))
                alice_client "alice") as [_ H].
    + reflexivity.
    + intros filters. reflexivity.
    + reflexivity.
    + apply H.
      * apply (proj1 (List.Forall_forall
                        (λ r, user_id r = "alice" →
                              created_at r < startOfLocalDay sample_env
                                               (clock sample_env)
                              ∧ created_at r < clock sample_env - hour) _)).
        repeat (constructor; [intros _; split; reflexivity|]). constructor.
      * vm_compute. discriminate.
Defined.

(** X19.  On a day that began less than 24 hours ago, the client's
    pre-check errs on one side only.  For a client and a server that
    read the same clock and the same table, with the shipped limits and
    a store that answers, at an instant whose local calendar day began
    within the last 24 hours: when [getStats] and
    [calculateRemainingEmails] say that the user cannot send, the limiter
    rejects the request.  (Late on a day that a change of clocks makes
    longer than 24 hours this fails: see [long_day_client_blocks_alone].) *)
Theorem client_block_implies_server_block (env : Env) (st : State)
    (supabase : SupabaseClient) (uid : string) (stats : EmailStats) :
  getUser env (authorization supabase) = Some uid →
  selects_succeed env →
  rateLimitConfig env = RATE_LIMITS →
  clock env - day ≤ startOfLocalDay env (clock env) →
  fst (getStats supabase env st) = Return stats →
  canSend (calculateRemainingEmails stats RATE_LIMITS) = false →
  ∃ reason, fst (checkRateLimit supabase uid env st) = Return (not_allowed reason).
Proof.
  intros Hu Hsel Hcfg Hlocal Hstats Hcan.
  rewrite (getStats_run env st supabase uid Hu Hsel) in Hstats.
  injection Hstats as <-.
  unfold calculateRemainingEmails in Hcan. cbn in Hcan.
  pose proof (select_rows_le_countSince uid sent _ (clock env - hour)
                (email_logs st) (Z.le_refl _)) as Hhour.
  pose proof (select_rows_le_countSince uid sent _ (clock env - day)
                (email_logs st) Hlocal) as Hday.
  rewrite (checkRateLimit_run env st supabase uid Hu Hsel). cbn zeta.
  rewrite Hcfg. cbn [RATE_LIMITS maxEmailsPerHour maxEmailsPerDay].
  destruct (10 <=? countSince (email_logs st) uid (clock env - hour)) eqn:Hh;
    [eauto|].
  destruct (50 <=? countSince (email_logs st) uid (clock env - day)) eqn:Hd;
    [eauto|].
  exfalso. apply Z.leb_gt in Hh, Hd.
  apply andb_false_iff in Hcan. destruct Hcan as [Hc | Hc];
    apply Z.ltb_ge in Hc; lia.
Qed.

Lemma client_block_implies_server_block_witness :
  ∃ reason,
    fst (checkRateLimit alice_client "alice" sample_env
           (state_of (alice_rows (replicate 10 (sent, noon - 1000)))))
    = Return (not_allowed reason).
Proof.
  apply (client_block_implies_server_block sample_env _ alice_client "alice"
           {| sentToday := 10; sentThisHour := 10; failedToday := 0;
              totalSent := 10 |}).
  - reflexivity.
  - intros filters. reflexivity.
  - reflexivity.
  - vm_compute. discriminate.
  - vm_compute. reflexivity.
  - reflexivity.
Defined.

(** Late on the day on which the clocks go back the pre-check errs on
    the other side: at 23:30 the local day is 24 hours and a half old,
    the fifty e-mails sent in its first minutes still count for the
    client and no longer for the limiter. *)
Lemma long_day_client_blocks_alone :
  let st := state_of (alice_rows (replicate 50 (sent, long_day_start + 600000))) in
  clock sample_env_long_day - startOfLocalDay sample_env_long_day
                                (clock sample_env_long_day)
  = day + 30 * 60 * 1000
  ∧ rateLimitConfig sample_env_long_day = RATE_LIMITS
  ∧ (∃ stats, fst (getStats alice_client sample_env_long_day st) = Return stats
              ∧ sentToday stats = 50
              ∧ canSend (calculateRemainingEmails stats RATE_LIMITS) = false)
  ∧ fst (checkRateLimit alice_client "alice" sample_env_long_day st)
    = Return allowed.
Proof.
  cbn zeta. split; [reflexivity|]. split; [reflexivity|]. split.
  - eexists. split; [vm_compute; reflexivity|]. split; reflexivity.
  - vm_compute. reflexivity.
Qed.

(** X20.  [getStats] does not look at the [error] of its queries: with
    a store that answers none of them it returns, and reports zero for
    every statistic, so that the pre-check permits sending and has no
    message to show. *)
Theorem getStats_hides_store_errors (env : Env) (st : State)
    (supabase : SupabaseClient) :
  (∀ filters, select_error env filters ≠ None) →
  let stats := {| sentToday := 0; sentThisHour := 0; failedToday := 0;
                  totalSent := 0 |} in
  fst (getStats supabase env st) = Return stats
  ∧ email_logs (snd (getStats supabase env st)) = email_logs st
  ∧ canSend (calculateRemainingEmails stats RATE_LIMITS) = true
  ∧ getRateLimitMessage stats RATE_LIMITS = None.
Proof.
  intros Hdown stats. unfold getStats, select_count. run_handler.
  repeat match goal with
  | |- context [select_error env ?f] =>
      let e := fresh "e" in
      let E := fresh "E" in
      destruct (select_error env f) as [e|] eqn:E;
        [clear E | exfalso; exact (Hdown f E)]
  end.
  cbn [count default fst snd email_logs]. repeat split; reflexivity.
Qed.

Lemma getStats_hides_store_errors_witness :
  fst (getStats alice_client sample_env_store_down
         (state_of (alice_rows (replicate 10 (sent, noon - 1000)))))
  = Return {| sentToday := 0; sentThisHour := 0; failedToday := 0;
              totalSent := 0 |}.
Proof.
  apply (getStats_hides_store_errors sample_env_store_down
           (state_of (alice_rows (replicate 10 (sent, noon - 1000))))
           alice_client).
  intros filters. discriminate.
Defined.

(** ** The client facade (client.ts) *)

Lemma send_cases (invoke : EmailRequest → InvokeResult)
    (emailRequest : EmailRequest) :
  send invoke emailRequest =
  match invoke emailRequest with
  | invoke_rejects (ErrorObj message) =>
      Throw (ErrorObj (if occurs "rate limit" message
                       then rate_limit_message RATE_LIMITS else message))
  | invoke_rejects NonError =>
      Throw (ErrorObj "Unknown error occurred while sending email")
  | invoke_resolves _ (Some error_message) =>
      let message := if present error_message then default "" error_message
                     else "Failed to send email" in
      Throw (ErrorObj (if occurs "rate limit" message
                       then rate_limit_message RATE_LIMITS else message))
  | invoke_resolves None None =>
      Throw (ErrorObj "No response from email service")
  | invoke_resolves (Some data) None => Return data
  end.
Proof.
  unfold send.
  destruct (invoke emailRequest) as [[m|]|[d|] [em|]]; cbn zeta;
    try reflexivity;
    match goal with
    | |- context [occurs "rate limit" ?m] => destruct (occurs "rate limit" m)
    end; reflexivity.
Qed.

(** X21.  What [send] makes of the outcome of the call.  It returns
    exactly when the call resolves with data and without error;
    otherwise it throws, and always an [Error].  The message is that of
    the [Error] the call rejects with, or that of the error it resolves
    with ('Failed to send email' when it has none), or 'No response from
    email service' when there is neither error nor data; a message with
    'rate limit' in it is replaced by one that quotes the client's own
    limits, any other is passed on as it is.  A rejection with something
    that is not an [Error] gives 'Unknown error occurred while sending
    email'. *)
Theorem send_error_mapping (invoke : EmailRequest → InvokeResult)
    (emailRequest : EmailRequest) :
  let relabelled message :=
    Throw (ErrorObj
      (if occurs "rate limit" message
       then "Rate limit exceeded. You can send up to 10 emails per hour and 50 emails per day."
       else message)) in
  (∀ data, send invoke emailRequest = Return data
           ↔ invoke emailRequest = invoke_resolves (Some data) None)
  ∧ send invoke emailRequest ≠ Unmodelled
  ∧ send invoke emailRequest ≠ Throw NonError
  ∧ (∀ message,
       invoke emailRequest = invoke_rejects (ErrorObj message) →
       send invoke emailRequest = relabelled message)
  ∧ (∀ data message,
       invoke emailRequest = invoke_resolves data (Some (Some message)) →
       message ≠ "" →
       send invoke emailRequest = relabelled message)
  ∧ (∀ data error_message,
       invoke emailRequest = invoke_resolves data (Some error_message) →
       present error_message = false →
       send invoke emailRequest = Throw (ErrorObj "Failed to send email"))
  ∧ (invoke emailRequest = invoke_resolves None None →
     send invoke emailRequest
     = Throw (ErrorObj "No response from email service"))
  ∧ (invoke emailRequest = invoke_rejects NonError →
     send invoke emailRequest
     = Throw (ErrorObj "Unknown error occurred while sending email")).
Proof.
  cbn zeta. rewrite send_cases.
  change (rate_limit_message RATE_LIMITS)
    with "Rate limit exceeded. You can send up to 10 emails per hour and 50 emails per day.".
  split; [|split; [|split; [|split; [|split; [|split; [|split]]]]]].
  - intros data.
    destruct (invoke emailRequest) as [[m|]|[d|] [em|]];
      cbn zeta; repeat (match goal with
                        | |- context [if ?b then _ else _] => destruct b
                        end);
      split; try discriminate; intros [= ->]; reflexivity.
  - destruct (invoke emailRequest) as [[m|]|[d|] [em|]];
      cbn zeta; repeat (match goal with
                        | |- context [if ?b then _ else _] => destruct b
                        end); discriminate.
  - destruct (invoke emailRequest) as [[m|]|[d|] [em|]];
      cbn zeta; repeat (match goal with
                        | |- context [if ?b then _ else _] => destruct b
                        end); discriminate.
  - intros message ->. reflexivity.
  - intros data message -> Hne. cbn zeta. cbn [present default].
    apply String.eqb_neq in Hne. rewrite Hne. destruct data; reflexivity.
  - intros data error_message -> Hnone. cbn zeta. rewrite Hnone.
    destruct data; reflexivity.
  - intros ->. reflexivity.
  - intros ->. reflexivity.
Qed.

(** The answer 429 of the handler reaches the user as the message of
    [functions.invoke], not as the reason of the limiter. *)
Lemma send_error_mapping_witness :
  send invoke_non_2xx malformed_recipient
  = Throw (ErrorObj "Edge Function returned a non-2xx status code").
Proof.
  destruct (send_error_mapping invoke_non_2xx malformed_recipient)
    as (_ & _ & _ & _ & H & _).
  apply (H None "Edge Function returned a non-2xx status code").
  - reflexivity.
  - discriminate.
Defined.

(** X22.  The typed senders and the handler agree: a request built by
    one of the five senders, for a recipient that is not the empty
    string, passes the handler's validation, names a registered template
    and carries no html or text of its own, so [sendEmail] has something
    to send, and what it sends is the rendering of that template. *)
Theorem typed_requests_are_well_formed (emailRequest : EmailRequest) :
  from_sender emailRequest →
  req_to emailRequest ≠ Some "" →
  present (req_to emailRequest) = true
  ∧ present (req_subject emailRequest) = true
  ∧ is_registered (default "" (req_template emailRequest)) = true
  ∧ has_content emailRequest
  ∧ ∃ r, rendered_for emailRequest = Return r
         ∧ content_of emailRequest = (Some (html r), Some (text r)).
Proof.
  intros Hfrom Hto.
  assert (Hpresent : present (req_to emailRequest) = true).
  { destruct Hfrom; cbn in Hto |- *; apply negb_true_iff, String.eqb_neq;
      congruence. }
  assert (Hreg : present (req_template emailRequest) = true
                 ∧ is_registered (default "" (req_template emailRequest)) = true).
  { destruct Hfrom; split; reflexivity. }
  destruct Hreg as [Htemplate Hreg].
  split; [exact Hpresent|]. split; [destruct Hfrom; reflexivity|].
  split; [exact Hreg|]. split; [left; auto|].
  destruct (registered_renders _ (default ∅ (req_data emailRequest)) Hreg)
    as [r Hr].
  exists r. split; [exact Hr|].
  unfold content_of. rewrite Htemplate. unfold rendered_for in *.
  rewrite Hr. reflexivity.
Qed.

Lemma typed_requests_are_well_formed_witness :
  has_content (sendWelcome "bob@example.com" (Some "Alice") None).
Proof.
  apply (typed_requests_are_well_formed
           (sendWelcome "bob@example.com" (Some "Alice") None)).
  - apply from_sendWelcome.
  - discriminate.
Defined.

(** ** The encoder loses nothing *)

Lemma encode_each_injective (s t : string) :
  encode_each s = encode_each t → s = t.
Proof.
  revert t. induction s as [|a s IH]; intros [|b t] H.
  - reflexivity.
  - pose proof (encode_each_empty (String b t)) as He.
    rewrite <- H in He. discriminate He.
  - pose proof (encode_each_empty (String a s)) as He.
    rewrite H in He. discriminate He.
  - cbn [encode_each] in H. unfold entity_of in H.
    repeat match type of H with
           | context [Ascii.eqb ?x ?c] =>
               destruct (Ascii.eqb_spec x c) as [->|?]
           end;
      cbv [String.append] in H;
      try congruence; f_equal; first [congruence | apply IH; congruence].
Qed.

Lemma encode_each_length (s : string) :
  (String.length s ≤ String.length (encode_each s))%nat
  ∧ (String.length (encode_each s) = String.length s →
     ∀ c, In c ("&"%char :: markup_chars) → has_char c s = false).
Proof.
  induction s as [|a s [IHle IHeq]]; [split; [reflexivity | reflexivity]|].
  cbn [encode_each]. unfold entity_of, markup_chars.
  repeat match goal with
         | |- context [Ascii.eqb ?x ?c] =>
             destruct (Ascii.eqb_spec x c) as [->|?]
         end;
    cbv [String.append]; cbn [String.length]; (split; [lia|]); intros Hlen;
    try (exfalso; lia).
  intros c Hc. cbn [has_char]. rewrite (IHeq ltac:(lia) c Hc), orb_false_r.
  apply Ascii.eqb_neq. cbn in Hc. intuition congruence.
Qed.

(** X23.  Sanitizing loses nothing but the key [__proto__]: two
    strings that differ have encodings that differ, and two data bags
    have the same sanitized bag exactly when they agree on every key
    other than [__proto__]; whatever the bag holds under that key is
    lost. *)
Theorem sanitizing_loses_only_proto :
  (∀ s t : string, encodeEntities s = encodeEntities t → s = t)
  ∧ (∀ data1 data2 : TemplateData,
       sanitizeEmailData data1 = sanitizeEmailData data2
       ↔ delete "__proto__" data1 = delete "__proto__" data2)
  ∧ (∀ (data : TemplateData) (v : JsValue),
       sanitizeEmailData (<["__proto__" := v]> data) = sanitizeEmailData data).
Proof.
  assert (Hstr : ∀ s t : string, encodeEntities s = encodeEntities t → s = t).
  { intros s t. rewrite !encodeEntities_one_pass. apply encode_each_injective. }
  assert (Hbag : ∀ data1 data2 : TemplateData,
    sanitizeEmailData data1 = sanitizeEmailData data2
    ↔ delete "__proto__" data1 = delete "__proto__" data2).
  { intros data1 data2. split.
    - intros H. apply map_eq. intros k.
      destruct (decide (k = "__proto__")) as [->|Hk].
      + rewrite !lookup_delete_eq. reflexivity.
      + rewrite !lookup_delete_ne by congruence.
        apply (f_equal (λ m : TemplateData, m !! k)) in H.
        rewrite !sanitizeEmailData_at, !decide_False in H by exact Hk.
        destruct (data1 !! k) as [v1|], (data2 !! k) as [v2|]; cbn in H;
          try discriminate; [|reflexivity].
        f_equal. destruct v1, v2; try congruence.
        injection H as H. f_equal. apply Hstr, H.
    - intros H. unfold sanitizeEmailData. rewrite <- !fmap_delete, H.
      reflexivity. }
  split; [exact Hstr|]. split; [exact Hbag|].
  intros data v. apply Hbag. apply delete_insert_eq.
Qed.

Lemma sanitizing_loses_only_proto_witness :
  sanitizeEmailData (<["__proto__" := JStr "<b>"]> {[ "a" := JStr "x" ]})
  = sanitizeEmailData {[ "a" := JStr "x" ]}.
Proof.
  destruct sanitizing_loses_only_proto as (_ & _ & H). apply H.
Defined.

(** X24.  Sanitizing twice is not sanitizing once: the second pass
    changes the result exactly when the first one has encoded something,
    which it has exactly when the string has one of the five reserved
    characters. *)
Theorem sanitizing_twice (value : string) :
  (encodeEntities (encodeEntities value) = encodeEntities value
   ↔ encodeEntities value = value)
  ∧ (encodeEntities value = value
     ↔ ∀ c, In c ("&"%char :: markup_chars) → has_char c value = false).
Proof.
  rewrite !encodeEntities_one_pass. split; split.
  - apply encode_each_injective.
  - intros H. rewrite !H. reflexivity.
  - intros H. apply (proj2 (encode_each_length value)). rewrite H. reflexivity.
  - apply encode_each_clean.
Qed.

(** ** Tags stripped from a custom e-mail (examples) *)

Lemma matches_tag (m : string) :
  matches tagRegex m ↔
  ∃ inner, m = "<" +:+ inner +:+ ">" ∧ has_char ">" inner = false.
Proof.
  unfold tagRegex. rewrite matches_cat_iff. split.
  - intros (s1 & s2 & -> & (c & -> & Hc)%matches_class_iff
            & (s3 & s4 & -> & Hs3%matches_star_class
               & (c' & -> & Hc')%matches_class_iff)%matches_cat_iff).
    apply Ascii.eqb_eq in Hc, Hc'. subst c c'. exists s3. split; [reflexivity|].
    clear -Hs3. induction s3 as [|x s IH]; [reflexivity|]. cbn in Hs3 |- *.
    apply andb_true_iff in Hs3 as [Hx Hs]. rewrite (IH Hs), orb_false_r.
    apply negb_true_iff, Hx.
  - intros (inner & -> & Hinner). exists "<", (inner +:+ ">").
    split; [reflexivity|]. split; [apply matches_class_iff; eauto|].
    apply matches_cat_iff. exists inner, ">". split; [reflexivity|].
    split; [|apply matches_class_iff; eauto].
    apply matches_star_class.
    induction inner as [|x s IH]; [reflexivity|]. cbn in Hinner |- *.
    apply orb_false_iff in Hinner as [Hx Hs]. rewrite Hx, (IH Hs). reflexivity.
Qed.

(** Within a match, the scan drops everything through the first [>]. *)
Lemma strip_inside (inner post : string) :
  has_char ">" inner = false →
  strip true (inner +:+ ">" +:+ post) = strip false post.
Proof.
  induction inner as [|x s IH]; [reflexivity|]. cbn [has_char].
  intros [Hx Hs]%orb_false_iff. rewrite append_cons. cbn [strip].
  rewrite Hx. apply IH, Hs.
Qed.

Lemma strip_leftmost (pre m post : string) :
  has_char "<" pre = false → matches tagRegex m →
  stripTags (pre +:+ m +:+ post) = pre +:+ stripTags post.
Proof.
  intros Hpre (inner & -> & Hinner)%matches_tag. unfold stripTags.
  assert (E : ("<" +:+ inner +:+ ">") +:+ post
              = String "<" (inner +:+ ">" +:+ post)).
  { rewrite !append_cons, !append_empty_l, append_assoc. reflexivity. }
  rewrite E. clear E.
  induction pre as [|x s IH].
  - rewrite !append_empty_l. cbn [strip]. rewrite Ascii.eqb_refl.
    rewrite has_char_append. change (">" +:+ post) with (String ">"%char post).
    cbn [has_char]. rewrite Ascii.eqb_refl, orb_true_r. cbn [andb orb].
    apply (strip_inside inner post Hinner).
  - cbn [has_char] in Hpre. apply orb_false_iff in Hpre as [Hx Hs].
    rewrite !(append_cons x s). cbn [strip]. rewrite Hx. cbn [andb].
    f_equal. exact (IH Hs).
Qed.

Lemma strip_no_open_tag (s : string) :
  no_open_tag s = true → stripTags s = s.
Proof.
  unfold stripTags. induction s as [|c s IH]; [reflexivity|].
  cbn [no_open_tag strip]. intros [Hc Hs]%andb_true_iff.
  apply negb_true_iff in Hc. rewrite Hc, (IH Hs). reflexivity.
Qed.

Lemma strip_keeps_out (c : ascii) (inside : bool) (s : string) :
  has_char c s = false → has_char c (strip inside s) = false.
Proof.
  revert inside. induction s as [|x s IH]; intros inside; [reflexivity|].
  cbn [has_char strip]. intros [Hx Hs]%orb_false_iff.
  destruct inside; [destruct (Ascii.eqb x ">"); apply IH, Hs|].
  destruct (_ && _); [apply IH, Hs|].
  cbn [has_char]. rewrite Hx, (IH _ Hs). reflexivity.
Qed.

Lemma stripped_no_open_tag (inside : bool) (s : string) :
  no_open_tag (strip inside s) = true.
Proof.
  revert inside. induction s as [|x s IH]; intros inside; [reflexivity|].
  cbn [strip]. destruct inside; [destruct (Ascii.eqb x ">"); apply IH|].
  destruct (Ascii.eqb x "<" && has_char ">" s) eqn:E; [apply IH|].
  cbn [no_open_tag]. rewrite IH, andb_true_r. apply negb_true_iff.
  apply andb_false_iff in E as [E | E]; [rewrite E; reflexivity|].
  rewrite (strip_keeps_out _ _ _ E). apply andb_false_r.
Qed.

Lemma split_at_first (c : ascii) (s : string) :
  has_char c s = true →
  ∃ a b, s = a +:+ String c b ∧ has_char c a = false.
Proof.
  induction s as [|x s IH]; [discriminate|]. cbn [has_char].
  destruct (Ascii.eqb_spec x c) as [->|Hx].
  - intros _. exists "", s. split; reflexivity.
  - cbn [orb]. intros (a & b & -> & Ha)%IH. exists (String x a), b.
    split; [reflexivity|]. cbn [has_char]. rewrite Ha.
    apply Ascii.eqb_neq in Hx. rewrite Hx. reflexivity.
Qed.

Lemma tag_free_no_open_tag (s : string) :
  tag_free s ↔ no_open_tag s = true.
Proof.
  unfold tag_free. split.
  - induction s as [|c s IH]; [reflexivity|]. intros H. cbn [no_open_tag].
    rewrite IH.
    2:{ intros pre m post ->. apply (H (String c pre) m post). reflexivity. }
    rewrite andb_true_r. apply negb_true_iff.
    destruct (Ascii.eqb_spec c "<") as [->|Hc]; [|reflexivity]. cbn [andb].
    destruct (has_char ">" s) eqn:E; [|reflexivity]. exfalso.
    destruct (split_at_first _ _ E) as (inner & post & -> & Hinner).
    apply (H "" ("<" +:+ inner +:+ ">") post).
    + rewrite append_empty_l, !append_cons, !append_empty_l, append_assoc.
      reflexivity.
    + apply matches_tag. eauto.
  - intros Hs pre m post -> (inner & -> & Hinner)%matches_tag.
    induction pre as [|x pre IH].
    + rewrite append_empty_l, !append_cons, !append_empty_l, append_assoc in Hs.
      cbn [no_open_tag] in Hs. rewrite Ascii.eqb_refl in Hs.
      rewrite has_char_append in Hs.
      change (">" +:+ post) with (String ">"%char post) in Hs.
      cbn [has_char] in Hs. rewrite Ascii.eqb_refl, orb_true_r in Hs.
      discriminate Hs.
    + rewrite (append_cons x pre) in Hs. cbn [no_open_tag] in Hs.
      apply andb_true_iff in Hs as [_ Hs]. exact (IH Hs).
Qed.

(** X25.  The text that [sendCustomEmail] sends beside the html is the
    html with its tags removed from left to right, a tag being a [<], any
    characters other than [>], and a [>].  No part of that text is a
    tag, so stripping it again changes nothing; an html without tags is
    its own text; a [<] with no [>] after it stays.  The request has
    something to send exactly when the html is not empty. *)
Theorem custom_email_text_has_no_tags (to subject htmlContent : string) :
  let emailRequest := sendCustomEmail to subject htmlContent in
  req_html emailRequest = Some htmlContent
  ∧ req_text emailRequest = Some (stripTags htmlContent)
  ∧ (∀ pre m post,
       htmlContent = pre +:+ m +:+ post →
       has_char "<" pre = false → matches tagRegex m →
       stripTags htmlContent = pre +:+ stripTags post)
  ∧ (tag_free htmlContent ↔ stripTags htmlContent = htmlContent)
  ∧ tag_free (stripTags htmlContent)
  ∧ stripTags (stripTags htmlContent) = stripTags htmlContent
  ∧ (has_content emailRequest ↔ htmlContent ≠ "").
Proof.
  cbn zeta. split; [reflexivity|]. split; [reflexivity|].
  split; [intros pre m post ->; apply strip_leftmost|].
  assert (Hfree : tag_free (stripTags htmlContent))
    by (apply tag_free_no_open_tag, stripped_no_open_tag).
  split; [|split; [exact Hfree|split]].
  - split.
    + intros H. apply strip_no_open_tag, tag_free_no_open_tag, H.
    + intros <-. exact Hfree.
  - apply strip_no_open_tag, stripped_no_open_tag.
  - unfold has_content, sendCustomEmail. cbn [req_template req_html req_text present].
    split.
    + intros [[H _] | [_ [H | H]]]; [discriminate| |]; intros ->; discriminate H.
    + intros H. right. split; [reflexivity|]. left.
      apply negb_true_iff, String.eqb_neq, H.
Qed.

Lemma custom_email_text_has_no_tags_witness :
  stripTags "Hi <b>there</b>" = "Hi " +:+ stripTags "there</b>".
Proof.
  destruct (custom_email_text_has_no_tags "bob@example.com" "Hello"
              "Hi <b>there</b>") as (_ & _ & H & _).
  apply (H "Hi " "<b>" "there</b>").
  - reflexivity.
  - reflexivity.
  - apply regex_test_matches. reflexivity.
Defined.

Lemma stripTags_samples :
  stripTags "<p>Hello <b>world</b></p>" = "Hello world"
  ∧ stripTags "a < b" = "a < b"
  ∧ stripTags "1 < 2 and 3 > 2" = "1  2".
Proof. repeat split; reflexivity. Qed.

(** ** The pre-check of the example against the utilities *)

(** X26.  The comparisons that [sendWithRateLimitCheck] makes inline
    agree with the utilities: given statistics, it calls the sender
    exactly when [calculateRemainingEmails] says [canSend], and then
    exactly once, with a reminder for the recipient; when it does not, it
    shows one 'Rate limit reached' toast, the hourly one exactly when
    [getRateLimitMessage] gives its hourly message.  After a successful
    send the remainder it shows is one less than [remainingToday], and
    not negative.  Without statistics it sends nothing. *)
Theorem example_precheck_agrees (statsOutcome : Outcome EmailStats)
    (invoke : EmailRequest → InvokeResult) (recipientEmail : string) :
  let evs := sendWithRateLimitCheck statsOutcome invoke recipientEmail in
  let reminder :=
    sendTaskReminder recipientEmail "Example task" None None None in
  (∀ stats, statsOutcome = Return stats →
     let remaining := calculateRemainingEmails stats RATE_LIMITS in
     (canSend remaining = true → calls_of evs = [reminder])
     ∧ (canSend remaining = false →
        calls_of evs = []
        ∧ ∃ description,
            evs = [ShowToast "Rate limit reached" description true]
            ∧ (description
               = "You have reached your hourly email limit. Please try again later."
               ↔ getRateLimitMessage stats RATE_LIMITS
                 = Some "Hourly email limit reached. Please try again later."))
     ∧ (∀ data, send invoke reminder = Return data →
        canSend remaining = true →
        0 ≤ remainingToday remaining - 1
        ∧ evs = [CallSend reminder;
                 ShowToast "Email sent"
                   ("Remaining today: "
                    +:+ pretty (remainingToday remaining - 1)) false]))
  ∧ ((∀ stats, statsOutcome ≠ Return stats) → calls_of evs = []).
Proof.
  cbn zeta. split.
  - intros stats ->. unfold sendWithRateLimitCheck, calculateRemainingEmails,
      getRateLimitMessage, calculateRemainingEmails.
    cbn [RATE_LIMITS maxEmailsPerHour maxEmailsPerDay canSend remainingToday
         remainingThisHour].
    destruct (Z.leb_spec 10 (sentThisHour stats)) as [Hh|Hh];
      [|destruct (Z.leb_spec 50 (sentToday stats)) as [Hd|Hd]].
    + assert (E1 : (0 <? 10 - sentThisHour stats) = false) by (apply Z.ltb_ge; lia).
      assert (E2 : (Z.max 0 (10 - sentThisHour stats) =? 0) = true)
        by (apply Z.eqb_eq; lia).
      rewrite E1, E2. cbn [andb]. split; [discriminate|]. split.
      * intros _. split; [reflexivity|]. eexists. split; [reflexivity|].
        split; reflexivity.
      * intros data _ [=].
    + assert (E1 : (0 <? 50 - sentToday stats) = false) by (apply Z.ltb_ge; lia).
      assert (E2 : (Z.max 0 (10 - sentThisHour stats) =? 0) = false)
        by (apply Z.eqb_neq; lia).
      rewrite E1, E2, andb_false_r. split; [discriminate|]. split.
      * intros _. split; [reflexivity|]. eexists. split; [reflexivity|].
        split; [intros H; discriminate H|].
        cbn. rewrite ?E2.
        destruct (Z.max 0 (50 - sentToday stats) =? 0); intros H; discriminate H.
      * intros data _ [=].
    + assert (E1 : (0 <? 10 - sentThisHour stats) = true) by (apply Z.ltb_lt; lia).
      assert (E2 : (0 <? 50 - sentToday stats) = true) by (apply Z.ltb_lt; lia).
      rewrite E1, E2. cbn [andb]. split; [|split; [discriminate|]].
      * intros _. destruct (send invoke _) as [data|e|]; reflexivity.
      * intros data -> _. rewrite Z.max_r by lia. split; [lia | reflexivity].
  - intros Hno. unfold sendWithRateLimitCheck.
    destruct statsOutcome as [stats|e|]; [destruct (Hno stats eq_refl)| |];
      reflexivity.
Qed.

Lemma example_precheck_agrees_witness :
  calls_of (sendWithRateLimitCheck
              (Return {| sentToday := 12; sentThisHour := 10; failedToday := 0;
                         totalSent := 40 |})
              invoke_accepting "bob@example.com") = [].
Proof.
  destruct (example_precheck_agrees
              (Return {| sentToday := 12; sentThisHour := 10; failedToday := 0;
                         totalSent := 40 |})
              invoke_accepting "bob@example.com") as [H _].
  destruct (H _ eq_refl) as (_ & Hblocked & _).
  apply Hblocked. reflexivity.
Defined.

(** ** The hook [useEmailNotifications] *)

Lemma send_on_bound (typeError : string → string)
    (invoke : EmailRequest → InvokeResult) (emailRequest : EmailRequest) :
  send_on true typeError invoke emailRequest = send invoke emailRequest.
Proof. reflexivity. Qed.

(** The cases of [handleSend]: the outcome of the call, then that of
    the callback that runs, if any. *)
Ltac handleSend_cases options attempt :=
  unfold handleSend;
  destruct options as [onS onE toast]; cbn [onSuccess onError showToast];
  destruct attempt as [resp|err|];
  [ destruct onS as [cb|];
    [ destruct (cb resp) as [[]|thrown|] eqn:Hcb;
      [ | destruct onE as [cbE|];
          [ destruct (cbE (ErrorObj (message_of thrown))) as [[]|e'|] eqn:HcbE | ]
        | ]
    | ]
  | destruct onE as [cbE|];
    [ destruct (cbE (ErrorObj (message_of err))) as [[]|e'|] eqn:HcbE | ]
  | ];
  cbn [fst snd].

Lemma handleSend_resolves (options : UseEmailNotificationsOptions)
    (attempt : Outcome EmailResponse) (response : EmailResponse) :
  snd (handleSend options attempt) = Return (Some response) ↔
  attempt = Return response
  ∧ ∀ callback, onSuccess options = Some callback →
                callback response = Return tt.
Proof.
  handleSend_cases options attempt; split;
    try (intros H; discriminate H);
    try (intros [H _]; discriminate H).
  - intros [= <-]. split; [reflexivity|]. intros cb' [= <-]. exact Hcb.
  - intros [[= <-] _]. reflexivity.
  - intros [[= <-] H]. specialize (H cb eq_refl). congruence.
  - intros [[= <-] H]. specialize (H cb eq_refl). congruence.
  - intros [[= <-] H]. specialize (H cb eq_refl). congruence.
  - intros [[= <-] H]. specialize (H cb eq_refl). congruence.
  - intros [[= <-] H]. specialize (H cb eq_refl). congruence.
  - intros [= <-]. split; [reflexivity|]. intros cb' H. discriminate H.
  - intros [[= <-] _]. reflexivity.
Qed.

Lemma handleSend_rejects (options : UseEmailNotificationsOptions)
    (attempt : Outcome EmailResponse) (e : Thrown) :
  snd (handleSend options attempt) = Throw e →
  ∃ callback error, onError options = Some callback ∧ callback error = Throw e.
Proof.
  handleSend_cases options attempt; intros H; try discriminate H;
    injection H as <-; eauto.
Qed.

Lemma handleSend_callback_throws (options : UseEmailNotificationsOptions)
    (response : EmailResponse) (callback : EmailResponse → Outcome unit)
    (e : Thrown) :
  onSuccess options = Some callback → callback response = Throw e →
  In (SetError (Some (message_of e))) (fst (handleSend options (Return response)))
  ∧ snd (handleSend options (Return response)) ≠ Return (Some response).
Proof.
  unfold handleSend. destruct options as [onS onE toast].
  cbn [onSuccess onError showToast]. intros -> ->. cbn [message_of].
  destruct onE as [cbE|];
    [destruct (cbE (ErrorObj (message_of e))) as [[]|e'|]|];
    cbn [fst snd]; (split; [|discriminate]);
    rewrite !in_app_iff; cbn [In]; auto 10.
Qed.

Lemma handleSend_brackets (options : UseEmailNotificationsOptions)
    (attempt : Outcome EmailResponse) :
  snd (handleSend options attempt) ≠ Unmodelled →
  ∃ middle, fst (handleSend options attempt)
            = ([SetSending true; SetError None] ++ middle
               ++ [SetSending false])%list.
Proof.
  handleSend_cases options attempt; intros H;
    try (exfalso; apply H; reflexivity);
    eexists; symmetry; apply List.app_assoc.
Qed.

Lemma handleSend_quiet (options : UseEmailNotificationsOptions)
    (attempt : Outcome EmailResponse) :
  showToast options = false → toasts_of (fst (handleSend options attempt)) = [].
Proof.
  handleSend_cases options attempt; intros ->; reflexivity.
Qed.

(** X27.  [handleSend] settles in every case, and the only exception
    that leaves it is one thrown by the [onError] callback.  It resolves
    with the response exactly when the call and [onSuccess] both return;
    when the call succeeds and [onSuccess] throws, the failure path runs
    although the e-mail went out.  Whatever happens, it starts by
    [setSending(true)] and [setError(null)] and its last step is
    [setSending(false)]; without [showToast] it shows nothing. *)
Theorem handleSend_settles (options : UseEmailNotificationsOptions)
    (attempt : Outcome EmailResponse) :
  let '(evs, out) := handleSend options attempt in
  (∀ response, out = Return (Some response) ↔
     attempt = Return response
     ∧ ∀ callback, onSuccess options = Some callback →
                   callback response = Return tt)
  ∧ (∀ e, out = Throw e →
       ∃ callback error, onError options = Some callback
                         ∧ callback error = Throw e)
  ∧ (∀ response callback e,
       attempt = Return response → onSuccess options = Some callback →
       callback response = Throw e →
       In (SetError (Some (message_of e))) evs
       ∧ out ≠ Return (Some response))
  ∧ (out ≠ Unmodelled →
       ∃ middle, evs = ([SetSending true; SetError None] ++ middle
                        ++ [SetSending false])%list)
  ∧ (showToast options = false → toasts_of evs = []).
Proof.
  pose proof (handleSend_resolves options attempt) as H1.
  pose proof (handleSend_rejects options attempt) as H2.
  pose proof (handleSend_brackets options attempt) as H4.
  pose proof (handleSend_quiet options attempt) as H5.
  assert (H3 : ∀ response callback e,
    attempt = Return response → onSuccess options = Some callback →
    callback response = Throw e →
    In (SetError (Some (message_of e))) (fst (handleSend options attempt))
    ∧ snd (handleSend options attempt) ≠ Return (Some response)).
  { intros response callback e ->. apply handleSend_callback_throws. }
  destruct (handleSend options attempt) as [evs out]. cbn [fst snd] in *.
  auto.
Qed.

Lemma handleSend_settles_witness :
  In (SetError (Some "boom"))
    (fst (handleSend throwing_onSuccess
            (Return {| success := true;
                       response_message := "Email sent successfully" |}))).
Proof.
  pose proof (handleSend_settles throwing_onSuccess
                (Return {| success := true;
                           response_message := "Email sent successfully" |}))
    as H.
  destruct (handleSend throwing_onSuccess _) as [evs out].
  destruct H as (_ & _ & H & _).
  apply (H _ _ (ErrorObj "boom") eq_refl eq_refl eq_refl).
Defined.

Lemma handleSend_thrown (options : UseEmailNotificationsOptions) (err : Thrown) :
  let '(evs, out) := handleSend options (Throw err) in
  (∀ response, out ≠ Return (Some response))
  ∧ In (SetError (Some (message_of err))) evs
  ∧ (showToast options = true →
     toasts_of evs = [Toast "Failed to send email" (message_of err) true]).
Proof.
  unfold handleSend. destruct options as [onS onE toast].
  cbn [onSuccess onError showToast message_of].
  destruct onE as [cbE|];
    [destruct (cbE (ErrorObj (message_of err))) as [[]|e'|]|];
    (split; [intros r H; discriminate H|]);
    (split; [destruct toast; cbn; auto 10|]);
    intros ->; reflexivity.
Qed.

(** X28.  The hook hands the methods of [EmailNotificationClient] to
    [handleSend] detached from the class, so they run with [this]
    undefined: [send] throws a TypeError on [this.FUNCTION_NAME] before
    the edge function is invoked (and, should that message mention the
    rate limit, another one on [this.RATE_LIMITS]), and the typed
    senders throw on [this.send].  Hence no sender of the hook ever
    resolves with a response; what it does is the same whatever the edge
    function would answer; and the error it records is the TypeError. *)
Theorem hook_senders_are_detached (typeError : string → string)
    (options : UseEmailNotificationsOptions)
    (invoke : EmailRequest → InvokeResult) (request : EmailRequest) :
  let '(evs, out) := hook_sendEmail typeError options invoke request in
  let '(evs_task, out_task) := hook_sendTask typeError options in
  (∀ response, out ≠ Return (Some response))
  ∧ (∀ response, out_task ≠ Return (Some response))
  ∧ (∀ invoke', hook_sendEmail typeError options invoke' request = (evs, out))
  ∧ (In (SetError (Some (typeError "FUNCTION_NAME"))) evs
     ∨ In (SetError (Some (typeError "RATE_LIMITS"))) evs)
  ∧ In (SetError (Some (typeError "send"))) evs_task.
Proof.
  unfold hook_sendEmail, hook_sendTask, sender_detached, send_on.
  pose proof (handleSend_thrown options (ErrorObj (typeError "FUNCTION_NAME"))) as H1.
  pose proof (handleSend_thrown options (ErrorObj (typeError "RATE_LIMITS"))) as H2.
  pose proof (handleSend_thrown options (ErrorObj (typeError "send"))) as H3.
  destruct (handleSend options (Throw (ErrorObj (typeError "send"))))
    as [evs_task out_task].
  destruct H3 as (Hno3 & Hin3 & _).
  destruct (occurs "rate limit" (typeError "FUNCTION_NAME")).
  - destruct (handleSend options (Throw (ErrorObj (typeError "RATE_LIMITS"))))
      as [evs out].
    destruct H2 as (Hno & Hin & _). auto 10.
  - destruct (handleSend options (Throw (ErrorObj (typeError "FUNCTION_NAME"))))
      as [evs out].
    destruct H1 as (Hno & Hin & _). auto 10.
Qed.

Lemma hook_senders_are_detached_witness :
  snd (hook_sendEmail v8_typeError default_options invoke_accepting
         malformed_recipient)
  ≠ Return (Some {| success := true;
                    response_message := "Email sent successfully" |}).
Proof.
  pose proof (hook_senders_are_detached v8_typeError default_options
                invoke_accepting malformed_recipient) as H.
  destruct (hook_sendEmail v8_typeError default_options invoke_accepting
              malformed_recipient) as [evs out].
  destruct (hook_sendTask v8_typeError default_options) as [evs_task out_task].
  destruct H as (H & _). apply H.
Defined.
